(** * Prism agent gateway: sandbox policy, event translator, trace and metrics

    A shallow embedding of the parts of [web/backend/main.py] and
    [examples/safe_sandbox.py] that the specification talks about, and the
    properties of the specification stated and proved over it.

    Conventions.
    - Paths, tool names and shell commands are [string]s (byte strings;
      [str.lower] and [str.upper] are modelled on their ASCII range).
    - Streamed text is a list of Unicode code points ([list N]), because the
      sanitizer is about the code point U+FFFD.
    - A tool input (a Python [dict]) is a [gmap string string]: the fields the
      checks read ([file_path], [path], [pattern], [command]) are strings.
    - Wall-clock instants are rationals ([Q], seconds). *)

From Stdlib Require Import ZArith QArith Qround List Bool String Ascii DecimalString Lia.
From stdpp Require Import gmap strings list.
From Stdlib Require Import Sorted Permutation Lqa.

Open Scope string_scope.

(** ** Python string helpers *)

Module PyStr.

Definition is_upper (c : ascii) : bool :=
  (65 <=? nat_of_ascii c)%nat && (nat_of_ascii c <=? 90)%nat.

Definition is_lower (c : ascii) : bool :=
  (97 <=? nat_of_ascii c)%nat && (nat_of_ascii c <=? 122)%nat.

Definition lower_char (c : ascii) : ascii :=
  if is_upper c then ascii_of_nat (nat_of_ascii c + 32) else c.

Definition upper_char (c : ascii) : ascii :=
  if is_lower c then ascii_of_nat (nat_of_ascii c - 32) else c.

(** [map_chars f s]: apply [f] to every character. *)
Fixpoint map_chars (f : ascii -> ascii) (s : string) : string :=
  match s with
  | EmptyString => EmptyString
  | String c s' => String (f c) (map_chars f s')
  end.

(** [s.lower()] *)
Definition lower (s : string) : string := map_chars lower_char s.

(** [s.replace(a, b)] for single characters [a] and [b]. *)
Definition replace_char (a b : ascii) (s : string) : string :=
  map_chars (fun c => if Ascii.eqb c a then b else c) s.

(** [s.split(sep)[-1]]: what follows the last [sep], the whole of [s] when
    it has none.  [acc] is the segment read so far. *)
Fixpoint last_segment_from (sep : ascii) (acc s : string) : string :=
  match s with
  | EmptyString => acc
  | String c s' =>
      if Ascii.eqb c sep then last_segment_from sep EmptyString s'
      else last_segment_from sep (acc ++ String c EmptyString) s'
  end.

Definition last_segment (sep : ascii) (s : string) : string :=
  last_segment_from sep EmptyString s.

(** [needle in hay] *)
Fixpoint contains (needle hay : string) : bool :=
  String.prefix needle hay ||
  match hay with
  | EmptyString => false
  | String _ hay' => contains needle hay'
  end.

(** Truthiness of a string: [if s:]. *)
Definition truthy (s : string) : bool :=
  match s with EmptyString => false | _ => true end.

(** [a or b] on strings. *)
Definition or_else (a b : string) : string := if truthy a then a else b.

(** [x in names] for a list of string literals. *)
Definition mem (x : string) (names : list string) : bool :=
  existsb (String.eqb x) names.

(** [str(n)] for a natural number, as characters. *)
Definition of_nat (n : nat) : string :=
  DecimalString.NilZero.string_of_uint (Nat.to_uint n).

End PyStr.

(** ** The gateway's sandbox check ([web/backend/main.py]) *)

Abbreviation ToolInput := (gmap string string).

(** [tool_input.get(key, "")] *)
Definition get (tool_input : ToolInput) (key : string) : string :=
  default "" (tool_input !! key).

(** The second component of [sandbox_check_tool]'s result is a message; each
    constructor stands for one of the messages the function builds. *)
Inductive Reason : Type :=
  | NoReason                                          (* "" *)
  | SensitiveFile (file_name sensitive : string)      (* read of a blacklisted file *)
  | SensitivePattern (pattern : string)               (* search pattern on the blacklist *)
  | EmptyFilePath                                     (* write with no file path *)
  | WriteOutsideSandbox (file_path : string)          (* write outside the allowed dirs *)
  | PathTraversal                                     (* "../" in a command *)
  | CommandPathOutsideSandbox (path_str : string).    (* absolute path outside the sandbox *)

(** The three expressions of [path_patterns], in the order of the list. *)
Inductive PathPattern : Type := WindowsDrive | GitBashDrive | UnixAbsolute.

Definition path_patterns : list PathPattern :=
  [WindowsDrive; GitBashDrive; UnixAbsolute].

(** The blacklist of the read family. *)
Definition sensitive_patterns : list string :=
  [".env"; ".env.local"; ".env.production"; "credentials"; "secrets"].

(** [pathlib]'s [relative_to] succeeds when the parts of [other] are a
    prefix of the parts of [path]. *)
Fixpoint relative_to (path other : list string) {struct other} : bool :=
  match other, path with
  | [], _ => true
  | o :: other', p :: path' => String.eqb o p && relative_to path' other'
  | _ :: _, [] => false
  end.

(** [/c/rest] becomes [C:\rest] (the Git Bash spelling of a drive). *)
Definition normalize_drive (path_str : string) : string :=
  match path_str with
  | String "/" (String c (String "/" rest)) =>
      String (PyStr.upper_char c)
        (String ":" (PyStr.replace_char "/" "\" (String "/" rest)))
  | _ => path_str
  end.

Section Sandbox.

(** The file system and the regular-expression engine are the
    environment of the check.
    - [resolve file_path] is [Path(file_path).resolve()] as its list of
      parts, [None] when it raises.
    - [SANDBOX_ROOT] is the resolved sandbox directory.
    - [re_findall p command] is [re.findall(p, command, re.IGNORECASE)]. *)
Variable resolve : string -> option (list string).
Variable SANDBOX_ROOT : list string.
Variable re_findall : PathPattern -> string -> list string.

Definition ALLOWED_DIRS : list (list string) := [SANDBOX_ROOT].

Definition is_path_in_sandbox (file_path : string) : bool :=
  match resolve file_path with
  | Some path => existsb (relative_to path) ALLOWED_DIRS
  | None => false
  end.

(** The loop over [sensitive_patterns] on a file name: the first entry
    contained in it. *)
Fixpoint first_sensitive (file_name : string) (patterns : list string)
  : option string :=
  match patterns with
  | [] => None
  | sensitive :: rest =>
      if PyStr.contains (PyStr.lower sensitive) file_name then Some sensitive
      else first_sensitive file_name rest
  end.

(** The loop over the paths found in a command: the first one outside the
    sandbox, after [normalize_drive]. *)
Fixpoint first_outside (matches : list string) : option string :=
  match matches with
  | [] => None
  | path_str :: rest =>
      let path_str := normalize_drive path_str in
      if is_path_in_sandbox path_str then first_outside rest
      else Some path_str
  end.

Fixpoint first_outside_patterns (patterns : list PathPattern) (command : string)
  : option string :=
  match patterns with
  | [] => None
  | pattern :: rest =>
      match first_outside (re_findall pattern command) with
      | Some path_str => Some path_str
      | None => first_outside_patterns rest command
      end
  end.

Definition sandbox_check_tool (tool_name : string) (tool_input : ToolInput)
  : bool * Reason :=
  if PyStr.mem tool_name ["Read"; "Glob"; "Grep"] then
    let file_path :=
      PyStr.or_else (get tool_input "file_path") (get tool_input "path") in
    let pattern := get tool_input "pattern" in
    let file_name :=
      PyStr.lower (PyStr.last_segment "/" (PyStr.replace_char "\" "/" file_path)) in
    match (if PyStr.truthy file_path
           then first_sensitive file_name sensitive_patterns else None) with
    | Some sensitive => (false, SensitiveFile file_name sensitive)
    | None =>
        match (if PyStr.truthy pattern
               then first_sensitive (PyStr.lower pattern) sensitive_patterns
               else None) with
        | Some _ => (false, SensitivePattern pattern)
        | None => (true, NoReason)
        end
    end
  else if PyStr.mem tool_name ["Write"; "Edit"] then
    let file_path := get tool_input "file_path" in
    if negb (PyStr.truthy file_path) then (false, EmptyFilePath)
    else if negb (is_path_in_sandbox file_path)
         then (false, WriteOutsideSandbox file_path)
         else (true, NoReason)
  else if String.eqb tool_name "Bash" then
    let command := get tool_input "command" in
    if PyStr.contains "../" command || PyStr.contains "..\" command
    then (false, PathTraversal)
    else match first_outside_patterns path_patterns command with
         | Some path_str => (false, CommandPathOutsideSandbox path_str)
         | None => (true, NoReason)
         end
  else if String.eqb tool_name "Task" then (true, NoReason)
  else (true, NoReason).

(** A run of checks, one after the other, as the hooks issue them. *)
Definition check_sequence (calls : list (string * ToolInput))
  : list (bool * Reason) :=
  map (fun call => sandbox_check_tool (fst call) (snd call)) calls.

End Sandbox.

(** A file system without symbolic links, for concrete runs: [resolve] is
    then the lexical normalisation of the path against the working
    directory [cwd] (parts, root first), and fails on a path that holds a
    NUL character. *)
Module LexicalFS.

Fixpoint split_from (sep : ascii) (acc s : string) : list string :=
  match s with
  | EmptyString => [acc]
  | String c s' =>
      if Ascii.eqb c sep then acc :: split_from sep EmptyString s'
      else split_from sep (acc ++ String c EmptyString) s'
  end.

(** [s.split(sep)] *)
Definition split (sep : ascii) (s : string) : list string :=
  split_from sep EmptyString s.

(** Apply the segments to a stack of parts kept in reverse order. *)
Fixpoint walk (rev_parts : list string) (segments : list string) : list string :=
  match segments with
  | [] => rev_parts
  | seg :: rest =>
      if String.eqb seg "" || String.eqb seg "." then walk rev_parts rest
      else if String.eqb seg ".." then
        match rev_parts with
        | [] | [_] => walk rev_parts rest          (* the root is its own parent *)
        | _ :: up => walk up rest
        end
      else walk (seg :: rev_parts) rest
  end.

(** A path with a NUL character in it: [Path.resolve] raises on it. *)
Fixpoint has_nul (s : string) : bool :=
  match s with
  | EmptyString => false
  | String c s' => Ascii.eqb c "000" || has_nul s'
  end.

Definition resolve (cwd : list string) (file_path : string) : option (list string) :=
  if has_nul file_path then None
  else
    match file_path with
    | String "/" _ => Some (rev (walk ["/"] (split "/" file_path)))
    | _ => Some (rev (walk (rev cwd) (split "/" file_path)))
    end.

(** The layout used in the examples below. *)
Definition backend_root : list string := ["/"; "srv"; "prism"; "web"; "backend"].
Definition sandbox_root : list string := backend_root ++ ["sandbox"].
Definition project_root : list string := ["/"; "srv"; "prism"].

(** No absolute path in the command: every [re.findall] is empty. *)
Definition no_paths (_ : PathPattern) (_ : string) : list string := [].

Definition check : string -> ToolInput -> bool * Reason :=
  sandbox_check_tool (resolve project_root) sandbox_root no_paths.

End LexicalFS.

(** ** The rate-limited guard ([examples/safe_sandbox.py]) *)

Module SafeSandbox.

Inductive BlockReason : Type :=
  | PATH_BLACKLIST
  | PATH_NOT_IN_WHITELIST
  | DANGEROUS_COMMAND
  | SENSITIVE_CONTENT
  | RATE_LIMIT
  | EXTENSION_BLOCKED.

(** [BlockReason.value] *)
Definition value (r : BlockReason) : string :=
  match r with
  | PATH_BLACKLIST => "path_in_blacklist"
  | PATH_NOT_IN_WHITELIST => "path_not_in_whitelist"
  | DANGEROUS_COMMAND => "dangerous_command"
  | SENSITIVE_CONTENT => "sensitive_content"
  | RATE_LIMIT => "rate_limit_exceeded"
  | EXTENSION_BLOCKED => "file_extension_blocked"
  end.

(** The rate limits of [SecurityPolicy]; its path, command and content
    lists are read by the three checks below only. *)
Record SecurityPolicy : Type := {
  max_operations_per_minute : Z;
  max_writes_per_minute : Z;
  max_bash_per_minute : Z
}.

Definition default_policy : SecurityPolicy :=
  {| max_operations_per_minute := 60;
     max_writes_per_minute := 20;
     max_bash_per_minute := 10 |}.

Record SecurityGuard : Type := {
  policy : SecurityPolicy;
  _operation_times : list Q;
  _write_times : list Q;
  _bash_times : list Q
}.

(** [SecurityGuard(policy)]: empty windows. *)
Definition new_guard (p : SecurityPolicy) : SecurityGuard :=
  {| policy := p; _operation_times := []; _write_times := []; _bash_times := [] |}.

(** [(allowed, reason, message)] *)
Definition Outcome : Type := bool * option BlockReason * string.

Definition ok : Outcome := (true, None, "").
Definition allowed (o : Outcome) : bool := fst (fst o).
Definition reason (o : Outcome) : option BlockReason := snd (fst o).

(** [a > b] on instants. *)
Definition Qgtb (a b : Q) : bool := negb (Qle_bool a b).

(** [len(times) >= cap] *)
Definition reached (times : list Q) (cap : Z) : bool :=
  (cap <=? Z.of_nat (length times))%Z.

Definition _cleanup_old_times (g : SecurityGuard) (current_time : Q) : SecurityGuard :=
  let cutoff := (current_time - 60)%Q in
  {| policy := policy g;
     _operation_times := List.filter (fun t => Qgtb t cutoff) (_operation_times g);
     _write_times := List.filter (fun t => Qgtb t cutoff) (_write_times g);
     _bash_times := List.filter (fun t => Qgtb t cutoff) (_bash_times g) |}.

Section Guard.

(** The checks on a path, a command and a written content match file
    names and regular expressions; the rate limits do not depend on what
    they answer, so they are taken as they are. *)
Variable _check_path : string -> Outcome.
Variable _check_command : string -> Outcome.
Variable _check_content : string -> Outcome.

(** The loop over [path_fields]: the first refusal. *)
Fixpoint check_path_fields (fields : list string) (tool_input : ToolInput)
  : option Outcome :=
  match fields with
  | [] => None
  | field :: rest =>
      match tool_input !! field with
      | Some path =>
          if allowed (_check_path path) then check_path_fields rest tool_input
          else Some (_check_path path)
      | None => check_path_fields rest tool_input
      end
  end.

(** Appends [current_time] to the windows the operation counts in. *)
Definition record_times (g : SecurityGuard) (tool_name : string) (current_time : Q)
  : SecurityGuard :=
  {| policy := policy g;
     _operation_times := _operation_times g ++ [current_time];
     _write_times :=
       if String.eqb tool_name "Write" then _write_times g ++ [current_time]
       else _write_times g;
     _bash_times :=
       if String.eqb tool_name "Bash" then _bash_times g ++ [current_time]
       else _bash_times g |}.

(** [check_operation], with the clock reading [current_time] passed in;
    the guard it returns is the guard after the call. *)
Definition check_operation (g : SecurityGuard) (tool_name : string)
    (tool_input : ToolInput) (current_time : Q) : SecurityGuard * Outcome :=
  let g := _cleanup_old_times g current_time in
  if reached (_operation_times g) (max_operations_per_minute (policy g)) then
    (g, (false, Some RATE_LIMIT, "Too many operations per minute"))
  else if String.eqb tool_name "Write"
          && reached (_write_times g) (max_writes_per_minute (policy g)) then
    (g, (false, Some RATE_LIMIT, "Too many write operations per minute"))
  else if String.eqb tool_name "Bash"
          && reached (_bash_times g) (max_bash_per_minute (policy g)) then
    (g, (false, Some RATE_LIMIT, "Too many bash operations per minute"))
  else
    match check_path_fields ["file_path"; "path"] tool_input with
    | Some refusal => (g, refusal)
    | None =>
        let command_result :=
          if String.eqb tool_name "Bash"
          then _check_command (get tool_input "command") else ok in
        if negb (allowed command_result) then (g, command_result)
        else
          let content_result :=
            if String.eqb tool_name "Write"
            then _check_content (get tool_input "content") else ok in
          if negb (allowed content_result) then (g, content_result)
          else (record_times g tool_name current_time, ok)
    end.

End Guard.

(** The three windows, and the operations each one counts. *)
Inductive Kind : Type := AllOps | Writes | Shell.

Definition window (k : Kind) (g : SecurityGuard) : list Q :=
  match k with
  | AllOps => _operation_times g
  | Writes => _write_times g
  | Shell => _bash_times g
  end.

Definition cap (k : Kind) (p : SecurityPolicy) : Z :=
  match k with
  | AllOps => max_operations_per_minute p
  | Writes => max_writes_per_minute p
  | Shell => max_bash_per_minute p
  end.

Definition of_kind (k : Kind) (tool_name : string) : Prop :=
  match k with
  | AllOps => True
  | Writes => tool_name = "Write"
  | Shell => tool_name = "Bash"
  end.

(** How many of the recorded instants lie in the 60 seconds before [now]. *)
Fixpoint in_last_minute (now : Q) (times : list Q) : nat :=
  match times with
  | [] => 0
  | t :: rest =>
      if Qlt_le_dec (now - 60) t then S (in_last_minute now rest)
      else in_last_minute now rest
  end.

(** A guard that answers [ok] to every path, command and content. *)
Definition permissive (_ : string) : Outcome := ok.

(** A guard with the default caps on which ten operations, all of them
    shell commands, were recorded at the seconds 100 to 109. *)
Definition busy_guard : SecurityGuard :=
  {| policy := default_policy;
     _operation_times := map inject_Z [100; 101; 102; 103; 104; 105; 106; 107; 108; 109]%Z;
     _write_times := [];
     _bash_times := map inject_Z [100; 101; 102; 103; 104; 105; 106; 107; 108; 109]%Z |}.

(** Successive calls of [check_operation] on one guard, each with its clock
    reading: the guard at the end and the outcomes in order. *)
Fixpoint check_operations (g : SecurityGuard) (calls : list (Q * string * ToolInput))
  : SecurityGuard * list Outcome :=
  match calls with
  | [] => (g, [])
  | (now, tool_name, tool_input) :: rest =>
      let r := check_operation permissive permissive permissive g tool_name tool_input now in
      let rs := check_operations (fst r) rest in
      (fst rs, snd r :: snd rs)
  end.

(** [n] calls of one tool, one second apart, from the instant [start]. *)
Definition every_second (start : Z) (n : nat) (tool_name : string)
  : list (Q * string * ToolInput) :=
  map (fun i => (inject_Z (start + Z.of_nat i), tool_name, (∅ : ToolInput))) (seq 0 n).

End SafeSandbox.

(** ** Streamed text and its sanitizer *)

Abbreviation Text := (list N).

(** The Unicode replacement character. *)
Definition REPLACEMENT_CHAR : N := 65533.

(** A byte string as code points. *)
Definition text_of (s : string) : Text := map N_of_ascii (list_ascii_of_string s).

(** [re.sub(r'\ufffd{1,4}', '', text)].  The scan goes from left to right;
    a match is a run of 1 to 4 replacement characters, as long as it can
    be, and the next match starts where the last one ended.  [run] is the
    length of the match being read (0 outside a match): a replacement
    character extends that match while it has fewer than 4 characters and
    starts a new match otherwise; every match is replaced by the empty
    string, and any other character is copied. *)
Fixpoint re_sub_replacement (run : nat) (text : Text) : Text :=
  match text with
  | [] => []
  | c :: rest =>
      if (c =? REPLACEMENT_CHAR)%N
      then re_sub_replacement (if (run <? 4)%nat then S run else 1%nat) rest
      else c :: re_sub_replacement 0 rest
  end.

(** The lengths of the matches of that scan, in order. *)
Fixpoint match_lengths (run : nat) (text : Text) : list nat :=
  match text with
  | [] => if (0 <? run)%nat then [run] else []
  | c :: rest =>
      if (c =? REPLACEMENT_CHAR)%N
      then if (run <? 4)%nat then match_lengths (S run) rest
           else run :: match_lengths 1 rest
      else if (0 <? run)%nat then run :: match_lengths 0 rest
           else match_lengths 0 rest
  end.

Definition sanitize_utf8_text (text : Text) : Text :=
  match text with
  | [] => text
  | _ =>
      if negb (existsb (N.eqb REPLACEMENT_CHAR) text) then text
      else re_sub_replacement 0 text
  end.

(** ** Retry configuration *)

Definition MAX_RETRIES : nat := 3.
Definition INITIAL_RETRY_DELAY : Z := 1.
Definition MAX_RETRY_DELAY : Z := 10.

(** Exceptions, by class: the built-in classes the code names, a class
    that derives from none of them, and a class declared with base
    classes, as in [class name(base, ...)]. *)
#[warnings="-register-all"]
Inductive Exn : Type :=
  | ConnectionError
  | TimeoutError
  | OSError
  | RuntimeError
  | OtherException (name : string)
  | Subclass (name : string) (bases : list Exn).

(** [except RETRYABLE_ERRORS], that is [isinstance(e, (ConnectionError,
    TimeoutError, OSError))]: the class of the exception is one of the
    three, or one of its bases is, at any depth. *)
Fixpoint retryable (e : Exn) : bool :=
  match e with
  | ConnectionError | TimeoutError | OSError => true
  | RuntimeError | OtherException _ => false
  | Subclass _ bases => existsb retryable bases
  end.

(** [min(INITIAL_RETRY_DELAY * (2 ** (retry_count - 1)), MAX_RETRY_DELAY)],
    in seconds. *)
Definition retry_delay (retry_count : nat) : Z :=
  Z.min (INITIAL_RETRY_DELAY * 2 ^ (Z.of_nat retry_count - 1)) MAX_RETRY_DELAY.

(** The text of the retry notice: a line break, an opening bracket, four
    CJK characters and a space, [retry_count/MAX_RETRIES], a full-width
    comma, two CJK characters and a space, the delay with one decimal,
    [s...], a closing bracket and a line break. *)
Definition retry_notice (retry_count : nat) (delay : Z) : Text :=
  [10; 91; 36830; 25509; 37325; 35797; 32]%N
  ++ text_of (PyStr.of_nat retry_count) ++ [47]%N ++ text_of (PyStr.of_nat MAX_RETRIES)
  ++ [65292; 31561; 24453; 32]%N
  ++ text_of (PyStr.of_nat (Z.to_nat delay)) ++ text_of ".0"
  ++ text_of "s...]" ++ [10]%N.

(** ** Trace logger *)

Record Stats : Type := {
  tool_calls : nat;
  iterations : nat;
  sub_agents : nat;
  errors : nat;
  hooks_triggered : nat;
  sandbox_blocks : nat;
  thinking_blocks : nat;
  thinking_chars : nat
}.

Definition zero_stats : Stats :=
  {| tool_calls := 0; iterations := 0; sub_agents := 0; errors := 0;
     hooks_triggered := 0; sandbox_blocks := 0; thinking_blocks := 0;
     thinking_chars := 0 |}.

(** A logged event: its type and the part of its data that the logger or
    the properties below read. *)
Inductive TraceEvent : Type :=
  | ev_request
  | ev_config
  | ev_raw_message
  | ev_text_delta (delta : Text)
  | ev_thinking (thinking : Text)
  | ev_tool_start (tool_id name : string) (iteration : nat)
  | ev_tool_result (tool_id tool_name status : string)
  | ev_usage (input_tokens output_tokens : Z)
  | ev_complete (tools_used : list string)
  | ev_error (e : Exn)
  | ev_retry (attempt : nat) (delay_seconds : Z) (e : Exn)
  | ev_agent_complete (agent_id : string) (new_depth : nat)
  | ev_sandbox_block (tool_name : string) (reason : Reason)
  | ev_hook_pre_tool (tool_name : string)
  | ev_hook_post_tool (tool_name : string)
  | ev_hook_keep_stream.

Record TraceLogger : Type := {
  status : string;                      (* metadata["status"] *)
  error : option Exn;                   (* metadata["error"] *)
  stats_in_metadata : bool;             (* "stats" in metadata *)
  events : list TraceEvent;
  stats : Stats
}.

(** [TraceLogger(trace_id)] *)
Definition new_tracer : TraceLogger :=
  {| status := "running"; error := None; stats_in_metadata := false;
     events := []; stats := zero_stats |}.

(** [metadata["stats"]]: once set, it is the dictionary [stats] itself,
    so it shows what is logged afterwards too. *)
Definition metadata_stats (t : TraceLogger) : option Stats :=
  if stats_in_metadata t then Some (stats t) else None.

Definition update_stats (s : Stats) (ev : TraceEvent) : Stats :=
  match ev with
  | ev_tool_start _ name iteration =>
      {| tool_calls := S (tool_calls s);
         iterations := if (iterations s <? iteration)%nat then iteration else iterations s;
         sub_agents := if String.eqb name "Task" then S (sub_agents s) else sub_agents s;
         errors := errors s; hooks_triggered := hooks_triggered s;
         sandbox_blocks := sandbox_blocks s; thinking_blocks := thinking_blocks s;
         thinking_chars := thinking_chars s |}
  | ev_error _ =>
      {| tool_calls := tool_calls s; iterations := iterations s;
         sub_agents := sub_agents s; errors := S (errors s);
         hooks_triggered := hooks_triggered s; sandbox_blocks := sandbox_blocks s;
         thinking_blocks := thinking_blocks s; thinking_chars := thinking_chars s |}
  | ev_sandbox_block _ _ =>
      {| tool_calls := tool_calls s; iterations := iterations s;
         sub_agents := sub_agents s; errors := errors s;
         hooks_triggered := hooks_triggered s; sandbox_blocks := S (sandbox_blocks s);
         thinking_blocks := thinking_blocks s; thinking_chars := thinking_chars s |}
  | ev_hook_pre_tool _ | ev_hook_post_tool _ =>
      {| tool_calls := tool_calls s; iterations := iterations s;
         sub_agents := sub_agents s; errors := errors s;
         hooks_triggered := S (hooks_triggered s); sandbox_blocks := sandbox_blocks s;
         thinking_blocks := thinking_blocks s; thinking_chars := thinking_chars s |}
  | ev_thinking thinking =>
      {| tool_calls := tool_calls s; iterations := iterations s;
         sub_agents := sub_agents s; errors := errors s;
         hooks_triggered := hooks_triggered s; sandbox_blocks := sandbox_blocks s;
         thinking_blocks := S (thinking_blocks s);
         thinking_chars := thinking_chars s + length thinking |}
  | _ => s
  end.

(** [tracer.log(event_type, data)] *)
Definition log (t : TraceLogger) (ev : TraceEvent) : TraceLogger :=
  {| status := status t; error := error t; stats_in_metadata := stats_in_metadata t;
     events := events t ++ [ev]; stats := update_stats (stats t) ev |}.

(** [tracer.log_error(e)] *)
Definition log_error (t : TraceLogger) (e : Exn) : TraceLogger :=
  log {| status := "error"; error := Some e; stats_in_metadata := stats_in_metadata t;
         events := events t; stats := stats t |}
      (ev_error e).

(** [tracer.complete()] *)
Definition complete (t : TraceLogger) : TraceLogger :=
  {| status := "completed"; error := error t; stats_in_metadata := true;
     events := events t; stats := stats t |}.

(** ** Event translator ([process_agent_stream])

    The hooks are called by the runtime while the turn waits for its next
    message, so each inbound message comes with the hook calls made
    before it.  The calls of the turn to the metrics collector read the
    clock and change no variable of the turn; they are not part of its
    state. *)

Definition MAX_TURNS : Z := 30.

(** Outbound SSE frames, by event type, with the fields of the payload
    that the properties below read. *)
Inductive Frame : Type :=
  | SESSION_CONFIG (max_turns : Z)
  | TEXT_DELTA (text : Text)
  | THINKING_DELTA (thinking : Text)
  | TOOL_START (tool_id name : string) (iteration : nat)
  | TOOL_RESULT (tool_id status : string)
  | AGENT_SPAWN (agent_id agent_type description : string) (iteration depth : nat)
  | AGENT_COMPLETE (agent_id : string)
  | HOOK_PRE_TOOL (tool_name action : string)
  | HOOK_POST_TOOL (tool_name : string)
  | COST_UPDATE (input_tokens output_tokens context_used : Z)
  | MESSAGE_COMPLETE (tools_used : list string) (total_tokens : Z)
      (stop_reason : option string)
  | ERROR (details : Exn).

(** Content blocks of an inbound message. *)
Inductive Block : Type :=
  | ThinkingBlock (thinking : Text)
  | TextBlock (text : Text)
  | ToolUseBlock (id name : string) (input : ToolInput)
  | ToolResultBlock (tool_use_id : string) (content : option string) (is_error : bool)
  | OtherBlock.

Record Usage : Type := { input_tokens : Z; output_tokens : Z }.

(** Inbound messages.  [ContentMessage] is a message whose [content] is a
    list (its subtype is neither [init] nor [success]); [group_id] is the
    identifier that [uuid.uuid4()] would give while it is handled. *)
Inductive Message : Type :=
  | InitMessage
  | SuccessMessage (result : option Text) (usage : option Usage)
      (is_error : bool) (num_turns : Z)
  | ContentMessage (group_id : string) (content : list Block)
  | OtherMessage.

(** Entries of the per-request hook queue. *)
Inductive HookEvent : Type :=
  | pre_tool (tool_name action : string)
  | post_tool (tool_name : string)
  | html_created (tool_name filename : string).

(** Invocations of the hooks by the runtime. *)
Inductive HookCall : Type :=
  | PreToolUse (tool_name : string) (tool_input : ToolInput) (tool_use_id : option string)
  | PostToolUse (tool_name : string) (has_result : bool) (tool_use_id : option string).

Record ToolInfo : Type := {
  name : string;
  input : ToolInput;
  tool_status : string;
  iteration : nat;
  parallel_group : option string;
  is_parallel : bool
}.

(** The local variables of one turn, the objects shared with the hooks
    (queue, pending files, tracer), and what has been yielded and slept so
    far.  Each yielded frame is kept with the trace status at that
    moment. *)
Record State : Type := {
  current_text : Text;
  tools_used : list string;
  total_input_tokens : Z;
  total_output_tokens : Z;
  tool_states : gmap string ToolInfo;
  current_iteration : nat;
  current_depth : nat;
  stop_reason : option string;
  hook_events_queue : list HookEvent;
  pending_html_files : gmap string string;
  tracer : TraceLogger;
  yielded : list (Frame * string);
  slept : list Z
}.

Definition initial_state : State :=
  {| current_text := []; tools_used := []; total_input_tokens := 0;
     total_output_tokens := 0; tool_states := ∅; current_iteration := 0;
     current_depth := 0; stop_reason := None; hook_events_queue := [];
     pending_html_files := ∅; tracer := new_tracer; yielded := []; slept := [] |}.

Definition set_current_text (v : Text) (s : State) : State :=
  {| current_text := v; tools_used := tools_used s;
     total_input_tokens := total_input_tokens s;
     total_output_tokens := total_output_tokens s; tool_states := tool_states s;
     current_iteration := current_iteration s; current_depth := current_depth s;
     stop_reason := stop_reason s; hook_events_queue := hook_events_queue s;
     pending_html_files := pending_html_files s; tracer := tracer s;
     yielded := yielded s; slept := slept s |}.

Definition set_tools_used (v : list string) (s : State) : State :=
  {| current_text := current_text s; tools_used := v;
     total_input_tokens := total_input_tokens s;
     total_output_tokens := total_output_tokens s; tool_states := tool_states s;
     current_iteration := current_iteration s; current_depth := current_depth s;
     stop_reason := stop_reason s; hook_events_queue := hook_events_queue s;
     pending_html_files := pending_html_files s; tracer := tracer s;
     yielded := yielded s; slept := slept s |}.

Definition set_tokens (i o : Z) (s : State) : State :=
  {| current_text := current_text s; tools_used := tools_used s;
     total_input_tokens := i; total_output_tokens := o;
     tool_states := tool_states s;
     current_iteration := current_iteration s; current_depth := current_depth s;
     stop_reason := stop_reason s; hook_events_queue := hook_events_queue s;
     pending_html_files := pending_html_files s; tracer := tracer s;
     yielded := yielded s; slept := slept s |}.

Definition set_tool_states (v : gmap string ToolInfo) (s : State) : State :=
  {| current_text := current_text s; tools_used := tools_used s;
     total_input_tokens := total_input_tokens s;
     total_output_tokens := total_output_tokens s; tool_states := v;
     current_iteration := current_iteration s; current_depth := current_depth s;
     stop_reason := stop_reason s; hook_events_queue := hook_events_queue s;
     pending_html_files := pending_html_files s; tracer := tracer s;
     yielded := yielded s; slept := slept s |}.

Definition set_current_iteration (v : nat) (s : State) : State :=
  {| current_text := current_text s; tools_used := tools_used s;
     total_input_tokens := total_input_tokens s;
     total_output_tokens := total_output_tokens s; tool_states := tool_states s;
     current_iteration := v; current_depth := current_depth s;
     stop_reason := stop_reason s; hook_events_queue := hook_events_queue s;
     pending_html_files := pending_html_files s; tracer := tracer s;
     yielded := yielded s; slept := slept s |}.

Definition set_current_depth (v : nat) (s : State) : State :=
  {| current_text := current_text s; tools_used := tools_used s;
     total_input_tokens := total_input_tokens s;
     total_output_tokens := total_output_tokens s; tool_states := tool_states s;
     current_iteration := current_iteration s; current_depth := v;
     stop_reason := stop_reason s; hook_events_queue := hook_events_queue s;
     pending_html_files := pending_html_files s; tracer := tracer s;
     yielded := yielded s; slept := slept s |}.

Definition set_stop_reason (v : option string) (s : State) : State :=
  {| current_text := current_text s; tools_used := tools_used s;
     total_input_tokens := total_input_tokens s;
     total_output_tokens := total_output_tokens s; tool_states := tool_states s;
     current_iteration := current_iteration s; current_depth := current_depth s;
     stop_reason := v; hook_events_queue := hook_events_queue s;
     pending_html_files := pending_html_files s; tracer := tracer s;
     yielded := yielded s; slept := slept s |}.

Definition set_hook_events_queue (v : list HookEvent) (s : State) : State :=
  {| current_text := current_text s; tools_used := tools_used s;
     total_input_tokens := total_input_tokens s;
     total_output_tokens := total_output_tokens s; tool_states := tool_states s;
     current_iteration := current_iteration s; current_depth := current_depth s;
     stop_reason := stop_reason s; hook_events_queue := v;
     pending_html_files := pending_html_files s; tracer := tracer s;
     yielded := yielded s; slept := slept s |}.

Definition set_pending_html_files (v : gmap string string) (s : State) : State :=
  {| current_text := current_text s; tools_used := tools_used s;
     total_input_tokens := total_input_tokens s;
     total_output_tokens := total_output_tokens s; tool_states := tool_states s;
     current_iteration := current_iteration s; current_depth := current_depth s;
     stop_reason := stop_reason s; hook_events_queue := hook_events_queue s;
     pending_html_files := v; tracer := tracer s;
     yielded := yielded s; slept := slept s |}.

Definition set_tracer (v : TraceLogger) (s : State) : State :=
  {| current_text := current_text s; tools_used := tools_used s;
     total_input_tokens := total_input_tokens s;
     total_output_tokens := total_output_tokens s; tool_states := tool_states s;
     current_iteration := current_iteration s; current_depth := current_depth s;
     stop_reason := stop_reason s; hook_events_queue := hook_events_queue s;
     pending_html_files := pending_html_files s; tracer := v;
     yielded := yielded s; slept := slept s |}.

Definition set_yielded (v : list (Frame * string)) (s : State) : State :=
  {| current_text := current_text s; tools_used := tools_used s;
     total_input_tokens := total_input_tokens s;
     total_output_tokens := total_output_tokens s; tool_states := tool_states s;
     current_iteration := current_iteration s; current_depth := current_depth s;
     stop_reason := stop_reason s; hook_events_queue := hook_events_queue s;
     pending_html_files := pending_html_files s; tracer := tracer s;
     yielded := v; slept := slept s |}.

Definition set_slept (v : list Z) (s : State) : State :=
  {| current_text := current_text s; tools_used := tools_used s;
     total_input_tokens := total_input_tokens s;
     total_output_tokens := total_output_tokens s; tool_states := tool_states s;
     current_iteration := current_iteration s; current_depth := current_depth s;
     stop_reason := stop_reason s; hook_events_queue := hook_events_queue s;
     pending_html_files := pending_html_files s; tracer := tracer s;
     yielded := yielded s; slept := v |}.

(** [yield format_sse(...)] *)
Definition emit (f : Frame) (s : State) : State :=
  set_yielded (yielded s ++ [(f, status (tracer s))]) s.

(** [tracer.log(...)] from inside the turn. *)
Definition trace (ev : TraceEvent) (s : State) : State :=
  set_tracer (log (tracer s) ev) s.

(** [await asyncio.sleep(delay)] *)
Definition sleep (delay : Z) (s : State) : State :=
  set_slept (slept s ++ [delay]) s.

(** The frames of a run, in the order they were yielded. *)
Definition frames (s : State) : list Frame := map fst (yielded s).

Definition status_value (is_error : bool) : string :=
  if is_error then "error" else "completed".

(** [s.endswith(suffix)] *)
Definition endswith (s suffix : string) : bool :=
  (String.length suffix <=? String.length s)%nat &&
  String.eqb
    (substring (String.length s - String.length suffix) (String.length suffix) s)
    suffix.

(** [if tool_use_id:] *)
Definition truthy_id (tool_use_id : option string) : bool :=
  match tool_use_id with
  | Some tid => PyStr.truthy tid
  | None => false
  end.

Section Translator.

Variable resolve : string -> option (list string).
Variable SANDBOX_ROOT : list string.
Variable re_findall : PathPattern -> string -> list string.

(** [keep_stream_open_hook], then [pre_tool_hook]. *)
Definition pre_tool_hook (tool_name : string) (tool_input : ToolInput)
    (tool_use_id : option string) (s : State) : State :=
  let s := trace ev_hook_keep_stream s in
  let verdict := sandbox_check_tool resolve SANDBOX_ROOT re_findall tool_name tool_input in
  if negb (fst verdict) then
    let s := trace (ev_sandbox_block tool_name (snd verdict)) s in
    set_hook_events_queue (hook_events_queue s ++ [pre_tool tool_name "block"]) s
  else
    let s := trace (ev_hook_pre_tool tool_name) s in
    let s :=
      match tool_use_id with
      | Some tid =>
          if String.eqb tool_name "Write" && PyStr.truthy tid
             && endswith (PyStr.lower (get tool_input "file_path")) ".html"
          then set_pending_html_files
                 (<[tid := get tool_input "file_path"]> (pending_html_files s)) s
          else s
      | None => s
      end in
    set_hook_events_queue (hook_events_queue s ++ [pre_tool tool_name "allow"]) s.

Definition post_tool_hook (tool_name : string) (has_result : bool)
    (tool_use_id : option string) (s : State) : State :=
  let s := trace (ev_hook_post_tool tool_name) s in
  let s :=
    match tool_use_id with
    | Some tid =>
        if String.eqb tool_name "Write" && PyStr.truthy tid then
          match pending_html_files s !! tid with
          | Some file_path =>
              let s :=
                if has_result
                then set_hook_events_queue
                       (hook_events_queue s
                        ++ [html_created tool_name (PyStr.last_segment "/" file_path)]) s
                else s in
              set_pending_html_files (delete tid (pending_html_files s)) s
          | None => s
          end
        else s
    | None => s
    end in
  set_hook_events_queue (hook_events_queue s ++ [post_tool tool_name]) s.

Definition run_hook (call : HookCall) (s : State) : State :=
  match call with
  | PreToolUse tool_name tool_input tool_use_id =>
      pre_tool_hook tool_name tool_input tool_use_id s
  | PostToolUse tool_name has_result tool_use_id =>
      post_tool_hook tool_name has_result tool_use_id s
  end.

(** [while hook_events_queue: hook_event = hook_events_queue.pop(0) ...] *)
Fixpoint drain (queue : list HookEvent) (s : State) : State :=
  match queue with
  | [] => set_hook_events_queue [] s
  | hook_event :: rest =>
      let s :=
        match hook_event with
        | pre_tool tool_name action => emit (HOOK_PRE_TOOL tool_name action) s
        | post_tool tool_name => emit (HOOK_POST_TOOL tool_name) s
        | html_created _ _ => s
        end in
      drain rest s
  end.

(** [if not tool_states or current_text:] *)
Definition new_iteration (s : State) : bool :=
  bool_decide (tool_states s = ∅) || negb (bool_decide (current_text s = [])).

Definition on_thinking (thinking : Text) (s : State) : State :=
  match thinking with
  | [] => s
  | _ =>
      let thinking_text := sanitize_utf8_text thinking in
      match thinking_text with
      | [] => s
      | _ => emit (THINKING_DELTA thinking_text) (trace (ev_thinking thinking_text) s)
      end
  end.

(** The text branch, also used for the [result] of the completion. *)
Definition on_text (text : Text) (s : State) : State :=
  if negb (bool_decide (text = [])) && negb (bool_decide (text = current_text s)) then
    let delta := sanitize_utf8_text (drop (length (current_text s)) text) in
    match delta with
    | [] => s
    | _ => emit (TEXT_DELTA delta) (trace (ev_text_delta delta) (set_current_text text s))
    end
  else s.

Definition on_tool_use (parallel_group_id : option string) (is_parallel_batch : bool)
    (tool_id tool_name : string) (tool_input : ToolInput) (s : State) : State :=
  let s :=
    if new_iteration s
    then set_current_text [] (set_current_iteration (S (current_iteration s)) s)
    else s in
  let s :=
    set_tool_states
      (<[tool_id := {| name := tool_name; input := tool_input;
                       tool_status := "running";
                       iteration := current_iteration s;
                       parallel_group := parallel_group_id;
                       is_parallel := is_parallel_batch |}]> (tool_states s)) s in
  let s := set_tools_used (tools_used s ++ [tool_name]) s in
  let s := trace (ev_tool_start tool_id tool_name (current_iteration s)) s in
  if String.eqb tool_name "Task" then
    let s := set_current_depth (S (current_depth s)) s in
    emit (AGENT_SPAWN tool_id
            (default "unknown" (tool_input !! "subagent_type"))
            (get tool_input "description")
            (current_iteration s) (current_depth s)) s
  else
    let s := drain (hook_events_queue s) s in
    emit (TOOL_START tool_id tool_name (current_iteration s)) s.

Definition on_tool_result (tool_id : string) (is_error : bool) (s : State) : State :=
  let tool_name :=
    match tool_states s !! tool_id with
    | Some tool_info => name tool_info
    | None => ""
    end in
  let s := trace (ev_tool_result tool_id tool_name (status_value is_error)) s in
  let s := emit (TOOL_RESULT tool_id (status_value is_error)) s in
  if String.eqb tool_name "Task" && (0 <? current_depth s)%nat then
    let s := emit (AGENT_COMPLETE tool_id) s in
    let s := set_current_depth (current_depth s - 1) s in
    trace (ev_agent_complete tool_id (current_depth s)) s
  else s.

Definition is_tool_use (b : Block) : bool :=
  match b with ToolUseBlock _ _ _ => true | _ => false end.

Definition on_block (parallel_group_id : option string) (is_parallel_batch : bool)
    (s : State) (block : Block) : State :=
  match block with
  | ThinkingBlock thinking => on_thinking thinking s
  | TextBlock text => on_text text s
  | ToolUseBlock tool_id tool_name tool_input =>
      on_tool_use parallel_group_id is_parallel_batch tool_id tool_name tool_input s
  | ToolResultBlock tool_id _ is_error => on_tool_result tool_id is_error s
  | OtherBlock => s
  end.

(** The inference of the stop reason. *)
Definition infer_stop_reason (is_error : bool) (num_turns : Z) : string :=
  if is_error then "error"
  else if (MAX_TURNS <=? num_turns)%Z then "max_turns"
  else "end_turn".

Definition on_success (result : option Text) (usage : option Usage)
    (is_error : bool) (num_turns : Z) (s : State) : State :=
  let s := set_stop_reason (Some (infer_stop_reason is_error num_turns)) s in
  let s := match result with Some result_text => on_text result_text s | None => s end in
  match usage with
  | Some u =>
      let s := set_tokens (input_tokens u) (output_tokens u) s in
      let s := trace (ev_usage (input_tokens u) (output_tokens u)) s in
      emit (COST_UPDATE (input_tokens u) (output_tokens u)
              (input_tokens u + output_tokens u)) s
  | None => s
  end.

(** The body of [async for msg in stream]. *)
Definition on_message (s : State) (msg : Message) : State :=
  let s := trace ev_raw_message s in
  match msg with
  | InitMessage => s
  | SuccessMessage result usage is_error num_turns =>
      on_success result usage is_error num_turns s
  | ContentMessage group_id content =>
      let tool_blocks := List.filter is_tool_use content in
      let is_parallel_batch := (1 <? length tool_blocks)%nat in
      let parallel_group_id := if is_parallel_batch then Some group_id else None in
      fold_left (on_block parallel_group_id is_parallel_batch) content s
  | OtherMessage => s
  end.

(** The hooks called while the turn waits for a message, then the
    message. *)
Definition on_inbound (s : State) (item : list HookCall * Message) : State :=
  on_message (fold_left (fun s call => run_hook call s) (fst item) s) (snd item).

(** The retry loop around [query(...)].  [failures] are the exceptions
    of the successive calls that fail; the call after them succeeds.  The
    result is the state and the exception that leaves the loop, if
    any. *)
Fixpoint open_stream (retry_count : nat) (last_error : option Exn)
    (failures : list Exn) (s : State) : State * option Exn :=
  if negb (retry_count <=? MAX_RETRIES)%nat then
    (s, Some (default RuntimeError last_error))
  else
    match failures with
    | [] => (s, None)
    | e :: rest =>
        if retryable e then
          let retry_count := S retry_count in
          if (retry_count <=? MAX_RETRIES)%nat then
            let delay := retry_delay retry_count in
            let s := trace (ev_retry retry_count delay e) s in
            let s := emit (TEXT_DELTA (retry_notice retry_count delay)) s in
            let s := sleep delay s in
            open_stream retry_count (Some e) rest s
          else (s, Some e)
        else (s, Some e)
    end.

(** [except Exception as e:] *)
Definition on_exception (e : Exn) (s : State) : State :=
  emit (ERROR e) (set_tracer (log_error (tracer s) e) s).

(** The end of the [try] block. *)
Definition on_stream_end (s : State) : State :=
  let s := trace (ev_complete (remove_dups (tools_used s))) s in
  let s := set_tracer (complete (tracer s)) s in
  emit (MESSAGE_COMPLETE (remove_dups (tools_used s))
          (total_input_tokens s + total_output_tokens s) (stop_reason s)) s.

(** One turn.  [failures] are the failed attempts to open the stream,
    [inbound] the messages it delivers, [stream_error] the exception
    that ends it, if one does. *)
Definition process_agent_stream (failures : list Exn)
    (inbound : list (list HookCall * Message)) (stream_error : option Exn) : State :=
  let s := trace ev_request initial_state in
  let s := emit (SESSION_CONFIG MAX_TURNS) s in
  let s := trace ev_config s in
  match open_stream 0 None failures s with
  | (s, Some e) => on_exception e s
  | (s, None) =>
      let s := fold_left on_inbound inbound s in
      match stream_error with
      | Some e => on_exception e s
      | None => on_stream_end s
      end
  end.

End Translator.

(** ** Metrics collector *)

Module Metrics.

Open Scope Q_scope.

(** The collector.  Durations are in milliseconds; [_tool_calls] and
    [_errors] are dictionaries in insertion order. *)
Record MetricsCollector : Type := {
  total : Z;                          (* _requests["total"] *)
  success : Z;                        (* _requests["success"] *)
  error : Z;                          (* _requests["error"] *)
  _latencies : list Q;
  _ttft : list Q;
  total_input : Z;                    (* _tokens["total_input"] *)
  total_output : Z;                   (* _tokens["total_output"] *)
  _tool_calls : list (string * Z);
  _errors : list (string * Z);
  _start_time : Q                     (* seconds *)
}.

(** [reset()] at the instant [now]. *)
Definition reset (now : Q) : MetricsCollector :=
  {| total := 0; success := 0; error := 0; _latencies := []; _ttft := [];
     total_input := 0; total_output := 0; _tool_calls := []; _errors := [];
     _start_time := now |}.

(** [d[key] = d.get(key, 0) + 1] *)
Fixpoint bump (key : string) (d : list (string * Z)) : list (string * Z) :=
  match d with
  | [] => [(key, 1%Z)]
  | (k, v) :: rest =>
      if String.eqb k key then (k, (v + 1)%Z) :: rest else (k, v) :: bump key rest
  end.

(** [record_request_start()]: the collector afterwards and the stamp it
    returns, [now_ms] being the clock in milliseconds. *)
Definition record_request_start (m : MetricsCollector) (now_ms : Q)
  : MetricsCollector * Q :=
  ({| total := total m + 1; success := success m; error := error m;
      _latencies := _latencies m; _ttft := _ttft m;
      total_input := total_input m; total_output := total_output m;
      _tool_calls := _tool_calls m; _errors := _errors m;
      _start_time := _start_time m |}, now_ms).

Definition record_first_token (m : MetricsCollector) (start_time now_ms : Q)
  : MetricsCollector :=
  {| total := total m; success := success m; error := error m;
     _latencies := _latencies m; _ttft := _ttft m ++ [now_ms - start_time];
     total_input := total_input m; total_output := total_output m;
     _tool_calls := _tool_calls m; _errors := _errors m;
     _start_time := _start_time m |}.

Definition record_request_complete (m : MetricsCollector) (start_time now_ms : Q)
    (ok : bool) : MetricsCollector :=
  {| total := total m;
     success := if ok then (success m + 1)%Z else success m;
     error := if ok then error m else (error m + 1)%Z;
     _latencies := _latencies m ++ [now_ms - start_time]; _ttft := _ttft m;
     total_input := total_input m; total_output := total_output m;
     _tool_calls := _tool_calls m; _errors := _errors m;
     _start_time := _start_time m |}.

Definition record_tokens (m : MetricsCollector) (input_tokens output_tokens : Z)
  : MetricsCollector :=
  {| total := total m; success := success m; error := error m;
     _latencies := _latencies m; _ttft := _ttft m;
     total_input := (total_input m + input_tokens)%Z;
     total_output := (total_output m + output_tokens)%Z;
     _tool_calls := _tool_calls m; _errors := _errors m;
     _start_time := _start_time m |}.

Definition record_tool_call (m : MetricsCollector) (tool_name : string)
  : MetricsCollector :=
  {| total := total m; success := success m; error := error m;
     _latencies := _latencies m; _ttft := _ttft m;
     total_input := total_input m; total_output := total_output m;
     _tool_calls := bump tool_name (_tool_calls m); _errors := _errors m;
     _start_time := _start_time m |}.

Definition record_error (m : MetricsCollector) (error_type : string)
  : MetricsCollector :=
  {| total := total m; success := success m; error := error m;
     _latencies := _latencies m; _ttft := _ttft m;
     total_input := total_input m; total_output := total_output m;
     _tool_calls := _tool_calls m; _errors := bump error_type (_errors m);
     _start_time := _start_time m |}.

(** [sorted(data)] *)
Fixpoint insert_sorted (x : Q) (l : list Q) : list Q :=
  match l with
  | [] => [x]
  | y :: rest => if Qle_bool x y then x :: l else y :: insert_sorted x rest
  end.

Definition sorted (data : list Q) : list Q := fold_right insert_sorted [] data.

(** [sum(data)], [min(data)], [max(data)] on a list with head [x]. *)
Definition sum (data : list Q) : Q := fold_left Qplus data 0.
Definition minimum (x : Q) (rest : list Q) : Q :=
  fold_left (fun a b => if Qle_bool b a then b else a) rest x.
Definition maximum (x : Q) (rest : list Q) : Q :=
  fold_left (fun a b => if Qle_bool a b then b else a) rest x.

(** [round(v, 2)]: to the nearest hundredth, ties to the even one; the
    rounding error of the binary representation is not modelled. *)
Definition round2 (v : Q) : Q :=
  let scaled := v * 100 in
  let low := Qfloor scaled in
  let rest := scaled - inject_Z low in
  let n :=
    match rest ?= 1 # 2 with
    | Lt => low
    | Gt => (low + 1)%Z
    | Eq => if Z.even low then low else (low + 1)%Z
    end in
  Qred (inject_Z n / 100).

Definition _percentile (data : list Q) (p : Q) : Q :=
  match data with
  | [] => 0
  | _ =>
      let sorted_data := sorted data in
      let k := inject_Z (Z.of_nat (length sorted_data) - 1) * p / 100 in
      let f := Z.to_nat (Qfloor k) in
      let c := if (f + 1 <? length sorted_data)%nat then (f + 1)%nat else f in
      nth f sorted_data 0
      + (nth c sorted_data 0 - nth f sorted_data 0) * (k - inject_Z (Z.of_nat f))
  end.

Definition average (data : list Q) : Q :=
  match data with
  | [] => 0
  | _ => sum data / inject_Z (Z.of_nat (length data))
  end.

Definition lowest (data : list Q) : Q :=
  match data with [] => 0 | x :: rest => minimum x rest end.

Definition highest (data : list Q) : Q :=
  match data with [] => 0 | x :: rest => maximum x rest end.

Record LatencyStats : Type := {
  avg : Q; min : Q; max : Q; p50 : Q; p95 : Q; p99 : Q
}.

Record TtftStats : Type := {
  ttft_avg : Q; ttft_min : Q; ttft_max : Q; ttft_p50 : Q; ttft_p95 : Q
}.

Record Snapshot : Type := {
  uptime_seconds : Q;
  requests_total : Z;
  requests_success : Z;
  requests_error : Z;
  success_rate : Q;
  latency_ms : LatencyStats;
  ttft_ms : TtftStats;
  tokens_total_input : Z;
  tokens_total_output : Z;
  throughput_per_second : Q;
  tool_calls : list (string * Z);
  errors : list (string * Z)
}.

(** [sorted(items, key=lambda x: x[1], reverse=True)]: by count, largest
    first, equal counts in their first order. *)
Fixpoint insert_by_count (x : string * Z) (l : list (string * Z)) : list (string * Z) :=
  match l with
  | [] => [x]
  | y :: rest =>
      if (snd y <? snd x)%Z then x :: l else y :: insert_by_count x rest
  end.

Definition by_count (items : list (string * Z)) : list (string * Z) :=
  fold_left (fun acc x => insert_by_count x acc) items [].

(** [get_metrics()] at the instant [now]. *)
Definition get_metrics (m : MetricsCollector) (now : Q) : Snapshot :=
  let uptime := now - _start_time m in
  let total_tokens := (total_input m + total_output m)%Z in
  let throughput :=
    if Qlt_le_dec 0 uptime then inject_Z total_tokens / uptime else 0 in
  let rate :=
    if (0 <? total m)%Z
    then inject_Z (success m) / inject_Z (total m) * 100 else 100 in
  {| uptime_seconds := round2 uptime;
     requests_total := total m;
     requests_success := success m;
     requests_error := error m;
     success_rate := round2 rate;
     latency_ms :=
       {| avg := round2 (average (_latencies m));
          min := round2 (lowest (_latencies m));
          max := round2 (highest (_latencies m));
          p50 := round2 (_percentile (_latencies m) 50);
          p95 := round2 (_percentile (_latencies m) 95);
          p99 := round2 (_percentile (_latencies m) 99) |};
     ttft_ms :=
       {| ttft_avg := round2 (average (_ttft m));
          ttft_min := round2 (lowest (_ttft m));
          ttft_max := round2 (highest (_ttft m));
          ttft_p50 := round2 (_percentile (_ttft m) 50);
          ttft_p95 := round2 (_percentile (_ttft m) 95) |};
     tokens_total_input := total_input m;
     tokens_total_output := total_output m;
     throughput_per_second := round2 throughput;
     tool_calls := take 10 (by_count (_tool_calls m));
     errors := _errors m |}.

(** The operations of the collector, for runs of several of them. *)
Inductive Op : Type :=
  | op_reset (now : Q)
  | op_request_start (now_ms : Q)
  | op_first_token (start_time now_ms : Q)
  | op_request_complete (start_time now_ms : Q) (ok : bool)
  | op_tokens (input_tokens output_tokens : Z)
  | op_tool_call (tool_name : string)
  | op_error (error_type : string).

Definition apply_op (m : MetricsCollector) (op : Op) : MetricsCollector :=
  match op with
  | op_reset now => reset now
  | op_request_start now_ms => fst (record_request_start m now_ms)
  | op_first_token start_time now_ms => record_first_token m start_time now_ms
  | op_request_complete start_time now_ms ok =>
      record_request_complete m start_time now_ms ok
  | op_tokens i o => record_tokens m i o
  | op_tool_call tool_name => record_tool_call m tool_name
  | op_error error_type => record_error m error_type
  end.

End Metrics.

(** ** Vocabulary of the properties *)

(** [p] occurs in [s] as a substring. *)
Definition occurs (p s : string) : Prop := exists a b, s = (a ++ p ++ b)%string.

(** The path resolves to a location under one of the allowed roots. *)
Definition contained (resolve : string -> option (list string))
    (SANDBOX_ROOT : list string) (file_path : string) : Prop :=
  exists path allowed_dir,
    resolve file_path = Some path /\
    In allowed_dir (ALLOWED_DIRS SANDBOX_ROOT) /\
    allowed_dir `prefix_of` path.

(** The frames that end a turn. *)
Definition terminal (f : Frame) : bool :=
  match f with
  | MESSAGE_COMPLETE _ _ _ | ERROR _ => true
  | _ => false
  end.

(** The [iteration] field of a frame, for the frames that carry one. *)
Definition frame_iteration (f : Frame) : option nat :=
  match f with
  | TOOL_START _ _ i => Some i
  | AGENT_SPAWN _ _ _ i _ => Some i
  | _ => None
  end.

(** The [iteration] fields of the tool frames of a run, in order. *)
Definition iterations_of (fs : list Frame) : list nat := omap frame_iteration fs.

(** Each element is at most the next one. *)
Fixpoint non_decreasing (l : list nat) : Prop :=
  match l with
  | a :: rest =>
      match rest with
      | b :: _ => (a <= b)%nat /\ non_decreasing rest
      | [] => True
      end
  | [] => True
  end.

(** A text or thinking delta is clean when it has no replacement
    character; the other frames carry no streamed text. *)
Definition clean (f : Frame) : Prop :=
  match f with
  | TEXT_DELTA text => ~ In REPLACEMENT_CHAR text
  | THINKING_DELTA thinking => ~ In REPLACEMENT_CHAR thinking
  | _ => True
  end.

Definition is_success (msg : Message) : bool :=
  match msg with
  | SuccessMessage _ _ _ _ => true
  | _ => false
  end.

(** How many failures at the head of the list are retriable. *)
Fixpoint leading_retryable (failures : list Exn) : nat :=
  match failures with
  | e :: rest => if retryable e then S (leading_retryable rest) else 0
  | [] => 0
  end.

(** The condition of a new iteration as the specification words it. *)
Definition new_iteration_as_specified (s : State) : bool :=
  negb (bool_decide (tool_states s = ∅)) || negb (bool_decide (current_text s = [])).

(** A frame that neither ends the turn nor carries an iteration, and is
    clean. *)
Definition plain (f : Frame) : Prop :=
  terminal f = false /\ clean f /\ frame_iteration f = None.

(** [s'] has yielded what [s] had, then frames that satisfy [P]. *)
Definition extends (P : Frame -> Prop) (s s' : State) : Prop :=
  exists new,
    yielded s' = (yielded s ++ new)%list /\ Forall (fun p => P (fst p)) new.

(** A step that starts no tool: it yields plain frames only and leaves the
    tool states, the iteration counter and the sleeps as they were. *)
Definition quiet (s s' : State) : Prop :=
  extends plain s s'
  /\ tool_states s' = tool_states s
  /\ current_iteration s' = current_iteration s
  /\ slept s' = slept s.

(** What holds of the frames yielded before the turn ends. *)
Definition streaming (s : State) : Prop :=
  Forall (fun p => terminal (fst p) = false /\ clean (fst p)) (yielded s).

(** What holds of the iterations of the tool frames yielded so far. *)
Definition iterating (s : State) : Prop :=
  non_decreasing (iterations_of (frames s))
  /\ Forall (fun i => (i <= current_iteration s)%nat) (iterations_of (frames s))
  /\ (iterations_of (frames s) = [] -> tool_states s = ∅ /\ current_iteration s = 0%nat)
  /\ (forall i, head (iterations_of (frames s)) = Some i -> i = 1%nat).

(** A step of the turn before its end: it keeps what holds of the frames
    and of the iterations, sleeps no more, and only adds frames. *)
Definition keeps (s s' : State) : Prop :=
  (streaming s -> streaming s')
  /\ (iterating s -> iterating s')
  /\ slept s' = slept s
  /\ extends (fun _ => True) s s'.

(** The state of a turn when it starts to open the inbound stream. *)
Definition configured : State :=
  trace ev_config (emit (SESSION_CONFIG MAX_TURNS) (trace ev_request initial_state)).

(** Turns on the file system of [LexicalFS]; the commands of their hook
    calls name no absolute path. *)
Definition demo_turn : list Exn -> list (list HookCall * Message) -> option Exn -> State :=
  process_agent_stream (LexicalFS.resolve LexicalFS.project_root) LexicalFS.sandbox_root
    LexicalFS.no_paths.

(** The turn state after a first tool use. *)
Definition after_first_tool : State :=
  on_tool_use (Some "group"%string) true "toolu_1" "Read"
    {[ "file_path"%string := "README.md"%string ]} initial_state.

(** ** Vocabulary of the further properties *)

(** Whether an operation of the tool is counted in a window of the guard. *)
Definition counted_in (k : SafeSandbox.Kind) (tool_name : string) : bool :=
  match k with
  | SafeSandbox.AllOps => true
  | SafeSandbox.Writes => String.eqb tool_name "Write"
  | SafeSandbox.Shell => String.eqb tool_name "Bash"
  end.

(** The instants that are less than 60 seconds old at [now]. *)
Fixpoint kept (now : Q) (times : list Q) : list Q :=
  match times with
  | [] => []
  | t :: rest =>
      if Qlt_le_dec (now - 60) t then t :: kept now rest else kept now rest
  end.

(** The calls a user of a trace logger can make. *)
Inductive TracerCall : Type :=
  | call_log (ev : TraceEvent)
  | call_log_error (e : Exn)
  | call_complete.

Definition tracer_call (t : TraceLogger) (c : TracerCall) : TraceLogger :=
  match c with
  | call_log ev => log t ev
  | call_log_error e => log_error t e
  | call_complete => complete t
  end.

(** Kinds of logged events, and what the statistics read in them. *)
Definition is_tool_start (ev : TraceEvent) : bool :=
  match ev with ev_tool_start _ _ _ => true | _ => false end.

Definition is_task_start (ev : TraceEvent) : bool :=
  match ev with ev_tool_start _ tool _ => String.eqb tool "Task" | _ => false end.

Definition is_error_event (ev : TraceEvent) : bool :=
  match ev with ev_error _ => true | _ => false end.

Definition is_sandbox_block (ev : TraceEvent) : bool :=
  match ev with ev_sandbox_block _ _ => true | _ => false end.

Definition is_hook_event (ev : TraceEvent) : bool :=
  match ev with ev_hook_pre_tool _ | ev_hook_post_tool _ => true | _ => false end.

Definition is_thinking_event (ev : TraceEvent) : bool :=
  match ev with ev_thinking _ => true | _ => false end.

Definition thinking_length (ev : TraceEvent) : nat :=
  match ev with ev_thinking thinking => length thinking | _ => 0%nat end.

Definition event_iteration (ev : TraceEvent) : nat :=
  match ev with ev_tool_start _ _ i => i | _ => 0%nat end.

(** The statistics that a list of events amounts to. *)
Definition recount (evs : list TraceEvent) : Stats :=
  {| tool_calls := length (List.filter is_tool_start evs);
     iterations := list_max (map event_iteration evs);
     sub_agents := length (List.filter is_task_start evs);
     errors := length (List.filter is_error_event evs);
     hooks_triggered := length (List.filter is_hook_event evs);
     sandbox_blocks := length (List.filter is_sandbox_block evs);
     thinking_blocks := length (List.filter is_thinking_event evs);
     thinking_chars := list_sum (map thinking_length evs) |}.

(** The count that a dictionary of counters gives for a key. *)
Fixpoint count_of (key : string) (d : list (string * Z)) : Z :=
  match d with
  | [] => 0
  | (k, v) :: rest => if String.eqb k key then v else count_of key rest
  end.

(** An operation of the collector that is not a reset and records no
    negative number of tokens. *)
Definition accumulates (op : Metrics.Op) : Prop :=
  match op with
  | Metrics.op_reset _ => False
  | Metrics.op_tokens i o => (0 <= i)%Z /\ (0 <= o)%Z
  | _ => True
  end.

(** ** Vocabulary of the properties of a turn *)

(** Kinds of frames, and what the statistics of a trace count in them. *)
Definition is_tool_frame (f : Frame) : bool :=
  match f with TOOL_START _ _ _ | AGENT_SPAWN _ _ _ _ _ => true | _ => false end.

Definition is_spawn_frame (f : Frame) : bool :=
  match f with AGENT_SPAWN _ _ _ _ _ => true | _ => false end.

Definition is_error_frame (f : Frame) : bool :=
  match f with ERROR _ => true | _ => false end.

Definition is_thinking_frame (f : Frame) : bool :=
  match f with THINKING_DELTA _ => true | _ => false end.

Definition thinking_size (f : Frame) : nat :=
  match f with THINKING_DELTA thinking => length thinking | _ => 0%nat end.

(** The statistics of the trace of a turn are those of its frames. *)
Definition agrees (s : State) : Prop :=
  tool_calls (stats (tracer s)) = length (List.filter is_tool_frame (frames s))
  /\ sub_agents (stats (tracer s)) = length (List.filter is_spawn_frame (frames s))
  /\ errors (stats (tracer s)) = length (List.filter is_error_frame (frames s))
  /\ thinking_blocks (stats (tracer s)) = length (List.filter is_thinking_frame (frames s))
  /\ thinking_chars (stats (tracer s)) = list_sum (map thinking_size (frames s))
  /\ iterations (stats (tracer s)) = current_iteration s
  /\ list_max (iterations_of (frames s)) = current_iteration s.


(** The frame that shows an entry of the hook queue. *)
Definition hook_frame (hook_event : HookEvent) : option Frame :=
  match hook_event with
  | pre_tool tool_name action => Some (HOOK_PRE_TOOL tool_name action)
  | post_tool tool_name => Some (HOOK_POST_TOOL tool_name)
  | html_created _ _ => None
  end.

(** The frame of a text, when [current_text] is the text streamed so far. *)
Definition text_frames (current_text text : Text) : list Frame :=
  if negb (bool_decide (text = [])) && negb (bool_decide (text = current_text)) then
    match sanitize_utf8_text (drop (length current_text) text) with
    | [] => []
    | delta => [TEXT_DELTA delta]
    end
  else [].

(** The frame of a thinking block. *)
Definition thinking_frames (thinking : Text) : list Frame :=
  match sanitize_utf8_text thinking with
  | [] => []
  | thinking_text => [THINKING_DELTA thinking_text]
  end.

Definition blocks_of (msg : Message) : list Block :=
  match msg with ContentMessage _ content => content | _ => [] end.

(** The content blocks and the hook calls of a stream, in order. *)
Definition all_blocks (inbound : list (list HookCall * Message)) : list Block :=
  flat_map (fun item => blocks_of (snd item)) inbound.

Definition all_calls (inbound : list (list HookCall * Message)) : list HookCall :=
  flat_map fst inbound.

(** The items that a turn handles: those of the stream if it is opened,
    none if the retry loop is left with an exception. *)
Definition delivered (failures : list Exn) (inbound : list (list HookCall * Message))
  : list (list HookCall * Message) :=
  match failures !! Nat.min MAX_RETRIES (leading_retryable failures) with
  | None => inbound
  | Some _ => []
  end.

(** What a frame says was started (whether as a sub-agent, the identifier
    and the tool), and what a block asks to start. *)
Definition started (f : Frame) : option (bool * string * string) :=
  match f with
  | TOOL_START tool_id name _ => Some (false, tool_id, name)
  | AGENT_SPAWN agent_id _ _ _ _ => Some (true, agent_id, "Task")
  | _ => None
  end.

Definition tool_use_of (b : Block) : option (bool * string * string) :=
  match b with
  | ToolUseBlock id name _ => Some (String.eqb name "Task", id, name)
  | _ => None
  end.

(** What a frame reports as finished (the identifier and the status), and
    the result that a block carries. *)
Definition reported (f : Frame) : option (string * string) :=
  match f with
  | TOOL_RESULT tool_id status => Some (tool_id, status)
  | _ => None
  end.

Definition tool_result_of (b : Block) : option (string * string) :=
  match b with
  | ToolResultBlock tool_use_id _ is_error => Some (tool_use_id, status_value is_error)
  | _ => None
  end.

(** The names of the tools that the blocks ask to start, in order. *)
Definition tool_name_of (b : Block) : option string :=
  match b with ToolUseBlock _ name _ => Some name | _ => None end.

Definition tool_names (blocks : list Block) : list string := omap tool_name_of blocks.

(** The number of sub-agents that are open after some frames, [d] being
    open before them. *)
Fixpoint open_after (d : nat) (fs : list Frame) : nat :=
  match fs with
  | [] => d
  | AGENT_SPAWN _ _ _ _ _ :: rest => open_after (S d) rest
  | AGENT_COMPLETE _ :: rest => open_after (d - 1) rest
  | _ :: rest => open_after d rest
  end.

(** The sub-agent frames are well nested when [d] sub-agents are open
    before them: a spawn carries the number of sub-agents open once it is
    counted, and a completion comes only while one is open. *)
Fixpoint nested (d : nat) (fs : list Frame) : Prop :=
  match fs with
  | [] => True
  | AGENT_SPAWN _ _ _ _ depth :: rest => depth = S d /\ nested (S d) rest
  | AGENT_COMPLETE _ :: rest => (0 < d)%nat /\ nested (d - 1) rest
  | _ :: rest => nested d rest
  end.

(** A frame that is neither a spawn nor a completion. *)
Definition neutral (f : Frame) : bool :=
  match f with AGENT_SPAWN _ _ _ _ _ | AGENT_COMPLETE _ => false | _ => true end.

(** A step adds frames that are well nested and leave as many sub-agents
    open as [current_depth] says. *)
Definition nests (s s' : State) : Prop :=
  exists new,
    frames s' = (frames s ++ new)%list
    /\ nested (current_depth s) new
    /\ open_after (current_depth s) new = current_depth s'.



(** The text that a client has on display for the current iteration: it
    adds each text delta to it, and starts afresh when a tool starts. *)
Definition display (shown : Text) (f : Frame) : Text :=
  match f with
  | TEXT_DELTA text => (shown ++ text)%list
  | TOOL_START _ _ _ | AGENT_SPAWN _ _ _ _ _ => []
  | _ => shown
  end.

Definition streamed (fs : list Frame) : Text := fold_left display fs [].

(** What the blocks and the completion carry for the text: [Some text] is
    a text, [None] the start of a tool. *)
Definition block_event (b : Block) : list (option Text) :=
  match b with
  | TextBlock text => [Some text]
  | ToolUseBlock _ _ _ => [None]
  | _ => []
  end.

Definition text_events (inbound : list (list HookCall * Message)) : list (option Text) :=
  flat_map (fun item =>
              match snd item with
              | ContentMessage _ content => flat_map block_event content
              | SuccessMessage (Some result_text) _ _ _ => [Some result_text]
              | _ => []
              end) inbound.

(** The texts are cumulative when each one extends the text before it,
    the text before the first one and after a tool start being empty, and
    none has a replacement character. *)
Fixpoint cumulative (current : Text) (events : list (option Text)) : Prop :=
  match events with
  | [] => True
  | Some text :: rest =>
      current `prefix_of` text /\ ~ In REPLACEMENT_CHAR text /\ cumulative text rest
  | None :: rest => cumulative [] rest
  end.

(** The text that the events end with. *)
Definition latest (current : Text) (events : list (option Text)) : Text :=
  fold_left (fun current event => default [] event) events current.

(** The text streamed so far is in step with [current_text]. *)
Definition in_step (s : State) : Prop := streamed (frames s) = current_text s.

(** The usage that a completion message reports, if it does. *)
Definition usage_of (item : list HookCall * Message) : option Usage :=
  match snd item with
  | SuccessMessage _ usage _ _ => usage
  | _ => None
  end.

(** The usage reported last, or none of it. *)
Definition last_usage (inbound : list (list HookCall * Message)) : Usage :=
  default {| input_tokens := 0; output_tokens := 0 |} (last (omap usage_of inbound)).

(** The two token counters of a turn. *)
Definition tokens (s : State) : Z * Z := (total_input_tokens s, total_output_tokens s).

(** What the trace has counted of the hooks: the refusals of the sandbox
    check and the other calls. *)
Definition hook_counts (s : State) : nat * nat :=
  (sandbox_blocks (stats (tracer s)), hooks_triggered (stats (tracer s))).

(** A stream whose texts are cumulative. *)
Definition cumulative_stream : list (list HookCall * Message) :=
  [([], ContentMessage "m1" [TextBlock (text_of "Let me")]);
   ([], ContentMessage "m2" [TextBlock (text_of "Let me look.");
                             ToolUseBlock "toolu_1" "Read" {[ "file_path" := "README.md" ]}]);
   ([], ContentMessage "m3" [ToolResultBlock "toolu_1" (Some "ok") false]);
   ([], ContentMessage "m4" [TextBlock (text_of "Done")]);
   ([], SuccessMessage (Some (text_of "Done")) None false 2)].

(** A stream with two completion messages. *)
Definition stream_with_two_completions : list (list HookCall * Message) :=
  [([], SuccessMessage None (Some {| input_tokens := 1200; output_tokens := 80 |}) false 1);
   ([], ContentMessage "m" [TextBlock (text_of "more")]);
   ([], SuccessMessage None (Some {| input_tokens := 300; output_tokens := 20 |}) false 2);
   ([], SuccessMessage None None false 2)].

(** A stream with one tool, and the calls of the hooks around it. *)
Definition stream_with_hooks : list (list HookCall * Message) :=
  [([PreToolUse "Read" {[ "file_path" := "README.md" ]} (Some "toolu_1")],
    ContentMessage "m1" [ToolUseBlock "toolu_1" "Read" {[ "file_path" := "README.md" ]}]);
   ([PostToolUse "Read" true (Some "toolu_1")],
    ContentMessage "m2" [ToolResultBlock "toolu_1" (Some "ok") false]);
   ([], SuccessMessage None None false 1)].

Section HookCalls.

Variable resolve : string -> option (list string).
Variable SANDBOX_ROOT : list string.
Variable re_findall : PathPattern -> string -> list string.


(** A call of the [PreToolUse] hook that the sandbox check refuses. *)
Definition denied (call : HookCall) : bool :=
  match call with
  | PreToolUse tool_name tool_input _ =>
      negb (fst (sandbox_check_tool resolve SANDBOX_ROOT re_findall tool_name tool_input))
  | PostToolUse _ _ _ => false
  end.

End HookCalls.

(** ** Extended thinking ([process_thinking_stream])

    The turn of the extended-thinking endpoint calls the model itself, in a
    loop of at most [max_iterations] rounds, and runs the tools that a
    round asks for.  The environment is the function [api] that gives, for
    the number of a call, what the call delivers.  The frames do not
    depend on the trace logger, whose calls are left out. *)

Module ThinkingMode.

Definition max_iterations : nat := 10.

(** Outbound SSE frames of this endpoint. *)
Inductive Frame : Type :=
  | SESSION_CONFIG (max_turns : nat)
  | THINKING_DELTA (thinking : Text)
  | TEXT_DELTA (text : Text)
  | TOOL_START (tool_id name : string) (iteration : nat)
  | TOOL_RESULT (tool_id status : string)
  | COST_UPDATE (input_tokens output_tokens : Z)
  | MESSAGE_COMPLETE (tools_used : list string) (total_tokens : Z)
      (stop_reason : string) (iterations : nat)
  | ERROR (details : Exn).

(** The events of the stream of one call. *)
Inductive BlockType : Type := thinking_block | text_block | tool_use_block | other_block.

Inductive Delta : Type :=
  | thinking_delta (thinking : Text)
  | text_delta (text : Text)
  | other_delta.

Inductive StreamEvent : Type :=
  | content_block_start (block_type : BlockType)
  | content_block_delta (delta : Delta)
  | content_block_stop
  | other_event.

(** The content blocks of the final message of a call.  A tool-use block
    comes with [output], what the body of [execute_thinking_tool] returns
    when it runs the tool on that input. *)
Inductive ContentBlock : Type :=
  | thinking_content (thinking : Text)
  | text_content (text : Text)
  | tool_use_content (id name : string) (input : ToolInput) (output : string)
  | other_content.

Record Response : Type := {
  content : list ContentBlock;
  usage : option Usage
}.

(** One call: the events it streams, then the exception that ends it or
    its final message. *)
Record Round : Type := {
  events : list StreamEvent;
  outcome : Exn + Response
}.

Record State : Type := {
  tools_used : list string;
  total_input_tokens : Z;
  total_output_tokens : Z;
  iteration : nat;
  yielded : list Frame
}.

Definition initial_state : State :=
  {| tools_used := []; total_input_tokens := 0; total_output_tokens := 0;
     iteration := 0; yielded := [] |}.

Definition set_tools_used (v : list string) (s : State) : State :=
  {| tools_used := v; total_input_tokens := total_input_tokens s;
     total_output_tokens := total_output_tokens s; iteration := iteration s;
     yielded := yielded s |}.

Definition set_tokens (i o : Z) (s : State) : State :=
  {| tools_used := tools_used s; total_input_tokens := i; total_output_tokens := o;
     iteration := iteration s; yielded := yielded s |}.

Definition set_iteration (v : nat) (s : State) : State :=
  {| tools_used := tools_used s; total_input_tokens := total_input_tokens s;
     total_output_tokens := total_output_tokens s; iteration := v;
     yielded := yielded s |}.

(** [yield format_sse(...)] *)
Definition emit (f : Frame) (s : State) : State :=
  {| tools_used := tools_used s; total_input_tokens := total_input_tokens s;
     total_output_tokens := total_output_tokens s; iteration := iteration s;
     yielded := yielded s ++ [f] |}.

Section Tools.

Variable resolve : string -> option (list string).
Variable SANDBOX_ROOT : list string.
Variable re_findall : PathPattern -> string -> list string.

(** The text of a reason of the sandbox check. *)
Variable reason_text : Reason -> string.

(** [execute_thinking_tool]: the sandbox check, then the tool. *)
Definition execute_thinking_tool (tool_name : string) (tool_input : ToolInput)
    (output : string) : string :=
  let verdict := sandbox_check_tool resolve SANDBOX_ROOT re_findall tool_name tool_input in
  if negb (fst verdict) then "[SANDBOX ERROR] " ++ reason_text (snd verdict)
  else output.

(** [result.startswith("[ERROR]") or result.startswith("[SANDBOX ERROR]")] *)
Definition is_error (result : string) : bool :=
  String.prefix "[ERROR]" result || String.prefix "[SANDBOX ERROR]" result.

(** The body of [for event in stream]; [started] tells whether
    [current_content_blocks] is non-empty. *)
Definition on_event (acc : bool * State) (event : StreamEvent) : bool * State :=
  let (started, s) := acc in
  match event with
  | content_block_start block_type =>
      match block_type with
      | thinking_block | text_block | tool_use_block => (true, s)
      | other_block => (started, s)
      end
  | content_block_delta delta =>
      match delta with
      | thinking_delta thinking =>
          if started then (started, emit (THINKING_DELTA thinking) s) else (started, s)
      | text_delta text =>
          if started then (started, emit (TEXT_DELTA text) s) else (started, s)
      | other_delta => (started, s)
      end
  | content_block_stop | other_event => (started, s)
  end.

Definition is_tool_use (b : ContentBlock) : bool :=
  match b with tool_use_content _ _ _ _ => true | _ => false end.

(** The body of [for tool_block in tool_use_blocks]. *)
Definition run_tool (s : State) (b : ContentBlock) : State :=
  match b with
  | tool_use_content tool_id tool_name tool_input output =>
      let s := set_tools_used (tools_used s ++ [tool_name]) s in
      let s := emit (TOOL_START tool_id tool_name (iteration s)) s in
      let result := execute_thinking_tool tool_name tool_input output in
      emit (TOOL_RESULT tool_id (if is_error result then "error" else "completed")) s
  | _ => s
  end.

(** How a round leaves the body of the loop. *)
Inductive Exit : Type := raised (e : Exn) | finished | continues.

(** The body of the loop after [iteration += 1]. *)
Definition round (s : State) (r : Round) : State * Exit :=
  let s := snd (fold_left on_event (events r) (false, s)) in
  match outcome r with
  | inl e => (s, raised e)
  | inr response =>
      let s :=
        match usage response with
        | Some u =>
            set_tokens (total_input_tokens s + input_tokens u)
              (total_output_tokens s + output_tokens u) s
        | None => s
        end in
      match List.filter is_tool_use (content response) with
      | [] => (s, finished)
      | tool_use_blocks => (fold_left run_tool tool_use_blocks s, continues)
      end
  end.

(** [while iteration < max_iterations]; [remaining] is
    [max_iterations - iteration], and the call of a round is the one
    whose number is [iteration]. *)
Fixpoint loop (api : nat -> Round) (remaining : nat) (s : State) : State * option Exn :=
  match remaining with
  | O => (s, None)
  | S remaining =>
      let s := set_iteration (S (iteration s)) s in
      match round s (api (iteration s)) with
      | (s, raised e) => (s, Some e)
      | (s, finished) => (s, None)
      | (s, continues) => loop api remaining s
      end
  end.

Definition process_thinking_stream (api : nat -> Round) : State :=
  let s := emit (SESSION_CONFIG max_iterations) initial_state in
  match loop api max_iterations s with
  | (s, Some e) => emit (ERROR e) s
  | (s, None) =>
      let s := emit (COST_UPDATE (total_input_tokens s) (total_output_tokens s)) s in
      emit (MESSAGE_COMPLETE (remove_dups (tools_used s))
              (total_input_tokens s + total_output_tokens s) "end_turn" (iteration s)) s
  end.

End Tools.

End ThinkingMode.

(** ** Vocabulary of the properties of extended thinking *)


(** The tool-use blocks of the final message of a round, if it has one. *)
Definition tool_uses (r : ThinkingMode.Round) : list ThinkingMode.ContentBlock :=
  match ThinkingMode.outcome r with
  | inr response => List.filter ThinkingMode.is_tool_use (ThinkingMode.content response)
  | inl _ => []
  end.

(** A round after which the loop goes on: it ends with a final message
    that asks for a tool. *)
Definition asks_for_tools (r : ThinkingMode.Round) : bool :=
  match tool_uses r with [] => false | _ => true end.

(** The usage that a round reports. *)
Definition round_usage (r : ThinkingMode.Round) : Z * Z :=
  match ThinkingMode.outcome r with
  | inr response =>
      match ThinkingMode.usage response with
      | Some u => (input_tokens u, output_tokens u)
      | None => (0, 0)%Z
      end
  | inl _ => (0, 0)%Z
  end.

(** The events of a stream from the first start of a thinking, text or
    tool-use block on. *)
Fixpoint after_first_start (events : list ThinkingMode.StreamEvent)
  : list ThinkingMode.StreamEvent :=
  match events with
  | [] => []
  | ThinkingMode.content_block_start ThinkingMode.other_block :: rest =>
      after_first_start rest
  | ThinkingMode.content_block_start _ :: rest => rest
  | _ :: rest => after_first_start rest
  end.

(** The frame of a thinking or text delta, with the text of the delta as
    it is. *)
Definition delta_frame (event : ThinkingMode.StreamEvent) : option ThinkingMode.Frame :=
  match event with
  | ThinkingMode.content_block_delta (ThinkingMode.thinking_delta thinking) =>
      Some (ThinkingMode.THINKING_DELTA thinking)
  | ThinkingMode.content_block_delta (ThinkingMode.text_delta text) =>
      Some (ThinkingMode.TEXT_DELTA text)
  | _ => None
  end.

Definition is_delta_frame (f : ThinkingMode.Frame) : bool :=
  match f with
  | ThinkingMode.THINKING_DELTA _ | ThinkingMode.TEXT_DELTA _ => true
  | _ => false
  end.

Definition is_tool_frame_of_thinking (f : ThinkingMode.Frame) : bool :=
  match f with
  | ThinkingMode.TOOL_START _ _ _ | ThinkingMode.TOOL_RESULT _ _ => true
  | _ => false
  end.

Definition tool_name_of_use (b : ThinkingMode.ContentBlock) : option string :=
  match b with
  | ThinkingMode.tool_use_content _ name _ _ => Some name
  | _ => None
  end.

Section ThinkingVocabulary.

Variable resolve : string -> option (list string).
Variable SANDBOX_ROOT : list string.
Variable re_findall : PathPattern -> string -> list string.

(** The two frames of a tool of round [k]: its start, then its result,
    an error when the sandbox check refuses the call or the output of the
    tool starts with an error mark. *)
Definition tool_frames (k : nat) (b : ThinkingMode.ContentBlock)
  : list ThinkingMode.Frame :=
  match b with
  | ThinkingMode.tool_use_content id name input output =>
      [ThinkingMode.TOOL_START id name k;
       ThinkingMode.TOOL_RESULT id
         (if negb (fst (sandbox_check_tool resolve SANDBOX_ROOT re_findall name input))
             || ThinkingMode.is_error output
          then "error" else "completed")]
  | _ => []
  end.

(** The frames of round [k]: the deltas of its stream, then the frames of
    its tools. *)
Definition round_frames (k : nat) (r : ThinkingMode.Round) : list ThinkingMode.Frame :=
  (omap delta_frame (after_first_start (ThinkingMode.events r))
   ++ flat_map (tool_frames k) (tool_uses r))%list.

End ThinkingVocabulary.

(** The sum of a quantity over rounds. *)
Definition total_of (f : nat -> Z) (ks : list nat) : Z :=
  fold_right (fun k acc => (f k + acc)%Z) 0%Z ks.

(** A conversation of two rounds on the file system of [LexicalFS]: the
    first asks to write outside the sandbox, the second answers. *)
Definition two_rounds (k : nat) : ThinkingMode.Round :=
  match k with
  | 1%nat =>
      {| ThinkingMode.events :=
           [ThinkingMode.content_block_start ThinkingMode.thinking_block;
            ThinkingMode.content_block_delta
              (ThinkingMode.thinking_delta (text_of "try " ++ [REPLACEMENT_CHAR])%list);
            ThinkingMode.content_block_stop;
            ThinkingMode.content_block_start ThinkingMode.tool_use_block;
            ThinkingMode.content_block_delta ThinkingMode.other_delta;
            ThinkingMode.content_block_stop];
         ThinkingMode.outcome :=
           inr {| ThinkingMode.content :=
                    [ThinkingMode.thinking_content (text_of "try " ++ [REPLACEMENT_CHAR])%list;
                     ThinkingMode.tool_use_content "toolu_1" "Write"
                       {[ "file_path" := "/etc/passwd"; "content" := "x" ]}
                       "Successfully wrote 1 characters to /etc/passwd"];
                  ThinkingMode.usage :=
                    Some {| input_tokens := 100; output_tokens := 20 |} |} |}
  | _ =>
      {| ThinkingMode.events :=
           [ThinkingMode.content_block_start ThinkingMode.text_block;
            ThinkingMode.content_block_delta (ThinkingMode.text_delta (text_of "I cannot."));
            ThinkingMode.content_block_stop];
         ThinkingMode.outcome :=
           inr {| ThinkingMode.content := [ThinkingMode.text_content (text_of "I cannot.")];
                  ThinkingMode.usage :=
                    Some {| input_tokens := 150; output_tokens := 5 |} |} |}
  end.

(** Turns of the endpoint on the file system of [LexicalFS]. *)
Definition demo_thinking_turn : (nat -> ThinkingMode.Round) -> ThinkingMode.State :=
  ThinkingMode.process_thinking_stream (LexicalFS.resolve LexicalFS.project_root)
    LexicalFS.sandbox_root LexicalFS.no_paths (fun _ => "denied").

(** ** Vocabulary of the verdicts of the guard and of the success rate *)

(** Kinds of operations of the collector. *)
Definition is_reset_op (op : Metrics.Op) : bool :=
  match op with Metrics.op_reset _ => true | _ => false end.

Definition is_start_op (op : Metrics.Op) : bool :=
  match op with Metrics.op_request_start _ => true | _ => false end.

Definition is_complete_op (op : Metrics.Op) : bool :=
  match op with Metrics.op_request_complete _ _ _ => true | _ => false end.

(** Three requests, of which one succeeds, one fails and one is under
    way. *)
Definition three_requests : list Metrics.Op :=
  [Metrics.op_request_start 1000; Metrics.op_request_complete 1000 1800 true;
   Metrics.op_request_start 2000; Metrics.op_error "TimeoutError";
   Metrics.op_request_complete 2000 2500 false; Metrics.op_request_start 3000].

(** A request during which the collector is reset: it starts at 100 ms,
    the reset follows, the first token comes at 150 ms and the request
    completes at 400 ms. *)
Definition reset_during_a_request : list Metrics.Op :=
  [Metrics.op_request_start 100; Metrics.op_reset 1;
   Metrics.op_first_token 100 150; Metrics.op_request_complete 100 400 true].

(** * Properties *)

(** ** Strings *)

#[local] Arguments String.append : simpl nomatch.

Lemma prefix_spec p s :
  String.prefix p s = true <-> exists b, s = (p ++ b)%string.
Proof.
  revert s. induction p as [|c p IH]; intros s; simpl.
  - destruct s; (split; [intros _; eexists; reflexivity | reflexivity]).
  - destruct s as [|d s]; simpl.
    + split; [discriminate | intros [b Hb]; discriminate].
    + destruct (Ascii.ascii_dec c d) as [->|Hne].
      * rewrite IH. split; intros [b Hb]; exists b; congruence.
      * split; [discriminate | intros [b Hb]; congruence].
Qed.

Lemma contains_nil p : PyStr.contains p "" = String.prefix p "".
Proof. unfold PyStr.contains. apply orb_false_r. Qed.

Lemma contains_cons p d s :
  PyStr.contains p (String d s) = String.prefix p (String d s) || PyStr.contains p s.
Proof. reflexivity. Qed.

Lemma contains_spec p s : PyStr.contains p s = true <-> occurs p s.
Proof.
  induction s as [|d s IH].
  - rewrite contains_nil, prefix_spec. split.
    + intros [b Hb]. exists ""%string, b. exact Hb.
    + intros [a [b Hb]]. destruct a; simpl in Hb; [eauto | discriminate].
  - rewrite contains_cons, orb_true_iff, prefix_spec, IH. split.
    + intros [[b Hb] | [a [b Hb]]].
      * exists ""%string, b. exact Hb.
      * exists (String d a), b. simpl. congruence.
    + intros [a [b Hb]]. destruct a as [|e a]; simpl in Hb.
      * left. eauto.
      * right. exists a, b. congruence.
Qed.

Lemma occurs_env_local s : occurs ".env.local" s -> occurs ".env" s.
Proof. intros [a [b ->]]. exists a, (".local" ++ b)%string. reflexivity. Qed.

Lemma occurs_env_production s : occurs ".env.production" s -> occurs ".env" s.
Proof. intros [a [b ->]]. exists a, (".production" ++ b)%string. reflexivity. Qed.

Lemma truthy_false s : PyStr.truthy s = false <-> s = ""%string.
Proof. destruct s; simpl; split; congruence. Qed.

Lemma mem_spec x names : PyStr.mem x names = true <-> In x names.
Proof.
  unfold PyStr.mem. rewrite existsb_exists. split.
  - intros [y [Hy Heq]]. apply String.eqb_eq in Heq. subst. exact Hy.
  - intros H. exists x. split; [exact H | apply String.eqb_refl].
Qed.

(** ** The sandbox check *)

Lemma first_sensitive_none file_name patterns :
  first_sensitive file_name patterns = None <->
  forall p, In p patterns -> ~ occurs (PyStr.lower p) file_name.
Proof.
  induction patterns as [|q rest IH]; simpl.
  - split; [intros _ p [] | reflexivity].
  - destruct (PyStr.contains (PyStr.lower q) file_name) eqn:Hc.
    + split; [discriminate |].
      intros H. exfalso. apply (H q); [left; reflexivity |].
      apply contains_spec. exact Hc.
    + rewrite IH. split.
      * intros H p [<- | Hp]; [| apply H; exact Hp].
        rewrite <- contains_spec, Hc. discriminate.
      * intros H p Hp. apply H. right. exact Hp.
Qed.

Lemma first_sensitive_some file_name patterns q :
  first_sensitive file_name patterns = Some q ->
  In q patterns /\ occurs (PyStr.lower q) file_name.
Proof.
  induction patterns as [|p rest IH]; simpl; [discriminate |].
  destruct (PyStr.contains (PyStr.lower p) file_name) eqn:Hc.
  - intros [= <-]. split; [left; reflexivity | apply contains_spec; exact Hc].
  - intros H. destruct (IH H) as [Hin Ho]. split; [right; exact Hin | exact Ho].
Qed.

(** On the blacklist of the gateway, some entry occurs in [s] exactly when
    one of the three short ones does. *)
Lemma sensitive_patterns_short s :
  (exists p, In p sensitive_patterns /\ occurs (PyStr.lower p) s) <->
  occurs ".env" s \/ occurs "credentials" s \/ occurs "secrets" s.
Proof.
  unfold sensitive_patterns. split.
  - intros [p [Hp Ho]]. simpl in Hp.
    destruct Hp as [<- | [<- | [<- | [<- | [<- | []]]]]]; cbn in Ho; auto.
    + left. apply occurs_env_local. exact Ho.
    + left. apply occurs_env_production. exact Ho.
  - intros [H | [H | H]].
    + exists ".env"%string. simpl. auto.
    + exists "credentials"%string. simpl. auto 6.
    + exists "secrets"%string. simpl. auto 7.
Qed.

Lemma no_occurrence_in_empty p : p <> ""%string -> ~ occurs p "".
Proof.
  intros Hp [a [b Hab]]. destruct a; simpl in Hab; [| discriminate].
  destruct p; simpl in Hab; [congruence | discriminate].
Qed.

Lemma first_sensitive_empty : first_sensitive "" sensitive_patterns = None.
Proof. reflexivity. Qed.

Lemma relative_to_prefix path other :
  relative_to path other = true <-> other `prefix_of` path.
Proof.
  revert path. induction other as [|o other IH]; intros path; simpl.
  - split; [intros _; apply prefix_nil | reflexivity].
  - destruct path as [|p path].
    + split; [discriminate | intros H; apply prefix_nil_not in H; contradiction].
    + rewrite andb_true_iff, String.eqb_eq, IH. split.
      * intros [-> H]. apply prefix_cons. exact H.
      * intros H. split.
        -- eapply prefix_cons_inv_1. exact H.
        -- eapply prefix_cons_inv_2. exact H.
Qed.

Lemma is_path_in_sandbox_spec
    (resolve : string -> option (list string)) (SANDBOX_ROOT : list string)
    (file_path : string) :
  is_path_in_sandbox resolve SANDBOX_ROOT file_path = true
  <-> contained resolve SANDBOX_ROOT file_path.
Proof.
  unfold is_path_in_sandbox, contained.
  destruct (resolve file_path) as [path|].
  - rewrite existsb_exists. split.
    + intros [d [Hd Hr]]. exists path, d.
      rewrite <- relative_to_prefix. auto.
    + intros [path' [d [Hp [Hd Hr]]]]. injection Hp as <-.
      exists d. rewrite relative_to_prefix. auto.
  - split; [discriminate | intros [path [d [Hp _]]]; discriminate].
Qed.

Lemma check_write_family
    (resolve : string -> option (list string)) (SANDBOX_ROOT : list string)
    (re_findall : PathPattern -> string -> list string)
    (tool_name : string) (tool_input : ToolInput) :
  tool_name = "Write"%string \/ tool_name = "Edit"%string ->
  sandbox_check_tool resolve SANDBOX_ROOT re_findall tool_name tool_input =
    let file_path := get tool_input "file_path" in
    if negb (PyStr.truthy file_path) then (false, EmptyFilePath)
    else if negb (is_path_in_sandbox resolve SANDBOX_ROOT file_path)
         then (false, WriteOutsideSandbox file_path)
         else (true, NoReason).
Proof. intros [-> | ->]; reflexivity. Qed.

(** C9.  A [Write] or an [Edit] whose input has no [file_path], or an empty
    one, is denied: the check answers with the empty-path refusal, before
    any containment test, whatever the file system and the allowed roots
    are. *)
Theorem write_without_file_path_is_denied
    (resolve : string -> option (list string)) (SANDBOX_ROOT : list string)
    (re_findall : PathPattern -> string -> list string)
    (tool_name : string) (tool_input : ToolInput) :
  tool_name = "Write"%string \/ tool_name = "Edit"%string ->
  tool_input !! "file_path"%string = None \/ tool_input !! "file_path"%string = Some ""%string ->
  sandbox_check_tool resolve SANDBOX_ROOT re_findall tool_name tool_input
  = (false, EmptyFilePath).
Proof.
  intros Htool Hpath.
  rewrite check_write_family by exact Htool.
  unfold get. destruct Hpath as [-> | ->]; reflexivity.
Qed.

Lemma write_without_file_path_is_denied_witness :
  LexicalFS.check "Edit" {[ "old_string"%string := "a"%string ]} = (false, EmptyFilePath)
  /\ LexicalFS.check "Write" {[ "file_path"%string := ""%string ]} = (false, EmptyFilePath).
Proof.
  split.
  - apply write_without_file_path_is_denied; [right; reflexivity | left; reflexivity].
  - apply write_without_file_path_is_denied; [left; reflexivity | right; reflexivity].
Defined.

(** C3.  For a [Write] or an [Edit] with a non-empty target path, the check
    allows the call if and only if the resolved target lies under one of
    the allowed roots (the sandbox directory); a target outside every
    allowed root is denied, with the outside-the-sandbox refusal. *)
Theorem write_allowed_iff_contained
    (resolve : string -> option (list string)) (SANDBOX_ROOT : list string)
    (re_findall : PathPattern -> string -> list string)
    (tool_name : string) (tool_input : ToolInput) (file_path : string) :
  tool_name = "Write"%string \/ tool_name = "Edit"%string ->
  tool_input !! "file_path"%string = Some file_path ->
  file_path <> ""%string ->
  let verdict := sandbox_check_tool resolve SANDBOX_ROOT re_findall tool_name tool_input in
  (fst verdict = true <-> contained resolve SANDBOX_ROOT file_path)
  /\ (~ contained resolve SANDBOX_ROOT file_path ->
      verdict = (false, WriteOutsideSandbox file_path)).
Proof.
  intros Htool Hget Hne verdict. subst verdict.
  rewrite check_write_family by exact Htool.
  unfold get. rewrite Hget. simpl.
  destruct (PyStr.truthy file_path) eqn:Ht.
  2:{ apply truthy_false in Ht. contradiction. }
  simpl. rewrite <- is_path_in_sandbox_spec.
  destruct (is_path_in_sandbox resolve SANDBOX_ROOT file_path); simpl.
  - split; [tauto | intros H; exfalso; apply H; reflexivity].
  - split; [split; discriminate | reflexivity].
Qed.

Lemma write_allowed_iff_contained_witness :
  (fst (LexicalFS.check "Write"
          {[ "file_path"%string := "/srv/prism/web/backend/sandbox/demo/index.html"%string ]})
   = true
   <-> contained (LexicalFS.resolve LexicalFS.project_root) LexicalFS.sandbox_root
         "/srv/prism/web/backend/sandbox/demo/index.html")
  /\ (~ contained (LexicalFS.resolve LexicalFS.project_root) LexicalFS.sandbox_root
          "/srv/prism/web/backend/sandbox/demo/index.html" ->
      LexicalFS.check "Write"
        {[ "file_path"%string := "/srv/prism/web/backend/sandbox/demo/index.html"%string ]}
      = (false, WriteOutsideSandbox "/srv/prism/web/backend/sandbox/demo/index.html")).
Proof.
  apply (write_allowed_iff_contained
           (LexicalFS.resolve LexicalFS.project_root) LexicalFS.sandbox_root
           LexicalFS.no_paths "Write").
  - left. reflexivity.
  - reflexivity.
  - discriminate.
Defined.

Example write_inside_sandbox :
  LexicalFS.check "Write" {[ "file_path"%string := "web/backend/sandbox/notes.md"%string ]}
  = (true, NoReason).
Proof. reflexivity. Qed.

Example write_etc_passwd :
  LexicalFS.check "Write" {[ "file_path"%string := "/etc/passwd"%string ]}
  = (false, WriteOutsideSandbox "/etc/passwd").
Proof. reflexivity. Qed.

Example edit_escaping_with_dotdot :
  LexicalFS.check "Edit"
    {[ "file_path"%string := "/srv/prism/web/backend/sandbox/../main.py"%string ]}
  = (false, WriteOutsideSandbox "/srv/prism/web/backend/sandbox/../main.py").
Proof. reflexivity. Qed.

(** The read family, unfolded. *)
Lemma check_read_family
    (resolve : string -> option (list string)) (SANDBOX_ROOT : list string)
    (re_findall : PathPattern -> string -> list string)
    (tool_name : string) (tool_input : ToolInput) :
  In tool_name ["Read"; "Glob"; "Grep"]%string ->
  sandbox_check_tool resolve SANDBOX_ROOT re_findall tool_name tool_input =
    let file_path :=
      PyStr.or_else (get tool_input "file_path") (get tool_input "path") in
    let pattern := get tool_input "pattern" in
    let file_name :=
      PyStr.lower (PyStr.last_segment "/" (PyStr.replace_char "\" "/" file_path)) in
    match (if PyStr.truthy file_path
           then first_sensitive file_name sensitive_patterns else None) with
    | Some sensitive => (false, SensitiveFile file_name sensitive)
    | None =>
        match (if PyStr.truthy pattern
               then first_sensitive (PyStr.lower pattern) sensitive_patterns
               else None) with
        | Some _ => (false, SensitivePattern pattern)
        | None => (true, NoReason)
        end
    end.
Proof.
  intros Hin. simpl in Hin.
  destruct Hin as [<- | [<- | [<- | []]]]; reflexivity.
Qed.

Lemma guarded_first_sensitive s :
  (if PyStr.truthy s then first_sensitive (PyStr.lower s) sensitive_patterns else None)
  = first_sensitive (PyStr.lower s) sensitive_patterns.
Proof. destruct s; reflexivity. Qed.

(** C2, as the code has it.  For a [Read], a [Glob] or a [Grep], the check
    denies the call exactly when the lower-cased last segment of the path
    ([file_path], or [path] when that one is absent or empty) or the
    lower-cased [pattern] contains [.env], [credentials] or [secrets] (the
    entries [.env.local] and [.env.production] of the list add nothing to
    [.env]); every other call of the read family is allowed.  The words
    [password] and [token] are not on the list. *)
Theorem read_family_denied_iff_sensitive
    (resolve : string -> option (list string)) (SANDBOX_ROOT : list string)
    (re_findall : PathPattern -> string -> list string)
    (tool_name : string) (tool_input : ToolInput) :
  In tool_name ["Read"; "Glob"; "Grep"]%string ->
  let file_path :=
    PyStr.or_else (get tool_input "file_path") (get tool_input "path") in
  let file_name :=
    PyStr.lower (PyStr.last_segment "/" (PyStr.replace_char "\" "/" file_path)) in
  let pattern := PyStr.lower (get tool_input "pattern") in
  let sensitive s := occurs ".env" s \/ occurs "credentials" s \/ occurs "secrets" s in
  fst (sandbox_check_tool resolve SANDBOX_ROOT re_findall tool_name tool_input) = false
  <-> sensitive file_name \/ sensitive pattern.
Proof.
  intros Hin file_path file_name pattern sensitive.
  rewrite check_read_family by exact Hin.
  fold file_path. fold file_name. cbv zeta.
  rewrite guarded_first_sensitive. fold pattern.
  assert (Hname : (if PyStr.truthy file_path
                   then first_sensitive file_name sensitive_patterns else None)
                  = first_sensitive file_name sensitive_patterns).
  { destruct (PyStr.truthy file_path) eqn:Ht; [reflexivity |].
    apply truthy_false in Ht. subst file_name. rewrite Ht. reflexivity. }
  unfold file_name in Hname. rewrite Hname. fold file_name.
  subst sensitive. cbv beta.
  rewrite <- !sensitive_patterns_short.
  destruct (first_sensitive file_name sensitive_patterns) as [q|] eqn:Hf.
  - cbn [fst]. split; [intros _ | reflexivity]. left.
    destruct (first_sensitive_some file_name sensitive_patterns q Hf) as [Hq Ho]. eauto.
  - rewrite first_sensitive_none in Hf.
    destruct (first_sensitive pattern sensitive_patterns) as [q|] eqn:Hp.
    + cbn [fst]. split; [intros _ | reflexivity]. right.
      destruct (first_sensitive_some pattern sensitive_patterns q Hp) as [Hq Ho]. eauto.
    + rewrite first_sensitive_none in Hp. cbn [fst]. split; [discriminate |].
      intros [[p [Hin' Ho]] | [p [Hin' Ho]]]; exfalso.
      * exact (Hf p Hin' Ho).
      * exact (Hp p Hin' Ho).
Qed.

Lemma read_family_denied_iff_sensitive_witness :
  fst (LexicalFS.check "Read" {[ "path"%string := "C:\work\My_Secrets.TXT"%string ]}) = false
  <-> (occurs ".env" "my_secrets.txt" \/ occurs "credentials" "my_secrets.txt"
       \/ occurs "secrets" "my_secrets.txt")
      \/ (occurs ".env" "" \/ occurs "credentials" "" \/ occurs "secrets" "").
Proof.
  assert (Hin : In "Read"%string ["Read"; "Glob"; "Grep"]%string)
    by (left; reflexivity).
  exact (read_family_denied_iff_sensitive
           (LexicalFS.resolve LexicalFS.project_root) LexicalFS.sandbox_root
           LexicalFS.no_paths "Read"
           {[ "path"%string := "C:\work\My_Secrets.TXT"%string ]} Hin).
Defined.

(** C2 as the specification has it fails: a [Read] of a file whose base
    name contains [password], and one whose base name contains [token],
    are both allowed. *)
Lemma read_of_password_or_token_is_allowed :
  (occurs "password" "password.txt"
   /\ LexicalFS.check "Read" {[ "file_path"%string := "config/password.txt"%string ]}
      = (true, NoReason))
  /\ (occurs "token" "api_token.json"
      /\ LexicalFS.check "Read" {[ "file_path"%string := "api_token.json"%string ]}
         = (true, NoReason)).
Proof.
  split; split; try reflexivity.
  - exists ""%string, ".txt"%string. reflexivity.
  - exists "api_"%string, ".json"%string. reflexivity.
Qed.

Example read_dot_env_denied :
  LexicalFS.check "Read" {[ "file_path"%string := "/srv/prism/.ENV"%string ]}
  = (false, SensitiveFile ".env" ".env").
Proof. reflexivity. Qed.

Example glob_for_env_files_denied :
  LexicalFS.check "Glob" {[ "pattern"%string := "**/*.env*"%string ]}
  = (false, SensitivePattern "**/*.env*").
Proof. reflexivity. Qed.

Example grep_plain_pattern_allowed :
  LexicalFS.check "Grep"
    {[ "pattern"%string := "TODO"%string; "path"%string := "src"%string ]}
  = (true, NoReason).
Proof. reflexivity. Qed.

(** ** Rate limits *)

Lemma Qgtb_lt (t cutoff : Q) : SafeSandbox.Qgtb t cutoff = true <-> (cutoff < t)%Q.
Proof.
  unfold SafeSandbox.Qgtb. rewrite negb_true_iff, <- not_true_iff_false, Qle_bool_iff.
  split; [apply Qnot_le_lt | apply Qlt_not_le].
Qed.

Lemma cleanup_counts (now : Q) (times : list Q) :
  length (List.filter (fun t => SafeSandbox.Qgtb t (now - 60)%Q) times)
  = SafeSandbox.in_last_minute now times.
Proof.
  induction times as [|t rest IH]; simpl; [reflexivity |].
  destruct (Qlt_le_dec (now - 60) t) as [Hlt | Hle].
  - apply Qgtb_lt in Hlt. rewrite Hlt. simpl. rewrite IH. reflexivity.
  - destruct (SafeSandbox.Qgtb t (now - 60)%Q) eqn:Hg; [| exact IH].
    apply Qgtb_lt in Hg. exfalso. exact (Qlt_not_le _ _ Hg Hle).
Qed.

Lemma window_after_cleanup (k : SafeSandbox.Kind) (g : SafeSandbox.SecurityGuard) (now : Q) :
  length (SafeSandbox.window k (SafeSandbox._cleanup_old_times g now))
  = SafeSandbox.in_last_minute now (SafeSandbox.window k g).
Proof. destruct k; simpl; apply cleanup_counts. Qed.

Lemma reached_iff (times : list Q) (cap : Z) :
  SafeSandbox.reached times cap = true <-> (cap <= Z.of_nat (length times))%Z.
Proof. unfold SafeSandbox.reached. apply Z.leb_le. Qed.

Lemma check_path_fields_refuses
    (cp : string -> SafeSandbox.Outcome) (fields : list string)
    (tool_input : ToolInput) (o : SafeSandbox.Outcome) :
  SafeSandbox.check_path_fields cp fields tool_input = Some o ->
  SafeSandbox.allowed o = false.
Proof.
  induction fields as [|f rest IH]; simpl; [discriminate |].
  destruct (tool_input !! f) as [path|]; [| exact IH].
  destruct (SafeSandbox.allowed (cp path)) eqn:Ha; [exact IH |].
  intros [= <-]. exact Ha.
Qed.

(** An operation that passes every check is recorded at [current_time] in
    the window of all operations. *)
Lemma check_operation_records
    (cp cc ct : string -> SafeSandbox.Outcome) (g : SafeSandbox.SecurityGuard)
    (tool_name : string) (tool_input : ToolInput) (now : Q) :
  let r := SafeSandbox.check_operation cp cc ct g tool_name tool_input now in
  SafeSandbox.allowed (snd r) = true ->
  SafeSandbox._operation_times (fst r)
  = (SafeSandbox._operation_times (SafeSandbox._cleanup_old_times g now) ++ [now])%list.
Proof.
  unfold SafeSandbox.check_operation. cbv zeta.
  destruct (SafeSandbox.reached _ _); [discriminate |].
  destruct (_ && _); [discriminate |].
  destruct (_ && _); [discriminate |].
  destruct (SafeSandbox.check_path_fields cp _ tool_input) as [o|] eqn:Hp.
  { apply check_path_fields_refuses in Hp. simpl. congruence. }
  destruct (negb (SafeSandbox.allowed (if (tool_name =? "Bash")%string then _ else _))) eqn:Hc.
  { apply negb_true_iff in Hc. simpl. congruence. }
  destruct (negb (SafeSandbox.allowed (if (tool_name =? "Write")%string then _ else _))) eqn:Hw.
  { apply negb_true_iff in Hw. simpl. congruence. }
  reflexivity.
Qed.

Lemma cleanup_is_kept (now : Q) (times : list Q) :
  List.filter (fun t => SafeSandbox.Qgtb t (now - 60)%Q) times = kept now times.
Proof.
  induction times as [|t rest IH]; simpl; [reflexivity |].
  destruct (Qlt_le_dec (now - 60) t) as [Hlt | Hle].
  - apply Qgtb_lt in Hlt. rewrite Hlt, IH. reflexivity.
  - destruct (SafeSandbox.Qgtb t (now - 60)%Q) eqn:Hg; [| exact IH].
    apply Qgtb_lt in Hg. exfalso. exact (Qlt_not_le _ _ Hg Hle).
Qed.

Lemma window_cleanup (k : SafeSandbox.Kind) (g : SafeSandbox.SecurityGuard) (now : Q) :
  SafeSandbox.window k (SafeSandbox._cleanup_old_times g now)
  = kept now (SafeSandbox.window k g).
Proof. destruct k; simpl; apply cleanup_is_kept. Qed.

Lemma window_record_times (k : SafeSandbox.Kind) (g : SafeSandbox.SecurityGuard)
    (tool_name : string) (now : Q) :
  SafeSandbox.window k (SafeSandbox.record_times g tool_name now)
  = (SafeSandbox.window k g ++ (if counted_in k tool_name then [now] else []))%list.
Proof.
  destruct k; simpl; try reflexivity;
    match goal with |- context [(?a =? ?b)%string] => destruct (a =? b)%string end;
    simpl; rewrite ?app_nil_r; reflexivity.
Qed.

(** The two ways a check ends: refused, with the guard only pruned, or
    allowed, below every cap that applies, with the instant recorded. *)
Lemma check_operation_cases
    (cp cc ct : string -> SafeSandbox.Outcome) (g : SafeSandbox.SecurityGuard)
    (tool_name : string) (tool_input : ToolInput) (now : Q) :
  let g1 := SafeSandbox._cleanup_old_times g now in
  let r := SafeSandbox.check_operation cp cc ct g tool_name tool_input now in
  (SafeSandbox.allowed (snd r) = false /\ fst r = g1)
  \/ (SafeSandbox.allowed (snd r) = true
      /\ fst r = SafeSandbox.record_times g1 tool_name now
      /\ forall k, counted_in k tool_name = true ->
           SafeSandbox.reached (SafeSandbox.window k g1)
             (SafeSandbox.cap k (SafeSandbox.policy g1)) = false).
Proof.
  unfold SafeSandbox.check_operation. cbv zeta.
  set (g1 := SafeSandbox._cleanup_old_times g now).
  destruct (SafeSandbox.reached (SafeSandbox._operation_times g1) _) eqn:Hall;
    [left; split; reflexivity |].
  destruct ((tool_name =? "Write")%string
            && SafeSandbox.reached (SafeSandbox._write_times g1) _) eqn:Hwrite;
    [left; split; reflexivity |].
  destruct ((tool_name =? "Bash")%string
            && SafeSandbox.reached (SafeSandbox._bash_times g1) _) eqn:Hbash;
    [left; split; reflexivity |].
  destruct (SafeSandbox.check_path_fields cp _ tool_input) as [o|] eqn:Hp.
  { left. split; [exact (check_path_fields_refuses cp _ _ _ Hp) | reflexivity]. }
  destruct (negb (SafeSandbox.allowed (if (tool_name =? "Bash")%string then _ else _)))
    eqn:Hc.
  { left. apply negb_true_iff in Hc. split; [exact Hc | reflexivity]. }
  destruct (negb (SafeSandbox.allowed (if (tool_name =? "Write")%string then _ else _)))
    eqn:Hw.
  { left. apply negb_true_iff in Hw. split; [exact Hw | reflexivity]. }
  right. split; [reflexivity |]. split; [reflexivity |].
  intros k Hk. destruct k; cbn [counted_in SafeSandbox.window SafeSandbox.cap] in *.
  - exact Hall.
  - rewrite Hk in Hwrite. exact Hwrite.
  - rewrite Hk in Hbash. exact Hbash.
Qed.

Lemma in_last_minute_kept (now : Q) (times : list Q) :
  SafeSandbox.in_last_minute now times = length (kept now times).
Proof.
  induction times as [|t rest IH]; simpl; [reflexivity |].
  destruct (Qlt_le_dec (now - 60) t); simpl; rewrite IH; reflexivity.
Qed.

(** C1, as the code has it.  The rolling windows belong to the guard of
    [examples/safe_sandbox.py], which keeps one list of instants for all
    operations, one for [Write] and one for [Bash].  For a check at the
    instant [now]:
    - each window then holds the instants it held that are less than 60
      seconds old, followed by [now] when the operation was allowed and
      is of the kind of the window: the older instants are dropped on
      each check;
    - when the number of operations of a kind recorded in the last 60
      seconds has reached the cap of that kind, the check of an operation
      of that kind is denied with [rate_limit_exceeded];
    - when that number is below the cap for every kind the operation
      belongs to, the verdict is that of a guard on which nothing was
      recorded, however many older instants the windows hold;
    - the caps are 60, 20 and 10 unless the policy sets others. *)
Theorem rate_limit_is_enforced_by_the_guard
    (cp cc ct : string -> SafeSandbox.Outcome) (g : SafeSandbox.SecurityGuard)
    (k : SafeSandbox.Kind) (tool_name : string) (tool_input : ToolInput) (now : Q) :
  let r := SafeSandbox.check_operation cp cc ct g tool_name tool_input now in
  SafeSandbox.window k (fst r)
  = (kept now (SafeSandbox.window k g)
     ++ (if SafeSandbox.allowed (snd r) && counted_in k tool_name then [now] else []))%list
  /\ (SafeSandbox.of_kind k tool_name ->
      (SafeSandbox.cap k (SafeSandbox.policy g)
       <= Z.of_nat (SafeSandbox.in_last_minute now (SafeSandbox.window k g)))%Z ->
      SafeSandbox.allowed (snd r) = false
      /\ SafeSandbox.reason (snd r) = Some SafeSandbox.RATE_LIMIT
      /\ SafeSandbox.value SafeSandbox.RATE_LIMIT = "rate_limit_exceeded"%string)
  /\ ((forall k', SafeSandbox.of_kind k' tool_name ->
         (Z.of_nat (SafeSandbox.in_last_minute now (SafeSandbox.window k' g))
          < SafeSandbox.cap k' (SafeSandbox.policy g))%Z) ->
      snd r
      = snd (SafeSandbox.check_operation cp cc ct
               (SafeSandbox.new_guard (SafeSandbox.policy g)) tool_name tool_input now))
  /\ SafeSandbox.cap k SafeSandbox.default_policy
     = match k with
       | SafeSandbox.AllOps => 60%Z
       | SafeSandbox.Writes => 20%Z
       | SafeSandbox.Shell => 10%Z
       end.
Proof.
  cbv zeta. split; [| split; [| split]].
  - destruct (check_operation_cases cp cc ct g tool_name tool_input now)
      as [[Ha Hg] | [Ha [Hg _]]]; rewrite Ha, Hg.
    + cbn [andb]. rewrite app_nil_r. apply window_cleanup.
    + cbn [andb]. rewrite window_record_times, window_cleanup. reflexivity.
  - intros Hkind Hcap.
    unfold SafeSandbox.check_operation. cbv zeta.
    rewrite <- (window_after_cleanup k g now) in Hcap.
    change (SafeSandbox.policy g)
      with (SafeSandbox.policy (SafeSandbox._cleanup_old_times g now)) in Hcap.
    apply reached_iff in Hcap.
    destruct (SafeSandbox.reached
                (SafeSandbox._operation_times (SafeSandbox._cleanup_old_times g now)) _)
      eqn:Hall.
    { repeat split. }
    destruct k; cbn [SafeSandbox.window SafeSandbox.cap SafeSandbox.of_kind] in Hkind, Hcap.
    + congruence.
    + subst tool_name. rewrite Hcap. repeat split.
    + subst tool_name. rewrite Hcap. repeat split.
  - intros Hbelow.
    assert (Hpruned : forall k', SafeSandbox.of_kind k' tool_name ->
              SafeSandbox.reached
                (SafeSandbox.window k' (SafeSandbox._cleanup_old_times g now))
                (SafeSandbox.cap k' (SafeSandbox.policy g)) = false).
    { intros k' Hk'. apply not_true_iff_false. rewrite reached_iff, window_after_cleanup.
      specialize (Hbelow k' Hk'). lia. }
    assert (Hfresh : forall k', SafeSandbox.of_kind k' tool_name ->
              SafeSandbox.reached
                (SafeSandbox.window k'
                   (SafeSandbox._cleanup_old_times
                      (SafeSandbox.new_guard (SafeSandbox.policy g)) now))
                (SafeSandbox.cap k' (SafeSandbox.policy g)) = false).
    { intros k' Hk'. apply not_true_iff_false. rewrite reached_iff, window_after_cleanup.
      specialize (Hbelow k' Hk'). destruct k'; simpl in *; lia. }
    unfold SafeSandbox.check_operation. cbv zeta.
    change (SafeSandbox.policy (SafeSandbox._cleanup_old_times g now))
      with (SafeSandbox.policy g).
    change (SafeSandbox.policy
              (SafeSandbox._cleanup_old_times
                 (SafeSandbox.new_guard (SafeSandbox.policy g)) now))
      with (SafeSandbox.policy g).
    pose proof (Hpruned SafeSandbox.AllOps I) as Hp0.
    pose proof (Hfresh SafeSandbox.AllOps I) as Hf0.
    cbn [SafeSandbox.window SafeSandbox.cap] in Hp0, Hf0. rewrite Hp0, Hf0.
    destruct (String.eqb tool_name "Write") eqn:Ew.
    + pose proof (proj1 (String.eqb_eq _ _) Ew) as Hw.
      pose proof (Hpruned SafeSandbox.Writes Hw) as Hp1.
      pose proof (Hfresh SafeSandbox.Writes Hw) as Hf1.
      cbn [SafeSandbox.window SafeSandbox.cap] in Hp1, Hf1. rewrite Hp1, Hf1.
      cbn [andb]. subst tool_name. cbn [String.eqb Ascii.eqb Bool.eqb andb].
      destruct (SafeSandbox.check_path_fields cp _ tool_input); [reflexivity |].
      destruct (negb (SafeSandbox.allowed SafeSandbox.ok)); [reflexivity |].
      destruct (negb (SafeSandbox.allowed (ct _))); reflexivity.
    + cbn [andb].
      destruct (String.eqb tool_name "Bash") eqn:Eb.
      * pose proof (proj1 (String.eqb_eq _ _) Eb) as Hb.
        pose proof (Hpruned SafeSandbox.Shell Hb) as Hp2.
        pose proof (Hfresh SafeSandbox.Shell Hb) as Hf2.
        cbn [SafeSandbox.window SafeSandbox.cap] in Hp2, Hf2. rewrite Hp2, Hf2.
        cbn [andb].
        destruct (SafeSandbox.check_path_fields cp _ tool_input); [reflexivity |].
        destruct (negb (SafeSandbox.allowed (cc _))); [reflexivity |].
        destruct (negb (SafeSandbox.allowed SafeSandbox.ok)); reflexivity.
      * cbn [andb].
        destruct (SafeSandbox.check_path_fields cp _ tool_input); [reflexivity |].
        destruct (negb (SafeSandbox.allowed SafeSandbox.ok)); reflexivity.
  - destruct k; reflexivity.
Qed.

(** On [busy_guard], whose ten shell commands were recorded at the seconds
    100 to 109: at the second 110 an eleventh is denied and the windows
    are as they were; at the second 170 the ten are all a minute old, the
    command is allowed and it is alone in the windows. *)
Lemma rate_limit_is_enforced_by_the_guard_witness :
  (SafeSandbox._bash_times
     (fst (SafeSandbox.check_operation SafeSandbox.permissive SafeSandbox.permissive
             SafeSandbox.permissive SafeSandbox.busy_guard "Bash"
             {[ "command"%string := "ls"%string ]} 110))
   = SafeSandbox._bash_times SafeSandbox.busy_guard
   /\ SafeSandbox.allowed
        (snd (SafeSandbox.check_operation SafeSandbox.permissive SafeSandbox.permissive
                SafeSandbox.permissive SafeSandbox.busy_guard "Bash"
                {[ "command"%string := "ls"%string ]} 110)) = false
   /\ SafeSandbox.reason
        (snd (SafeSandbox.check_operation SafeSandbox.permissive SafeSandbox.permissive
                SafeSandbox.permissive SafeSandbox.busy_guard "Bash"
                {[ "command"%string := "ls"%string ]} 110)) = Some SafeSandbox.RATE_LIMIT)
  /\ (SafeSandbox._bash_times
        (fst (SafeSandbox.check_operation SafeSandbox.permissive SafeSandbox.permissive
                SafeSandbox.permissive SafeSandbox.busy_guard "Bash"
                {[ "command"%string := "ls"%string ]} 170))
      = [170%Q]
      /\ snd (SafeSandbox.check_operation SafeSandbox.permissive SafeSandbox.permissive
                SafeSandbox.permissive SafeSandbox.busy_guard "Bash"
                {[ "command"%string := "ls"%string ]} 170)
         = SafeSandbox.ok).
Proof.
  split.
  - destruct (rate_limit_is_enforced_by_the_guard
                SafeSandbox.permissive SafeSandbox.permissive SafeSandbox.permissive
                SafeSandbox.busy_guard SafeSandbox.Shell "Bash"
                {[ "command"%string := "ls"%string ]} 110) as [Hwin [Hdeny _]].
    destruct Hdeny as [Ha [Hr _]]; [reflexivity | vm_compute; discriminate |].
    split; [| split; [exact Ha | exact Hr]].
    cbn [SafeSandbox.window] in Hwin. rewrite Hwin, Ha. vm_compute. reflexivity.
  - destruct (rate_limit_is_enforced_by_the_guard
                SafeSandbox.permissive SafeSandbox.permissive SafeSandbox.permissive
                SafeSandbox.busy_guard SafeSandbox.Shell "Bash"
                {[ "command"%string := "ls"%string ]} 170) as [Hwin [_ [Hbelow _]]].
    assert (Hok : snd (SafeSandbox.check_operation SafeSandbox.permissive
                         SafeSandbox.permissive SafeSandbox.permissive
                         SafeSandbox.busy_guard "Bash"
                         {[ "command"%string := "ls"%string ]} 170)
                  = SafeSandbox.ok).
    { rewrite Hbelow; [reflexivity |].
      intros [| |] _; vm_compute; reflexivity. }
    split; [| exact Hok].
    cbn [SafeSandbox.window] in Hwin. rewrite Hwin, Hok. vm_compute. reflexivity.
Defined.

(** C1 as the specification has it fails for the gateway's check: the
    61st operation in a row, the 21st write in a row and the 11th shell
    command in a row are allowed. *)
Lemma gateway_check_is_not_rate_limited :
  last (check_sequence (LexicalFS.resolve LexicalFS.project_root) LexicalFS.sandbox_root
          LexicalFS.no_paths (replicate 61 ("Task"%string, ∅)))
  = Some (true, NoReason)
  /\ last (check_sequence (LexicalFS.resolve LexicalFS.project_root) LexicalFS.sandbox_root
             LexicalFS.no_paths
             (replicate 21 ("Write"%string,
                            {[ "file_path"%string := "web/backend/sandbox/out.txt"%string ]})))
     = Some (true, NoReason)
  /\ last (check_sequence (LexicalFS.resolve LexicalFS.project_root) LexicalFS.sandbox_root
             LexicalFS.no_paths
             (replicate 11 ("Bash"%string, {[ "command"%string := "ls"%string ]})))
     = Some (true, NoReason).
Proof. repeat split; vm_compute; reflexivity. Qed.

(** Ten shell commands one second apart pass the guard, the eleventh is
    refused, and a minute later the window has rolled on. *)
Example guard_refuses_the_eleventh_shell_command :
  map SafeSandbox.reason
    (snd (SafeSandbox.check_operations (SafeSandbox.new_guard SafeSandbox.default_policy)
            (SafeSandbox.every_second 0 11 "Bash" ++ SafeSandbox.every_second 70 1 "Bash")))
  = (replicate 10 None ++ [Some SafeSandbox.RATE_LIMIT; None])%list.
Proof. vm_compute. reflexivity. Qed.

Example guard_counts_writes_only_for_write :
  map SafeSandbox.allowed
    (snd (SafeSandbox.check_operations (SafeSandbox.new_guard SafeSandbox.default_policy)
            (SafeSandbox.every_second 0 21 "Write" ++ SafeSandbox.every_second 21 1 "Edit")))
  = (replicate 20 true ++ [false; true])%list.
Proof. vm_compute. reflexivity. Qed.

(** ** The sanitizer *)

Lemma re_sub_replacement_is_filter (run : nat) (text : Text) :
  re_sub_replacement run text
  = List.filter (fun c => negb (c =? REPLACEMENT_CHAR)%N) text.
Proof.
  revert run. induction text as [|c rest IH]; intros run; simpl; [reflexivity |].
  destruct (c =? REPLACEMENT_CHAR)%N; simpl.
  - apply IH.
  - f_equal. apply IH.
Qed.

Lemma re_sub_replacement_clean (run : nat) (text : Text) :
  ~ In REPLACEMENT_CHAR (re_sub_replacement run text).
Proof.
  rewrite re_sub_replacement_is_filter. intros H.
  apply filter_In in H. destruct H as [_ H].
  rewrite N.eqb_refl in H. discriminate.
Qed.

Lemma sanitize_utf8_text_clean (text : Text) :
  ~ In REPLACEMENT_CHAR (sanitize_utf8_text text).
Proof.
  unfold sanitize_utf8_text. destruct text as [|c rest]; [intros [] |].
  destruct (existsb (N.eqb REPLACEMENT_CHAR) (c :: rest)) eqn:He; cbn [negb].
  - apply re_sub_replacement_clean.
  - intros H. apply not_true_iff_false in He. apply He.
    apply existsb_exists. exists REPLACEMENT_CHAR. split; [exact H | apply N.eqb_refl].
Qed.

(** The matches of the scan have 1 to 4 characters. *)
Lemma match_lengths_bounded (text : Text) (run : nat) :
  (run <= 4)%nat ->
  Forall (fun n => 1 <= n <= 4)%nat (match_lengths run text).
Proof.
  revert run. induction text as [|c rest IH]; intros run Hrun; simpl.
  - destruct (0 <? run)%nat eqn:H0; constructor; [| constructor].
    apply Nat.ltb_lt in H0. lia.
  - destruct (c =? REPLACEMENT_CHAR)%N.
    + destruct (run <? 4)%nat eqn:H4.
      * apply IH. apply Nat.ltb_lt in H4. lia.
      * apply Nat.ltb_ge in H4. constructor; [lia | apply IH; lia].
    + destruct (0 <? run)%nat eqn:H0.
      * apply Nat.ltb_lt in H0. constructor; [lia | apply IH; lia].
      * apply IH. lia.
Qed.

Lemma text_of_clean (s : string) : ~ In REPLACEMENT_CHAR (text_of s).
Proof.
  unfold text_of. intros H. apply in_map_iff in H.
  destruct H as [a [Ha _]]. pose proof (N_ascii_bounded a) as Hb.
  rewrite Ha in Hb. unfold REPLACEMENT_CHAR in Hb. lia.
Qed.

Lemma retry_notice_clean (retry_count : nat) (delay : Z) :
  ~ In REPLACEMENT_CHAR (retry_notice retry_count delay).
Proof.
  unfold retry_notice. intros H.
  repeat (apply in_app_or in H; destruct H as [H | H]);
    try (apply text_of_clean in H; exact H);
    simpl in H; unfold REPLACEMENT_CHAR in H;
    repeat (destruct H as [H | H]; [discriminate |]); exact H.
Qed.

(** ** The event translator: steps *)

Ltac st_simpl :=
  unfold on_exception, on_stream_end, emit, trace, sleep, frames,
    set_current_text, set_tools_used, set_tokens, set_tool_states,
    set_current_iteration, set_current_depth, set_stop_reason,
    set_hook_events_queue, set_pending_html_files, set_tracer, set_yielded,
    set_slept in *;
  cbn [current_text tools_used total_input_tokens total_output_tokens tool_states
       current_iteration current_depth stop_reason hook_events_queue
       pending_html_files tracer yielded slept fst snd] in *.

Lemma extends_refl (P : Frame -> Prop) (s : State) : extends P s s.
Proof. exists []. split; [symmetry; apply app_nil_r | constructor]. Qed.

Lemma extends_trans (P : Frame -> Prop) (s1 s2 s3 : State) :
  extends P s1 s2 -> extends P s2 s3 -> extends P s1 s3.
Proof.
  intros [n1 [H1 F1]] [n2 [H2 F2]]. exists (n1 ++ n2)%list. split.
  - rewrite H2, H1, app_assoc. reflexivity.
  - apply Forall_app. split; assumption.
Qed.

Lemma extends_emit (P : Frame -> Prop) (f : Frame) (s : State) :
  P f -> extends P s (emit f s).
Proof.
  intros H. exists [(f, status (tracer s))]. split; [reflexivity |].
  constructor; [exact H | constructor].
Qed.

Lemma quiet_refl (s : State) : quiet s s.
Proof. split; [apply extends_refl | auto]. Qed.

Lemma quiet_trans (s1 s2 s3 : State) : quiet s1 s2 -> quiet s2 s3 -> quiet s1 s3.
Proof.
  intros [E1 [T1 [I1 S1]]] [E2 [T2 [I2 S2]]]. split.
  - eapply extends_trans; eassumption.
  - repeat split; congruence.
Qed.

Lemma quiet_emit (f : Frame) (s : State) : plain f -> quiet s (emit f s).
Proof. intros H. split; [apply extends_emit; exact H | auto]. Qed.

Lemma quiet_same_yield (s s' : State) :
  yielded s' = yielded s -> tool_states s' = tool_states s ->
  current_iteration s' = current_iteration s -> slept s' = slept s ->
  quiet s s'.
Proof.
  intros Hy Ht Hi Hs. split; [| auto].
  exists []. split; [rewrite app_nil_r; exact Hy | constructor].
Qed.

Lemma quiet_fold {A : Type} (step : State -> A -> State) (items : list A) (s : State) :
  (forall s x, quiet s (step s x)) -> quiet s (fold_left step items s).
Proof.
  intros Hstep. revert s. induction items as [|x rest IH]; intros s; simpl.
  - apply quiet_refl.
  - eapply quiet_trans; [apply Hstep | apply IH].
Qed.

Ltac quiet_by_computation :=
  apply quiet_same_yield; st_simpl; reflexivity.

Section TranslatorFacts.

Variable resolve : string -> option (list string).
Variable SANDBOX_ROOT : list string.
Variable re_findall : PathPattern -> string -> list string.

Lemma quiet_run_hook (call : HookCall) (s : State) :
  quiet s (run_hook resolve SANDBOX_ROOT re_findall call s).
Proof.
  destruct call as [tool_name tool_input tool_use_id | tool_name has_result tool_use_id];
    unfold run_hook, pre_tool_hook, post_tool_hook.
  - destruct (negb _); [quiet_by_computation |].
    destruct tool_use_id as [tid|]; [| quiet_by_computation].
    destruct (_ && _); quiet_by_computation.
  - destruct tool_use_id as [tid|]; [| quiet_by_computation].
    destruct (_ && _); [| quiet_by_computation].
    st_simpl. destruct (pending_html_files s !! tid); [| quiet_by_computation].
    destruct has_result; quiet_by_computation.
Qed.

Lemma quiet_drain (queue : list HookEvent) (s : State) : quiet s (drain queue s).
Proof.
  revert s. induction queue as [|ev rest IH]; intros s; simpl.
  - quiet_by_computation.
  - eapply quiet_trans; [| apply IH].
    destruct ev; [apply quiet_emit | apply quiet_emit | apply quiet_refl];
      repeat split.
Qed.

Lemma quiet_on_thinking (thinking : Text) (s : State) : quiet s (on_thinking thinking s).
Proof.
  unfold on_thinking. destruct thinking as [|c rest]; [apply quiet_refl |].
  pose proof (sanitize_utf8_text_clean (c :: rest)) as Hclean.
  destruct (sanitize_utf8_text (c :: rest)) as [|d rest']; [apply quiet_refl |].
  eapply quiet_trans; [| apply quiet_emit; repeat split; exact Hclean].
  quiet_by_computation.
Qed.

Lemma quiet_on_text (text : Text) (s : State) : quiet s (on_text text s).
Proof.
  unfold on_text. destruct (_ && _); [| apply quiet_refl].
  pose proof (sanitize_utf8_text_clean (drop (length (current_text s)) text)) as Hclean.
  destruct (sanitize_utf8_text _) as [|d rest']; [apply quiet_refl |].
  eapply quiet_trans; [| apply quiet_emit; repeat split; exact Hclean].
  quiet_by_computation.
Qed.

Lemma quiet_on_tool_result (tool_id : string) (is_error : bool) (s : State) :
  quiet s (on_tool_result tool_id is_error s).
Proof.
  unfold on_tool_result. cbv zeta.
  set (tool_name := match tool_states s !! tool_id with
                    | Some tool_info => name tool_info
                    | None => ""%string
                    end).
  assert (H1 : quiet s (emit (TOOL_RESULT tool_id (status_value is_error))
                          (trace (ev_tool_result tool_id tool_name (status_value is_error)) s))).
  { eapply quiet_trans; [| apply quiet_emit; repeat split]. quiet_by_computation. }
  destruct (_ && _); [| exact H1].
  eapply quiet_trans; [exact H1 |].
  eapply quiet_trans; [apply (quiet_emit (AGENT_COMPLETE tool_id)); repeat split |].
  quiet_by_computation.
Qed.

Lemma quiet_on_success (result : option Text) (usage : option Usage)
    (is_error : bool) (num_turns : Z) (s : State) :
  quiet s (on_success result usage is_error num_turns s).
Proof.
  unfold on_success. cbv zeta.
  set (s1 := set_stop_reason _ s).
  assert (H1 : quiet s s1) by (subst s1; quiet_by_computation).
  set (s2 := match result with Some r => on_text r s1 | None => s1 end).
  assert (H2 : quiet s s2).
  { subst s2. destruct result; [| exact H1].
    eapply quiet_trans; [exact H1 | apply quiet_on_text]. }
  destruct usage as [u|]; [| exact H2].
  eapply quiet_trans; [exact H2 |].
  eapply quiet_trans; [| apply quiet_emit; repeat split].
  quiet_by_computation.
Qed.

End TranslatorFacts.

Lemma drain_keeps (queue : list HookEvent) (s : State) :
  stop_reason (drain queue s) = stop_reason s
  /\ current_text (drain queue s) = current_text s.
Proof.
  revert s. induction queue as [|ev rest IH]; intros s; simpl; [split; reflexivity |].
  destruct (IH (match ev with
                | pre_tool tool_name action => emit (HOOK_PRE_TOOL tool_name action) s
                | post_tool tool_name => emit (HOOK_POST_TOOL tool_name) s
                | html_created _ _ => s
                end)) as [H1 H2].
  rewrite H1, H2. destruct ev; split; reflexivity.
Qed.

(** What a tool-use block does: the iteration counter goes up by one, and
    the text is reset, exactly when [new_iteration] holds; the queued hook
    frames are yielded, then one frame that carries the iteration. *)
Lemma on_tool_use_step (parallel_group_id : option string) (is_parallel_batch : bool)
    (tool_id tool_name : string) (tool_input : ToolInput) (s : State) :
  let s' := on_tool_use parallel_group_id is_parallel_batch tool_id tool_name tool_input s in
  current_iteration s'
  = (if new_iteration s then S (current_iteration s) else current_iteration s)
  /\ current_text s' = (if new_iteration s then [] else current_text s)
  /\ tool_states s' <> ∅
  /\ slept s' = slept s
  /\ stop_reason s' = stop_reason s
  /\ exists pre f st,
       yielded s' = (yielded s ++ pre ++ [(f, st)])%list
       /\ Forall (fun p => plain (fst p)) pre
       /\ terminal f = false /\ clean f
       /\ frame_iteration f = Some (current_iteration s').
Proof.
  unfold on_tool_use. cbv zeta.
  set (s1 := if new_iteration s then _ else s).
  assert (Hi : current_iteration s1
               = if new_iteration s then S (current_iteration s) else current_iteration s)
    by (subst s1; destruct (new_iteration s); reflexivity).
  assert (Ht : current_text s1 = if new_iteration s then [] else current_text s)
    by (subst s1; destruct (new_iteration s); reflexivity).
  assert (Hy : yielded s1 = yielded s) by (subst s1; destruct (new_iteration s); reflexivity).
  assert (Hs : slept s1 = slept s) by (subst s1; destruct (new_iteration s); reflexivity).
  assert (Hr : stop_reason s1 = stop_reason s)
    by (subst s1; destruct (new_iteration s); reflexivity).
  clearbody s1.
  destruct (tool_name =? "Task")%string.
  - st_simpl. rewrite Hi, Ht, Hy, Hs, Hr. repeat split; try reflexivity.
    + apply insert_non_empty.
    + exists [], (AGENT_SPAWN tool_id (default "unknown"%string (tool_input !! "subagent_type"%string))
                    (get tool_input "description")
                    (if new_iteration s then S (current_iteration s) else current_iteration s)
                    (S (current_depth s1))).
      eexists. repeat split; try reflexivity. constructor.
  - match goal with
    | |- context [drain ?q ?s2] =>
        destruct (quiet_drain q s2) as [[new [Hnew Hplain]] [Hts [Hci Hsl]]];
        destruct (drain_keeps q s2) as [Hsr Hct]
    end.
    st_simpl. rewrite Hnew, Hts, Hci, Hsl, Hsr, Hct. st_simpl.
    rewrite Hi, Ht, Hy, Hs, Hr.
    split; [reflexivity |]. split; [reflexivity |].
    split; [apply insert_non_empty |].
    split; [reflexivity |]. split; [reflexivity |].
    exists new. eexists. eexists.
    split; [rewrite <- app_assoc; reflexivity |].
    split; [exact Hplain |]. repeat split.
Qed.

(** ** The event translator: what holds while a turn streams *)

Lemma non_decreasing_snoc (l : list nat) (x : nat) :
  non_decreasing l -> Forall (fun i => i <= x)%nat l -> non_decreasing (l ++ [x]).
Proof.
  induction l as [|a rest IH]; simpl; [auto |].
  intros Hnd Hall. inversion Hall as [|? ? Ha Hrest]; subst.
  destruct rest as [|b rest']; simpl in *.
  - split; [exact Ha | exact I].
  - destruct Hnd as [Hab Hnd]. split; [exact Hab |]. apply IH; assumption.
Qed.

Lemma iterations_of_app (l1 l2 : list Frame) :
  iterations_of (l1 ++ l2) = (iterations_of l1 ++ iterations_of l2)%list.
Proof. apply omap_app. Qed.

Lemma iterations_of_plain (new : list (Frame * string)) :
  Forall (fun p => plain (fst p)) new -> iterations_of (map fst new) = [].
Proof.
  induction 1 as [|p rest [_ [_ Hp]] _ IH]; [reflexivity |].
  unfold iterations_of in *. simpl. rewrite Hp. exact IH.
Qed.

Lemma streaming_extends (P : Frame -> Prop) (s s' : State) :
  (forall f, P f -> terminal f = false /\ clean f) ->
  extends P s s' -> streaming s -> streaming s'.
Proof.
  intros HP [new [Hy Hnew]] Hs. unfold streaming. rewrite Hy.
  apply Forall_app. split; [exact Hs |].
  eapply Forall_impl; [exact Hnew |]. intros p Hp. apply HP. exact Hp.
Qed.

Lemma streaming_quiet (s s' : State) : quiet s s' -> streaming s -> streaming s'.
Proof.
  intros [He _]. apply (streaming_extends plain); [| exact He].
  intros f [Ht [Hc _]]. split; assumption.
Qed.

Lemma iterating_quiet (s s' : State) : quiet s s' -> iterating s -> iterating s'.
Proof.
  intros [[new [Hy Hnew]] [Ht [Hi _]]] Hit. unfold iterating, frames in *.
  rewrite Hy, map_app, iterations_of_app, (iterations_of_plain new Hnew), app_nil_r.
  rewrite Ht, Hi. exact Hit.
Qed.

Lemma streaming_on_tool_use (parallel_group_id : option string) (is_parallel_batch : bool)
    (tool_id tool_name : string) (tool_input : ToolInput) (s : State) :
  streaming s ->
  streaming (on_tool_use parallel_group_id is_parallel_batch tool_id tool_name tool_input s).
Proof.
  intros Hs.
  destruct (on_tool_use_step parallel_group_id is_parallel_batch tool_id tool_name
              tool_input s)
    as [_ [_ [_ [_ [_ [pre [f [st [Hy [Hpre [Hterm [Hclean _]]]]]]]]]]]].
  unfold streaming. rewrite Hy. apply Forall_app. split; [exact Hs |].
  apply Forall_app. split.
  - eapply Forall_impl; [exact Hpre |]. intros p [Ht [Hc _]]. split; assumption.
  - constructor; [split; assumption | constructor].
Qed.

Lemma iterating_on_tool_use (parallel_group_id : option string) (is_parallel_batch : bool)
    (tool_id tool_name : string) (tool_input : ToolInput) (s : State) :
  iterating s ->
  iterating (on_tool_use parallel_group_id is_parallel_batch tool_id tool_name tool_input s).
Proof.
  intros [Hnd [Hall [Hnil Hhead]]].
  destruct (on_tool_use_step parallel_group_id is_parallel_batch tool_id tool_name
              tool_input s)
    as [Hi [_ [Hne [_ [_ [pre [f [st [Hy [Hpre [_ [_ Hf]]]]]]]]]]]].
  set (s' := on_tool_use _ _ _ _ _ s) in *.
  assert (Hle : (current_iteration s <= current_iteration s')%nat)
    by (rewrite Hi; destruct (new_iteration s); lia).
  assert (Hits : iterations_of (frames s')
                 = (iterations_of (frames s) ++ [current_iteration s'])%list).
  { unfold frames. rewrite Hy, !map_app, !iterations_of_app.
    rewrite (iterations_of_plain pre Hpre). unfold iterations_of at 2. simpl.
    rewrite Hf. reflexivity. }
  assert (Hall' : Forall (fun i => i <= current_iteration s')%nat (iterations_of (frames s))).
  { eapply Forall_impl; [exact Hall |]. intros i Hi'. simpl in Hi'. lia. }
  unfold iterating. rewrite Hits. repeat split.
  - apply non_decreasing_snoc; assumption.
  - apply Forall_app. split; [exact Hall' | constructor; [lia | constructor]].
  - destruct (iterations_of (frames s)); discriminate.
  - destruct (iterations_of (frames s)); discriminate.
  - intros i Hhd. destruct (iterations_of (frames s)) as [|a rest] eqn:Hl.
    + simpl in Hhd. injection Hhd as <-.
      destruct (Hnil eq_refl) as [Hempty Hzero].
      rewrite Hi. unfold new_iteration. rewrite Hempty, Hzero.
      rewrite bool_decide_eq_true_2 by reflexivity. reflexivity.
    + apply Hhead. exact Hhd.
Qed.

Lemma keeps_refl (s : State) : keeps s s.
Proof.
  split; [auto | split; [auto | split; [reflexivity | apply extends_refl]]].
Qed.

Lemma keeps_trans (s1 s2 s3 : State) : keeps s1 s2 -> keeps s2 s3 -> keeps s1 s3.
Proof.
  intros [A1 [A2 [A3 A4]]] [B1 [B2 [B3 B4]]].
  split; [auto | split; [auto | split; [congruence |]]].
  eapply extends_trans; eassumption.
Qed.

Lemma keeps_of_quiet (s s' : State) : quiet s s' -> keeps s s'.
Proof.
  intros Hq. split; [apply streaming_quiet; exact Hq |].
  split; [apply iterating_quiet; exact Hq |].
  split; [apply Hq |].
  destruct Hq as [[new [Hy Hnew]] _]. exists new. split; [exact Hy |].
  eapply Forall_impl; [exact Hnew |]. intros; exact I.
Qed.

Lemma keeps_on_tool_use (parallel_group_id : option string) (is_parallel_batch : bool)
    (tool_id tool_name : string) (tool_input : ToolInput) (s : State) :
  keeps s (on_tool_use parallel_group_id is_parallel_batch tool_id tool_name tool_input s).
Proof.
  split; [apply streaming_on_tool_use |].
  split; [apply iterating_on_tool_use |].
  destruct (on_tool_use_step parallel_group_id is_parallel_batch tool_id tool_name
              tool_input s)
    as [_ [_ [_ [Hs [_ [pre [f [st [Hy _]]]]]]]]].
  split; [exact Hs |].
  exists (pre ++ [(f, st)])%list. split; [exact Hy |].
  apply Forall_forall. intros; exact I.
Qed.

Lemma keeps_on_block (parallel_group_id : option string) (is_parallel_batch : bool)
    (s : State) (block : Block) :
  keeps s (on_block parallel_group_id is_parallel_batch s block).
Proof.
  destruct block as [thinking | text | tool_id tool_name tool_input | tool_id c is_error |];
    simpl.
  - apply keeps_of_quiet, quiet_on_thinking.
  - apply keeps_of_quiet, quiet_on_text.
  - apply keeps_on_tool_use.
  - apply keeps_of_quiet, quiet_on_tool_result.
  - apply keeps_refl.
Qed.

Lemma keeps_fold {A : Type} (step : State -> A -> State) (items : list A) (s : State) :
  (forall s x, keeps s (step s x)) -> keeps s (fold_left step items s).
Proof.
  intros Hstep. revert s. induction items as [|x rest IH]; intros s; simpl.
  - apply keeps_refl.
  - eapply keeps_trans; [apply Hstep | apply IH].
Qed.

Lemma keeps_on_message (s : State) (msg : Message) : keeps s (on_message s msg).
Proof.
  unfold on_message. cbv zeta.
  assert (Hq : keeps s (trace ev_raw_message s))
    by (apply keeps_of_quiet; quiet_by_computation).
  destruct msg as [| result usage is_error num_turns | group_id content |];
    try exact Hq; (eapply keeps_trans; [exact Hq |]).
  - apply keeps_of_quiet, quiet_on_success.
  - apply keeps_fold. intros. apply keeps_on_block.
Qed.

Lemma keeps_on_inbound
    (resolve : string -> option (list string)) (SANDBOX_ROOT : list string)
    (re_findall : PathPattern -> string -> list string)
    (s : State) (item : list HookCall * Message) :
  keeps s (on_inbound resolve SANDBOX_ROOT re_findall s item).
Proof.
  unfold on_inbound. eapply keeps_trans; [| apply keeps_on_message].
  apply keeps_of_quiet, quiet_fold. intros. apply quiet_run_hook.
Qed.

(** ** The retry loop *)

Lemma open_stream_spec (failures : list Exn) :
  forall (retry_count : nat) (last_error : option Exn) (s : State),
    (retry_count <= MAX_RETRIES)%nat ->
    let k := Nat.min (MAX_RETRIES - retry_count) (leading_retryable failures) in
    let r := open_stream retry_count last_error failures s in
    yielded (fst r)
    = (yielded s
       ++ map (fun j => (TEXT_DELTA (retry_notice j (retry_delay j)), status (tracer s)))
            (seq (S retry_count) k))%list
    /\ slept (fst r) = (slept s ++ map retry_delay (seq (S retry_count) k))%list
    /\ snd r = failures !! k
    /\ tool_states (fst r) = tool_states s
    /\ current_iteration (fst r) = current_iteration s.
Proof.
  induction failures as [|e rest IH]; intros retry_count last_error s Hle; cbv zeta;
    assert (Hb : (retry_count <=? MAX_RETRIES)%nat = true) by (apply Nat.leb_le; exact Hle).
  - cbn [open_stream leading_retryable]. rewrite Hb, Nat.min_0_r. simpl.
    rewrite !app_nil_r. auto.
  - cbn [open_stream leading_retryable]. rewrite Hb. cbn [negb].
    destruct (retryable e).
    2:{ rewrite Nat.min_0_r. simpl. rewrite !app_nil_r. auto. }
    destruct (S retry_count <=? MAX_RETRIES)%nat eqn:Hnext.
    + apply Nat.leb_le in Hnext.
      replace (Nat.min (MAX_RETRIES - retry_count) (S (leading_retryable rest)))
        with (S (Nat.min (MAX_RETRIES - S retry_count) (leading_retryable rest))) by lia.
      match goal with
      | |- context [open_stream (S retry_count) (Some e) rest ?s3] =>
          destruct (IH (S retry_count) (Some e) s3 Hnext) as [Hy [Hs [Ho [Ht Hi]]]]
      end.
      rewrite Hy, Hs, Ho, Ht, Hi. st_simpl. cbn [seq map lookup list_lookup].
      rewrite <- !app_assoc. auto.
    + apply Nat.leb_gt in Hnext.
      replace (Nat.min (MAX_RETRIES - retry_count) (S (leading_retryable rest)))
        with 0%nat by lia.
      simpl. rewrite !app_nil_r. auto.
Qed.

(** The frames and the sleeps of the turn once the retry loop is left:
    the session configuration, then one notice per retry. *)
Lemma opened (failures : list Exn) :
  let k := Nat.min MAX_RETRIES (leading_retryable failures) in
  let r := open_stream 0 None failures configured in
  yielded (fst r)
  = (SESSION_CONFIG MAX_TURNS, "running"%string)
    :: map (fun j => (TEXT_DELTA (retry_notice j (retry_delay j)), "running"%string)) (seq 1 k)
  /\ slept (fst r) = map retry_delay (seq 1 k)
  /\ snd r = failures !! k
  /\ streaming (fst r)
  /\ iterating (fst r).
Proof.
  cbv zeta.
  destruct (open_stream_spec failures 0 None configured (Nat.le_0_l _))
    as [Hy [Hs [Ho [Ht Hi]]]].
  rewrite Nat.sub_0_r in *.
  set (k := Nat.min MAX_RETRIES (leading_retryable failures)) in *.
  set (r := open_stream 0 None failures configured) in *.
  change (yielded configured) with [(SESSION_CONFIG MAX_TURNS, "running"%string)] in Hy.
  change (status (tracer configured)) with "running"%string in Hy.
  change (slept configured) with (@nil Z) in Hs.
  change (tool_states configured) with (∅ : gmap string ToolInfo) in Ht.
  change (current_iteration configured) with 0%nat in Hi.
  simpl in Hy, Hs.
  split; [exact Hy |]. split; [exact Hs |]. split; [exact Ho |].
  assert (Hplain : Forall (fun p : Frame * string => plain (fst p)) (yielded (fst r))).
  { rewrite Hy. constructor; [repeat split |].
    apply Forall_forall. intros p Hp. apply list_elem_of_In, in_map_iff in Hp.
    destruct Hp as [j [<- _]]. repeat split. apply retry_notice_clean. }
  split.
  - eapply Forall_impl; [exact Hplain |]. intros p [H1 [H2 _]]. split; assumption.
  - assert (Hits : iterations_of (frames (fst r)) = [])
      by (apply iterations_of_plain; exact Hplain).
    unfold iterating. rewrite Hits, Ht, Hi. repeat split; try constructor.
    intros i Hh. discriminate.
Qed.

(** Every turn runs up to a state from which it ends, either through
    the exception handler or through the end of the [try] block. *)
Lemma run_shape
    (resolve : string -> option (list string)) (SANDBOX_ROOT : list string)
    (re_findall : PathPattern -> string -> list string)
    (failures : list Exn) (inbound : list (list HookCall * Message))
    (stream_error : option Exn) :
  let k := Nat.min MAX_RETRIES (leading_retryable failures) in
  let run := process_agent_stream resolve SANDBOX_ROOT re_findall failures inbound
               stream_error in
  exists s,
    streaming s /\ iterating s
    /\ slept s = map retry_delay (seq 1 k)
    /\ (exists new,
          yielded s
          = (((SESSION_CONFIG MAX_TURNS, "running"%string)
              :: map (fun j => (TEXT_DELTA (retry_notice j (retry_delay j)), "running"%string))
                   (seq 1 k)) ++ new)%list)
    /\ ((exists e,
           (failures !! k = Some e \/ (failures !! k = None /\ stream_error = Some e))
           /\ run = on_exception e s)
        \/ (failures !! k = None /\ stream_error = None
            /\ s = fold_left (on_inbound resolve SANDBOX_ROOT re_findall) inbound
                     (fst (open_stream 0 None failures configured))
            /\ run = on_stream_end s)).
Proof.
  cbv zeta. destruct (opened failures) as [Hy [Hs [Ho [Hst Hit]]]].
  unfold process_agent_stream. fold configured.
  destruct (open_stream 0 None failures configured) as [s1 out] eqn:Hopen.
  cbn [fst snd] in *.
  destruct out as [e|].
  - exists s1. split; [exact Hst |]. split; [exact Hit |]. split; [exact Hs |].
    split; [exists []; rewrite app_nil_r; exact Hy |].
    left. exists e. split; [left; symmetry; exact Ho | reflexivity].
  - pose proof (keeps_fold (on_inbound resolve SANDBOX_ROOT re_findall) inbound s1
                  (keeps_on_inbound resolve SANDBOX_ROOT re_findall))
      as [K1 [K2 [K3 [new [K4 _]]]]].
    exists (fold_left (on_inbound resolve SANDBOX_ROOT re_findall) inbound s1).
    split; [auto |]. split; [auto |]. split; [congruence |].
    split; [exists new; rewrite K4, Hy; reflexivity |].
    destruct stream_error as [e|].
    + left. exists e. split; [right; split; [symmetry; exact Ho | reflexivity] | reflexivity].
    + right. split; [symmetry; exact Ho |]. auto.
Qed.

(** ** The turn as a whole *)


(** C6.  The sanitizer leaves no replacement character in any text,
    whatever the length of the runs of them, and no [text_delta] or
    [thinking_delta] frame of a turn contains one. *)
Theorem no_replacement_character_is_emitted
    (resolve : string -> option (list string)) (SANDBOX_ROOT : list string)
    (re_findall : PathPattern -> string -> list string)
    (failures : list Exn) (inbound : list (list HookCall * Message))
    (stream_error : option Exn) (text : Text) :
  Forall (fun c => c <> REPLACEMENT_CHAR) (sanitize_utf8_text text)
  /\ Forall clean
       (frames (process_agent_stream resolve SANDBOX_ROOT re_findall failures inbound
                  stream_error)).
Proof.
  split.
  - apply Forall_forall. intros c Hc ->.
    apply list_elem_of_In in Hc. exact (sanitize_utf8_text_clean text Hc).
  - destruct (run_shape resolve SANDBOX_ROOT re_findall failures inbound stream_error)
      as [s [Hst [_ [_ [_ Hend]]]]].
    assert (Hbody : Forall clean (map fst (yielded s))).
    { apply Forall_map. eapply Forall_impl; [exact Hst |]. intros p [_ H]. exact H. }
    destruct Hend as [[e [_ ->]] | [_ [_ [_ ->]]]]; st_simpl;
      rewrite map_app; apply Forall_app; (split; [exact Hbody |]);
      constructor; try exact I; constructor.
Qed.

Example sanitize_long_run :
  sanitize_utf8_text
    ([23457; 65533; 65533; 65533; 65533; 65533; 65533; 65533; 65533; 65533; 26680; 65533]%N)
  = [23457; 26680]%N.
Proof. reflexivity. Qed.

Example matches_of_a_run_of_nine :
  match_lengths 0
    ([23457; 65533; 65533; 65533; 65533; 65533; 65533; 65533; 65533; 65533; 26680; 65533]%N)
  = [4; 4; 1; 1]%nat.
Proof. reflexivity. Qed.


(** ** Iterations *)

Lemma new_iteration_spec (s : State) :
  new_iteration s = bool_decide (tool_states s = ∅ \/ current_text s <> []).
Proof.
  unfold new_iteration.
  destruct (bool_decide (tool_states s = ∅)) eqn:Ht;
    destruct (bool_decide (current_text s = [])) eqn:Hc; simpl; symmetry;
    try apply bool_decide_eq_true in Ht; try apply bool_decide_eq_false in Ht;
    try apply bool_decide_eq_true in Hc; try apply bool_decide_eq_false in Hc;
    try (apply bool_decide_eq_true; tauto).
  apply bool_decide_eq_false. tauto.
Qed.

(** C4, as the code has it.  A tool-use block increments
    [current_iteration] and resets [current_text] exactly when
    [tool_states] is empty (no tool was started in the turn yet) or
    [current_text] is not empty; otherwise both stay as they are.  Across
    the tool frames of a turn the [iteration] field never decreases, and
    the first tool frame of a turn carries iteration 1. *)
Theorem iteration_advances_on_first_tool_or_after_text
    (resolve : string -> option (list string)) (SANDBOX_ROOT : list string)
    (re_findall : PathPattern -> string -> list string)
    (failures : list Exn) (inbound : list (list HookCall * Message))
    (stream_error : option Exn)
    (parallel_group_id : option string) (is_parallel_batch : bool)
    (tool_id tool_name : string) (tool_input : ToolInput) (s : State) :
  let s' := on_tool_use parallel_group_id is_parallel_batch tool_id tool_name tool_input s in
  let advance := bool_decide (tool_states s = ∅ \/ current_text s <> []) in
  let its :=
    iterations_of
      (frames (process_agent_stream resolve SANDBOX_ROOT re_findall failures inbound
                 stream_error)) in
  current_iteration s' = (if advance then S (current_iteration s) else current_iteration s)
  /\ current_text s' = (if advance then [] else current_text s)
  /\ non_decreasing its
  /\ (head its = None \/ head its = Some 1%nat).
Proof.
  cbv zeta. rewrite <- new_iteration_spec.
  destruct (on_tool_use_step parallel_group_id is_parallel_batch tool_id tool_name
              tool_input s) as [Hi [Ht _]].
  split; [exact Hi |]. split; [exact Ht |].
  destruct (run_shape resolve SANDBOX_ROOT re_findall failures inbound stream_error)
    as [s0 [_ [[Hnd [_ [_ Hhead]]] [_ [_ Hend]]]]].
  assert (Hits : iterations_of
                   (frames (process_agent_stream resolve SANDBOX_ROOT re_findall failures
                              inbound stream_error))
                 = iterations_of (frames s0)).
  { destruct Hend as [[e [_ ->]] | [_ [_ [_ ->]]]]; st_simpl;
      rewrite map_app, iterations_of_app; cbn; apply app_nil_r. }
  rewrite Hits. split; [exact Hnd |].
  destruct (head (iterations_of (frames s0))) as [i|] eqn:Hh; [| left; reflexivity].
  right. rewrite (Hhead i eq_refl). reflexivity.
Qed.

(** C4 as the specification has it fails.  At the first tool of a turn
    [tool_states] and [current_text] are both empty, and the iteration is
    incremented; at the second tool of the same message [tool_states] is
    not empty, [current_text] is empty, and the iteration is not
    incremented: two tools of one message carry the same iteration. *)
Lemma iteration_does_not_follow_non_empty_tool_states :
  (new_iteration_as_specified initial_state = false
   /\ current_iteration after_first_tool = S (current_iteration initial_state))
  /\ (new_iteration_as_specified after_first_tool = true
      /\ current_iteration
           (on_tool_use (Some "group"%string) true "toolu_2" "Read"
              {[ "file_path"%string := "LICENSE"%string ]} after_first_tool)
         = current_iteration after_first_tool)
  /\ frames
       (demo_turn []
          [([], ContentMessage "group"
                  [ToolUseBlock "toolu_1" "Read" {[ "file_path"%string := "README.md"%string ]};
                   ToolUseBlock "toolu_2" "Read" {[ "file_path"%string := "LICENSE"%string ]}])]
          None)
     = [SESSION_CONFIG 30; TOOL_START "toolu_1" "Read" 1; TOOL_START "toolu_2" "Read" 1;
        MESSAGE_COMPLETE ["Read"%string] 0 None].
Proof. repeat split; vm_compute; reflexivity. Qed.

(** ** Stop reason *)

Lemma stop_reason_run_hook
    (resolve : string -> option (list string)) (SANDBOX_ROOT : list string)
    (re_findall : PathPattern -> string -> list string) (call : HookCall) (s : State) :
  stop_reason (run_hook resolve SANDBOX_ROOT re_findall call s) = stop_reason s.
Proof.
  destruct call as [tool_name tool_input tool_use_id | tool_name has_result tool_use_id];
    unfold run_hook, pre_tool_hook, post_tool_hook; cbv zeta.
  - destruct (negb _); [reflexivity |].
    destruct tool_use_id as [tid|]; [| reflexivity].
    destruct (_ && _); reflexivity.
  - destruct tool_use_id as [tid|]; [| reflexivity].
    destruct (_ && _); [| reflexivity].
    st_simpl. destruct (pending_html_files s !! tid); [| reflexivity].
    destruct has_result; reflexivity.
Qed.

Lemma stop_reason_on_text (text : Text) (s : State) :
  stop_reason (on_text text s) = stop_reason s.
Proof.
  unfold on_text. destruct (_ && _); [| reflexivity].
  destruct (sanitize_utf8_text _); reflexivity.
Qed.

Lemma stop_reason_on_block (parallel_group_id : option string) (is_parallel_batch : bool)
    (s : State) (block : Block) :
  stop_reason (on_block parallel_group_id is_parallel_batch s block) = stop_reason s.
Proof.
  destruct block as [thinking | text | tool_id tool_name tool_input | tool_id c is_error |];
    simpl.
  - unfold on_thinking. destruct thinking; [reflexivity |].
    destruct (sanitize_utf8_text _); reflexivity.
  - apply stop_reason_on_text.
  - apply on_tool_use_step.
  - unfold on_tool_result. cbv zeta. destruct (_ && _); reflexivity.
  - reflexivity.
Qed.

Lemma fold_left_preserves {A B : Type} (proj : State -> B) (step : State -> A -> State)
    (items : list A) (s : State) :
  (forall s x, proj (step s x) = proj s) -> proj (fold_left step items s) = proj s.
Proof.
  intros Hstep. revert s. induction items as [|x rest IH]; intros s; simpl; [reflexivity |].
  rewrite IH. apply Hstep.
Qed.

Lemma stop_reason_on_success (result : option Text) (usage : option Usage)
    (is_error : bool) (num_turns : Z) (s : State) :
  stop_reason (on_success result usage is_error num_turns s)
  = Some (infer_stop_reason is_error num_turns).
Proof.
  unfold on_success. cbv zeta.
  destruct usage; destruct result; st_simpl; rewrite ?stop_reason_on_text; reflexivity.
Qed.

Lemma stop_reason_on_inbound
    (resolve : string -> option (list string)) (SANDBOX_ROOT : list string)
    (re_findall : PathPattern -> string -> list string)
    (s : State) (item : list HookCall * Message) :
  stop_reason (on_inbound resolve SANDBOX_ROOT re_findall s item)
  = match snd item with
    | SuccessMessage _ _ is_error num_turns => Some (infer_stop_reason is_error num_turns)
    | _ => stop_reason s
    end.
Proof.
  unfold on_inbound, on_message. cbv zeta.
  assert (Hh : stop_reason
                 (fold_left (fun s call => run_hook resolve SANDBOX_ROOT re_findall call s)
                    (fst item) s) = stop_reason s).
  { apply (fold_left_preserves stop_reason). intros.
    apply stop_reason_run_hook. }
  destruct (snd item) as [| result usage is_error num_turns | group_id content |].
  - exact Hh.
  - apply stop_reason_on_success.
  - rewrite (fold_left_preserves stop_reason); [exact Hh |].
    intros. apply stop_reason_on_block.
  - exact Hh.
Qed.

Lemma stop_reason_after_other_messages
    (resolve : string -> option (list string)) (SANDBOX_ROOT : list string)
    (re_findall : PathPattern -> string -> list string)
    (items : list (list HookCall * Message)) (s : State) :
  Forall (fun item => is_success (snd item) = false) items ->
  stop_reason (fold_left (on_inbound resolve SANDBOX_ROOT re_findall) items s)
  = stop_reason s.
Proof.
  intros Hall. revert s. induction Hall as [|item rest Hitem _ IH]; intros s; simpl.
  - reflexivity.
  - rewrite IH, stop_reason_on_inbound.
    destruct (snd item); try reflexivity. discriminate.
Qed.

(** C7.  When the stream is opened and ends without an exception, and
    its last completion message of subtype [success] reports [is_error]
    and [num_turns], the turn ends with a [message_complete] frame whose
    [stop_reason] is [error] if [is_error] is set, else [max_turns] if
    [num_turns] is at least [MAX_TURNS] = 30, else [end_turn]. *)
Theorem stop_reason_is_inferred_and_carried
    (resolve : string -> option (list string)) (SANDBOX_ROOT : list string)
    (re_findall : PathPattern -> string -> list string)
    (failures : list Exn) (before after : list (list HookCall * Message))
    (hooks : list HookCall) (result : option Text) (usage : option Usage)
    (is_error : bool) (num_turns : Z) :
  failures !! Nat.min MAX_RETRIES (leading_retryable failures) = None ->
  Forall (fun item => is_success (snd item) = false) after ->
  let run :=
    process_agent_stream resolve SANDBOX_ROOT re_findall failures
      (before ++ (hooks, SuccessMessage result usage is_error num_turns) :: after) None in
  exists tools total reason,
    last (frames run) = Some (MESSAGE_COMPLETE tools total (Some reason))
    /\ MAX_TURNS = 30%Z
    /\ (is_error = true -> reason = "error"%string)
    /\ (is_error = false -> (MAX_TURNS <= num_turns)%Z -> reason = "max_turns"%string)
    /\ (is_error = false -> (num_turns < MAX_TURNS)%Z -> reason = "end_turn"%string).
Proof.
  intros Hopen Hafter run. subst run.
  destruct (run_shape resolve SANDBOX_ROOT re_findall failures
              (before ++ (hooks, SuccessMessage result usage is_error num_turns) :: after)
              None)
    as [s [_ [_ [_ [_ Hend]]]]].
  destruct Hend as [[e [[Hw | [_ Hw]] _]] | [_ [_ [Hs ->]]]]; [congruence | discriminate |].
  assert (Hreason : stop_reason s = Some (infer_stop_reason is_error num_turns)).
  { rewrite Hs, fold_left_app. cbn [fold_left].
    rewrite stop_reason_after_other_messages by exact Hafter.
    rewrite stop_reason_on_inbound. reflexivity. }
  exists (remove_dups (tools_used s)), (total_input_tokens s + total_output_tokens s)%Z,
    (infer_stop_reason is_error num_turns).
  split.
  { st_simpl. rewrite map_app, Hreason. apply last_snoc. }
  split; [reflexivity |].
  unfold infer_stop_reason. repeat split.
  - intros ->. reflexivity.
  - intros -> Hle. apply Z.leb_le in Hle. rewrite Hle. reflexivity.
  - intros -> Hlt. apply Z.leb_gt in Hlt. rewrite Hlt. reflexivity.
Qed.

Lemma stop_reason_is_inferred_and_carried_witness :
  exists tools total reason,
    last (frames
            (demo_turn [ConnectionError]
               ([([], InitMessage);
                 ([], ContentMessage "group" [TextBlock (text_of "done")])]
                ++ ([], SuccessMessage (Some (text_of "done"))
                          (Some {| input_tokens := 1200; output_tokens := 80 |}) false 30)
                   :: [([], OtherMessage)])
               None))
    = Some (MESSAGE_COMPLETE tools total (Some reason))
    /\ MAX_TURNS = 30%Z
    /\ (false = true -> reason = "error"%string)
    /\ (false = false -> (MAX_TURNS <= 30)%Z -> reason = "max_turns"%string)
    /\ (false = false -> (30 < MAX_TURNS)%Z -> reason = "end_turn"%string).
Proof.
  apply (stop_reason_is_inferred_and_carried
           (LexicalFS.resolve LexicalFS.project_root) LexicalFS.sandbox_root
           LexicalFS.no_paths [ConnectionError]
           [([], InitMessage); ([], ContentMessage "group" [TextBlock (text_of "done")])]
           [([], OtherMessage)] []).
  - reflexivity.
  - repeat constructor.
Defined.

Example turn_that_reaches_max_turns :
  frames
    (demo_turn []
       [([], ContentMessage "group" [TextBlock (text_of "ok")]);
        ([], SuccessMessage None (Some {| input_tokens := 10; output_tokens := 5 |}) false 30)]
       None)
  = [SESSION_CONFIG 30; TEXT_DELTA (text_of "ok"); COST_UPDATE 10 5 15;
     MESSAGE_COMPLETE [] 15 (Some "max_turns"%string)].
Proof. vm_compute. reflexivity. Qed.

Example turn_whose_runtime_reports_an_error :
  last (frames (demo_turn [] [([], SuccessMessage None None true 3)] None))
  = Some (MESSAGE_COMPLETE [] 0 (Some "error"%string)).
Proof. vm_compute. reflexivity. Qed.

Example turn_without_completion_message :
  last (frames (demo_turn [] [([], ContentMessage "group" [TextBlock (text_of "ok")])] None))
  = Some (MESSAGE_COMPLETE [] 0 None).
Proof. vm_compute. reflexivity. Qed.

Example retries_then_success :
  frames (demo_turn [ConnectionError; TimeoutError]
            [([], SuccessMessage (Some (text_of "hi")) None false 1)] None)
  = [SESSION_CONFIG 30;
     TEXT_DELTA (retry_notice 1 1); TEXT_DELTA (retry_notice 2 2);
     TEXT_DELTA (text_of "hi");
     MESSAGE_COMPLETE [] 0 (Some "end_turn"%string)].
Proof. vm_compute. reflexivity. Qed.

Example four_failures_end_the_turn :
  frames (demo_turn [ConnectionError; OSError; TimeoutError; ConnectionError] [] None)
  = [SESSION_CONFIG 30;
     TEXT_DELTA (retry_notice 1 1); TEXT_DELTA (retry_notice 2 2);
     TEXT_DELTA (retry_notice 3 4);
     ERROR ConnectionError]
  /\ slept (demo_turn [ConnectionError; OSError; TimeoutError; ConnectionError] [] None)
     = [1; 2; 4]%Z
  /\ status (tracer (demo_turn [ConnectionError; OSError; TimeoutError; ConnectionError]
                       [] None))
     = "error"%string.
Proof. repeat split; vm_compute; reflexivity. Qed.

Example failure_that_is_not_retriable :
  frames (demo_turn [OtherException "ValueError"] [] None)
  = [SESSION_CONFIG 30; ERROR (OtherException "ValueError")].
Proof. vm_compute. reflexivity. Qed.

(** A [ConnectionResetError] is a [ConnectionError], a [FileNotFoundError]
    an [OSError]: both are retried, and so is a failure of a class that
    has one of them among several bases. *)
Example failure_of_a_subclass_is_retried :
  slept (demo_turn [Subclass "ConnectionResetError" [ConnectionError];
                    Subclass "FileNotFoundError" [OSError];
                    Subclass "GatewayError"
                      [OtherException "ValueError";
                       Subclass "BrokenPipeError" [ConnectionError]]] [] None)
  = [1; 2; 4]%Z
  /\ map terminal
       (frames (demo_turn [Subclass "ConnectionResetError" [ConnectionError];
                           Subclass "FileNotFoundError" [OSError];
                           Subclass "GatewayError"
                             [OtherException "ValueError";
                              Subclass "BrokenPipeError" [ConnectionError]]] [] None))
     = [false; false; false; false; true]
  /\ frames (demo_turn [Subclass "KeyError" [OtherException "LookupError"]] [] None)
     = [SESSION_CONFIG 30; ERROR (Subclass "KeyError" [OtherException "LookupError"])].
Proof. repeat split; vm_compute; reflexivity. Qed.

(** ** Metrics *)

(** C10, as the code has it.  A snapshot of a collector whose request
    total is 0 and which holds no latency and no first-token sample, as
    right after [reset], reports a success rate of 100 and 0 for every
    latency and first-token statistic (average, minimum, maximum and the
    percentiles); no division or indexing takes place. *)
Theorem snapshot_of_an_idle_collector (m : Metrics.MetricsCollector) (now : Q) :
  Metrics.total m = 0%Z ->
  Metrics._latencies m = [] ->
  Metrics._ttft m = [] ->
  Metrics.success_rate (Metrics.get_metrics m now) = 100%Q
  /\ Metrics.latency_ms (Metrics.get_metrics m now)
     = {| Metrics.avg := 0; Metrics.min := 0; Metrics.max := 0;
          Metrics.p50 := 0; Metrics.p95 := 0; Metrics.p99 := 0 |}
  /\ Metrics.ttft_ms (Metrics.get_metrics m now)
     = {| Metrics.ttft_avg := 0; Metrics.ttft_min := 0; Metrics.ttft_max := 0;
          Metrics.ttft_p50 := 0; Metrics.ttft_p95 := 0 |}.
Proof.
  intros Htotal Hlat Httft. unfold Metrics.get_metrics.
  cbn [Metrics.success_rate Metrics.latency_ms Metrics.ttft_ms].
  rewrite Htotal, Hlat, Httft. repeat split.
Qed.

Lemma snapshot_of_an_idle_collector_witness :
  Metrics.success_rate (Metrics.get_metrics (Metrics.reset 1000) 1002) = 100%Q
  /\ Metrics.latency_ms (Metrics.get_metrics (Metrics.reset 1000) 1002)
     = {| Metrics.avg := 0; Metrics.min := 0; Metrics.max := 0;
          Metrics.p50 := 0; Metrics.p95 := 0; Metrics.p99 := 0 |}
  /\ Metrics.ttft_ms (Metrics.get_metrics (Metrics.reset 1000) 1002)
     = {| Metrics.ttft_avg := 0; Metrics.ttft_min := 0; Metrics.ttft_max := 0;
          Metrics.ttft_p50 := 0; Metrics.ttft_p95 := 0 |}.
Proof.
  apply (snapshot_of_an_idle_collector (Metrics.reset 1000) 1002); reflexivity.
Defined.

(** Tokens, tool calls and errors recorded without a request do not change
    that. *)
Example idle_collector_with_other_counters :
  Metrics.success_rate
    (Metrics.get_metrics
       (fold_left Metrics.apply_op
          [Metrics.op_tokens 120 30; Metrics.op_tool_call "Read"; Metrics.op_error "ValueError"]
          (Metrics.reset 0)) 5)
  = 100%Q.
Proof. reflexivity. Qed.

(** One request of 250.1 ms out of one. *)
Example one_request_snapshot :
  Metrics.latency_ms
    (Metrics.get_metrics
       (fold_left Metrics.apply_op
          [Metrics.op_request_start 100; Metrics.op_request_complete 100 (3501 # 10) true]
          (Metrics.reset 0)) 5)
  = {| Metrics.avg := 2501 # 10; Metrics.min := 2501 # 10; Metrics.max := 2501 # 10;
       Metrics.p50 := 2501 # 10; Metrics.p95 := 2501 # 10; Metrics.p99 := 2501 # 10 |}.
Proof. vm_compute. reflexivity. Qed.

(** C10 as the specification has it fails: the request total alone does
    not tell that the statistics are 0.  A [reset] between the start of a
    request and its first token and completion leaves a collector whose
    request total is 0 and whose snapshot reports a latency of 300 ms and
    a first-token time of 50 ms. *)
Lemma request_completed_after_a_reset :
  Metrics.total (fold_left Metrics.apply_op reset_during_a_request (Metrics.reset 0)) = 0%Z
  /\ Metrics.requests_total
       (Metrics.get_metrics
          (fold_left Metrics.apply_op reset_during_a_request (Metrics.reset 0)) 5) = 0%Z
  /\ Metrics.latency_ms
       (Metrics.get_metrics
          (fold_left Metrics.apply_op reset_during_a_request (Metrics.reset 0)) 5)
     = {| Metrics.avg := 300; Metrics.min := 300; Metrics.max := 300;
          Metrics.p50 := 300; Metrics.p95 := 300; Metrics.p99 := 300 |}
  /\ Metrics.ttft_ms
       (Metrics.get_metrics
          (fold_left Metrics.apply_op reset_during_a_request (Metrics.reset 0)) 5)
     = {| Metrics.ttft_avg := 50; Metrics.ttft_min := 50; Metrics.ttft_max := 50;
          Metrics.ttft_p50 := 50; Metrics.ttft_p95 := 50 |}.
Proof. repeat split; vm_compute; reflexivity. Qed.

(** * Further properties of the code *)

(** ** The sandbox check beyond the read and write families *)

Lemma first_outside_none
    (resolve : string -> option (list string)) (SANDBOX_ROOT : list string)
    (matches : list string) :
  first_outside resolve SANDBOX_ROOT matches = None
  <-> forall path_str, In path_str matches ->
        is_path_in_sandbox resolve SANDBOX_ROOT (normalize_drive path_str) = true.
Proof.
  induction matches as [|p rest IH]; simpl.
  - split; [intros _ q [] | reflexivity].
  - destruct (is_path_in_sandbox resolve SANDBOX_ROOT (normalize_drive p)) eqn:Hin.
    + rewrite IH. split.
      * intros H q [<- | Hq]; [exact Hin | apply H; exact Hq].
      * intros H q Hq. apply H. right. exact Hq.
    + split; [discriminate |]. intros H.
      rewrite (H p (or_introl eq_refl)) in Hin. discriminate.
Qed.

Lemma first_outside_patterns_none
    (resolve : string -> option (list string)) (SANDBOX_ROOT : list string)
    (re_findall : PathPattern -> string -> list string)
    (patterns : list PathPattern) (command : string) :
  first_outside_patterns resolve SANDBOX_ROOT re_findall patterns command = None
  <-> forall pattern path_str,
        In pattern patterns -> In path_str (re_findall pattern command) ->
        is_path_in_sandbox resolve SANDBOX_ROOT (normalize_drive path_str) = true.
Proof.
  induction patterns as [|p rest IH]; simpl.
  - split; [intros _ q s [] | reflexivity].
  - destruct (first_outside resolve SANDBOX_ROOT (re_findall p command)) as [bad|] eqn:Hf.
    + split; [discriminate |]. intros H.
      assert (Hnone : first_outside resolve SANDBOX_ROOT (re_findall p command) = None).
      { apply first_outside_none. intros s Hs. apply (H p s); [left; reflexivity | exact Hs]. }
      congruence.
    + rewrite first_outside_none in Hf. rewrite IH. split.
      * intros H q s [<- | Hq] Hs; [apply Hf; exact Hs | apply (H q s); assumption].
      * intros H q s Hq Hs. apply (H q s); [right; exact Hq | exact Hs].
Qed.

(** X1.  A [Bash] call is allowed exactly when its command contains
    neither [../] nor [..\] and every path that the three path
    expressions find in it lies, once a Git Bash drive prefix is rewritten,
    inside the sandbox. *)
Theorem bash_allowed_iff_no_traversal_and_paths_inside
    (resolve : string -> option (list string)) (SANDBOX_ROOT : list string)
    (re_findall : PathPattern -> string -> list string) (tool_input : ToolInput) :
  fst (sandbox_check_tool resolve SANDBOX_ROOT re_findall "Bash" tool_input) = true
  <-> (~ occurs "../" (get tool_input "command")
       /\ ~ occurs "..\" (get tool_input "command")
       /\ forall pattern path_str,
            In pattern path_patterns ->
            In path_str (re_findall pattern (get tool_input "command")) ->
            is_path_in_sandbox resolve SANDBOX_ROOT (normalize_drive path_str) = true).
Proof.
  change (sandbox_check_tool resolve SANDBOX_ROOT re_findall "Bash" tool_input)
    with (let command := get tool_input "command" in
          if PyStr.contains "../" command || PyStr.contains "..\" command
          then (false, PathTraversal)
          else match first_outside_patterns resolve SANDBOX_ROOT re_findall path_patterns
                       command with
               | Some path_str => (false, CommandPathOutsideSandbox path_str)
               | None => (true, NoReason)
               end).
  cbv zeta. rewrite <- first_outside_patterns_none, <- !contains_spec.
  destruct (PyStr.contains "../" (get tool_input "command"));
    destruct (PyStr.contains "..\" (get tool_input "command")); cbn [orb fst];
    try (split; [discriminate | intros [H1 [H2 _]]; congruence]).
  destruct (first_outside_patterns resolve SANDBOX_ROOT re_findall path_patterns
              (get tool_input "command")); cbn [fst].
  - split; [discriminate | intros [_ [_ H]]; discriminate].
  - split; [intros _ | reflexivity]. repeat split; discriminate.
Qed.

(** X2.  Only [Write], [Edit] and [Bash] consult the file system: for
    every other tool name the verdict is the same whatever the files, the
    sandbox root and the paths found are.  A read is therefore not
    confined to the sandbox. *)
Theorem only_writes_and_shell_consult_the_file_system
    (resolve resolve' : string -> option (list string))
    (SANDBOX_ROOT SANDBOX_ROOT' : list string)
    (re_findall re_findall' : PathPattern -> string -> list string)
    (tool_name : string) (tool_input : ToolInput) :
  ~ In tool_name ["Write"; "Edit"; "Bash"]%string ->
  sandbox_check_tool resolve SANDBOX_ROOT re_findall tool_name tool_input
  = sandbox_check_tool resolve' SANDBOX_ROOT' re_findall' tool_name tool_input.
Proof.
  intros Hnot. unfold sandbox_check_tool.
  destruct (PyStr.mem tool_name ["Read"; "Glob"; "Grep"]%string); [reflexivity |].
  destruct (PyStr.mem tool_name ["Write"; "Edit"]%string) eqn:Hw.
  { apply mem_spec in Hw. exfalso. apply Hnot. simpl in *. tauto. }
  destruct (tool_name =? "Bash")%string eqn:Hb; [| reflexivity].
  apply String.eqb_eq in Hb. exfalso. apply Hnot. rewrite Hb. simpl. tauto.
Qed.

Lemma only_writes_and_shell_consult_the_file_system_witness :
  sandbox_check_tool (LexicalFS.resolve LexicalFS.project_root) LexicalFS.sandbox_root
    LexicalFS.no_paths "Read" {[ "file_path"%string := "/etc/hostname"%string ]}
  = sandbox_check_tool (fun _ => None) [] (fun _ _ => ["/etc"%string]) "Read"
      {[ "file_path"%string := "/etc/hostname"%string ]}.
Proof.
  apply only_writes_and_shell_consult_the_file_system.
  simpl. intros [H | [H | [H | []]]]; discriminate.
Defined.

(** X3.  A tool whose name is none of [Read], [Glob], [Grep], [Write],
    [Edit], [Bash] is allowed with no check at all; the comparison is by
    exact name, so a name in another case is such a tool. *)
Theorem unlisted_tool_is_allowed
    (resolve : string -> option (list string)) (SANDBOX_ROOT : list string)
    (re_findall : PathPattern -> string -> list string)
    (tool_name : string) (tool_input : ToolInput) :
  ~ In tool_name ["Read"; "Glob"; "Grep"; "Write"; "Edit"; "Bash"]%string ->
  sandbox_check_tool resolve SANDBOX_ROOT re_findall tool_name tool_input = (true, NoReason).
Proof.
  intros Hnot. unfold sandbox_check_tool.
  destruct (PyStr.mem tool_name ["Read"; "Glob"; "Grep"]%string) eqn:Hr.
  { apply mem_spec in Hr. exfalso. apply Hnot. simpl in *. tauto. }
  destruct (PyStr.mem tool_name ["Write"; "Edit"]%string) eqn:Hw.
  { apply mem_spec in Hw. exfalso. apply Hnot. simpl in *. tauto. }
  destruct (tool_name =? "Bash")%string eqn:Hb.
  { apply String.eqb_eq in Hb. exfalso. apply Hnot. rewrite Hb. simpl. tauto. }
  destruct (tool_name =? "Task")%string; reflexivity.
Qed.

Lemma unlisted_tool_is_allowed_witness :
  LexicalFS.check "mcp__tavily__tavily_search" {[ "query"%string := "rocq"%string ]}
  = (true, NoReason)
  /\ LexicalFS.check "write" {[ "file_path"%string := "/etc/passwd"%string ]}
     = (true, NoReason).
Proof.
  split; apply unlisted_tool_is_allowed; simpl;
    intros [H | [H | [H | [H | [H | [H | []]]]]]]; discriminate.
Defined.

(** ** The windows of the guard *)

(** X4.  After a check at the instant [now], each window of the guard
    holds the instants it held that are less than 60 seconds old, followed
    by [now] exactly when the operation was allowed and is counted in that
    window (every tool in the window of all operations, [Write] alone in
    the write window, [Bash] alone in the shell window): a refused
    operation is not recorded, and an [Edit] is not counted as a write. *)
Theorem guard_window_after_a_check
    (cp cc ct : string -> SafeSandbox.Outcome) (g : SafeSandbox.SecurityGuard)
    (k : SafeSandbox.Kind) (tool_name : string) (tool_input : ToolInput) (now : Q) :
  SafeSandbox.window k
    (fst (SafeSandbox.check_operation cp cc ct g tool_name tool_input now))
  = (kept now (SafeSandbox.window k g)
     ++ (if SafeSandbox.allowed
              (snd (SafeSandbox.check_operation cp cc ct g tool_name tool_input now))
            && counted_in k tool_name
         then [now] else []))%list.
Proof.
  destruct (check_operation_cases cp cc ct g tool_name tool_input now)
    as [[Ha Hg] | [Ha [Hg _]]]; rewrite Ha, Hg.
  - cbn [andb]. rewrite app_nil_r. apply window_cleanup.
  - cbn [andb]. rewrite window_record_times, window_cleanup. reflexivity.
Qed.

Lemma kept_recent (now : Q) (times : list Q) :
  Forall (fun t => (now - 60 < t)%Q) (kept now times).
Proof.
  induction times as [|t rest IH]; simpl; [constructor |].
  destruct (Qlt_le_dec (now - 60) t); [constructor; assumption | exact IH].
Qed.

Lemma kept_length (now : Q) (times : list Q) :
  (length (kept now times) <= length times)%nat.
Proof.
  induction times as [|t rest IH]; simpl; [lia |].
  destruct (Qlt_le_dec (now - 60) t); simpl; lia.
Qed.

(** X5.  After a check at the instant [now], every instant left in a
    window of the guard is less than 60 seconds old. *)
Theorem guard_keeps_only_the_last_minute
    (cp cc ct : string -> SafeSandbox.Outcome) (g : SafeSandbox.SecurityGuard)
    (k : SafeSandbox.Kind) (tool_name : string) (tool_input : ToolInput) (now : Q) :
  Forall (fun t => (now - 60 < t)%Q)
    (SafeSandbox.window k
       (fst (SafeSandbox.check_operation cp cc ct g tool_name tool_input now))).
Proof.
  destruct (check_operation_cases cp cc ct g tool_name tool_input now)
    as [[_ Hg] | [_ [Hg _]]]; rewrite Hg.
  - rewrite window_cleanup. apply kept_recent.
  - rewrite window_record_times, window_cleanup.
    apply Forall_app. split; [apply kept_recent |].
    destruct (counted_in k tool_name); constructor; [| constructor].
    rewrite <- (Qplus_0_r now) at 2. unfold Qminus.
    apply Qplus_lt_r. reflexivity.
Qed.

(** X6.  A window that holds no more instants than its cap still does
    after any check: the guard never records more operations of a kind
    than the cap of that kind. *)
Theorem guard_window_stays_within_its_cap
    (cp cc ct : string -> SafeSandbox.Outcome) (g : SafeSandbox.SecurityGuard)
    (k : SafeSandbox.Kind) (tool_name : string) (tool_input : ToolInput) (now : Q) :
  (Z.of_nat (length (SafeSandbox.window k g)) <= SafeSandbox.cap k (SafeSandbox.policy g))%Z ->
  (Z.of_nat
     (length (SafeSandbox.window k
                (fst (SafeSandbox.check_operation cp cc ct g tool_name tool_input now))))
   <= SafeSandbox.cap k
        (SafeSandbox.policy
           (fst (SafeSandbox.check_operation cp cc ct g tool_name tool_input now))))%Z.
Proof.
  intros Hcap.
  pose proof (kept_length now (SafeSandbox.window k g)) as Hlen.
  destruct (check_operation_cases cp cc ct g tool_name tool_input now)
    as [[Ha Hg] | [Ha [Hg Hbelow]]]; rewrite Hg.
  - rewrite window_cleanup. simpl. lia.
  - rewrite window_record_times, window_cleanup.
    change (SafeSandbox.policy (SafeSandbox.record_times _ tool_name now))
      with (SafeSandbox.policy g).
    destruct (counted_in k tool_name) eqn:Hk.
    + specialize (Hbelow k Hk). rewrite window_cleanup in Hbelow.
      change (SafeSandbox.policy (SafeSandbox._cleanup_old_times g now))
        with (SafeSandbox.policy g) in Hbelow.
      unfold SafeSandbox.reached in Hbelow. apply Z.leb_gt in Hbelow.
      rewrite length_app. simpl. lia.
    + rewrite app_nil_r. lia.
Qed.

Lemma guard_window_stays_within_its_cap_witness :
  (Z.of_nat
     (length (SafeSandbox.window SafeSandbox.Shell
                (fst (SafeSandbox.check_operation SafeSandbox.permissive SafeSandbox.permissive
                        SafeSandbox.permissive SafeSandbox.busy_guard "Bash"
                        {[ "command"%string := "ls"%string ]} 130))))
   <= SafeSandbox.cap SafeSandbox.Shell
        (SafeSandbox.policy
           (fst (SafeSandbox.check_operation SafeSandbox.permissive SafeSandbox.permissive
                   SafeSandbox.permissive SafeSandbox.busy_guard "Bash"
                   {[ "command"%string := "ls"%string ]} 130))))%Z.
Proof.
  apply guard_window_stays_within_its_cap. vm_compute. discriminate.
Defined.

(** ** The sanitizer, exactly *)

Lemma filter_without_replacement (text : Text) :
  existsb (N.eqb REPLACEMENT_CHAR) text = false ->
  List.filter (fun c => negb (c =? REPLACEMENT_CHAR)%N) text = text.
Proof.
  induction text as [|c rest IH]; cbn [existsb List.filter]; [reflexivity |].
  intros H. apply orb_false_iff in H. destruct H as [H1 H2].
  rewrite N.eqb_sym in H1. rewrite H1. cbn [negb].
  rewrite IH by exact H2. reflexivity.
Qed.

(** X7.  The sanitizer returns its text with the replacement characters
    taken out and every other character kept, in order; applying it twice
    changes nothing more, and the result is never longer than the
    text. *)
Theorem sanitizer_removes_exactly_the_replacement_characters (text : Text) :
  sanitize_utf8_text text
  = List.filter (fun c => negb (c =? REPLACEMENT_CHAR)%N) text
  /\ sanitize_utf8_text (sanitize_utf8_text text) = sanitize_utf8_text text
  /\ (length (sanitize_utf8_text text) <= length text)%nat.
Proof.
  assert (Hfilter : forall t : Text,
             sanitize_utf8_text t
             = List.filter (fun c => negb (c =? REPLACEMENT_CHAR)%N) t).
  { intros t. unfold sanitize_utf8_text. destruct t as [|c rest]; [reflexivity |].
    destruct (existsb (N.eqb REPLACEMENT_CHAR) (c :: rest)) eqn:He; cbn [negb].
    - apply re_sub_replacement_is_filter.
    - symmetry. apply filter_without_replacement. exact He. }
  split; [apply Hfilter |]. split.
  - rewrite !Hfilter.
    set (keep := fun c : N => negb (c =? REPLACEMENT_CHAR)%N).
    induction text as [|c rest IH]; simpl; [reflexivity |].
    destruct (keep c) eqn:Hk; simpl; rewrite ?Hk, IH; reflexivity.
  - rewrite Hfilter. apply List.filter_length_le.
Qed.

(** ** The statistics of a trace *)

Lemma recount_snoc (evs : list TraceEvent) (ev : TraceEvent) :
  recount (evs ++ [ev]) = update_stats (recount evs) ev.
Proof.
  unfold recount.
  rewrite !List.filter_app, !map_app, !length_app, list_max_app, list_sum_app.
  destruct ev as [ | | | d | th | tid nm it | a b c | a b | l | e | a d e | a n
                 | tn r | tn | tn | ];
    cbn -[Nat.ltb]; rewrite ?Nat.add_0_r, ?Nat.max_0_r, ?app_nil_r, ?Nat.add_1_r;
    try reflexivity.
  destruct (list_max (map event_iteration evs) <? it)%nat eqn:Hlt.
  - apply Nat.ltb_lt in Hlt. rewrite Nat.max_r by lia.
    destruct (nm =? "Task")%string; cbn -[Nat.ltb];
      rewrite ?Nat.add_1_r, ?Nat.add_0_r; reflexivity.
  - apply Nat.ltb_ge in Hlt. rewrite Nat.max_l by lia.
    destruct (nm =? "Task")%string; cbn -[Nat.ltb];
      rewrite ?Nat.add_1_r, ?Nat.add_0_r; reflexivity.
Qed.

Lemma tracer_call_recounts (t : TraceLogger) (c : TracerCall) :
  stats t = recount (events t) ->
  stats (tracer_call t c) = recount (events (tracer_call t c)).
Proof.
  intros H. destruct c as [ev | e |]; simpl.
  - rewrite recount_snoc, H. reflexivity.
  - rewrite recount_snoc, H. reflexivity.
  - exact H.
Qed.

(** X8.  Whatever is logged on a fresh trace logger, its statistics are
    those of its list of events: [tool_calls] is the number of
    [tool_start] events, [sub_agents] the number of those whose tool is
    [Task], [iterations] the largest iteration they carry, [errors],
    [sandbox_blocks], [hooks_triggered] and [thinking_blocks] the numbers
    of events of these kinds, and [thinking_chars] the total length of the
    logged thinking; so [sub_agents] never exceeds [tool_calls]. *)
Theorem trace_statistics_count_the_events (calls : list TracerCall) :
  stats (fold_left tracer_call calls new_tracer)
  = recount (events (fold_left tracer_call calls new_tracer))
  /\ (sub_agents (stats (fold_left tracer_call calls new_tracer))
      <= tool_calls (stats (fold_left tracer_call calls new_tracer)))%nat.
Proof.
  assert (H : stats (fold_left tracer_call calls new_tracer)
              = recount (events (fold_left tracer_call calls new_tracer))).
  { assert (Hgen : forall t, stats t = recount (events t) ->
                     stats (fold_left tracer_call calls t)
                     = recount (events (fold_left tracer_call calls t))).
    { induction calls as [|c rest IH]; intros t Ht; simpl; [exact Ht |].
      apply IH. apply tracer_call_recounts. exact Ht. }
    apply Hgen. reflexivity. }
  split; [exact H |]. rewrite H. unfold recount. cbn [sub_agents tool_calls].
  generalize (events (fold_left tracer_call calls new_tracer)). intros evs.
  induction evs as [|ev rest IH]; simpl; [lia |].
  destruct ev as [ | | | d | th | tid nm it | a b c | a b | l | e | a d e | a n
                 | tn r | tn | tn | ]; simpl; try exact IH.
  destruct (nm =? "Task")%string; simpl; lia.
Qed.

(** X9.  A trace only grows: after any calls on a trace logger, the
    events it held are still there, in the same order, at the head of its
    list. *)
Theorem trace_events_are_only_appended (t : TraceLogger) (calls : list TracerCall) :
  events t `prefix_of` events (fold_left tracer_call calls t).
Proof.
  revert t. induction calls as [|c rest IH]; intros t; simpl; [reflexivity |].
  etransitivity; [| apply IH].
  destruct c as [ev | e |]; simpl; try reflexivity; apply prefix_app_r; reflexivity.
Qed.

(** ** The counters of the metrics collector *)

(** X10.  On a collector that was reset and then used in any way, the
    successes and the errors add up to the number of latency samples (every
    completed request is counted once, as a success or as an error), and
    no request counter is negative. *)
Theorem every_completion_is_counted_once (start : Q) (ops : list Metrics.Op) :
  let m := fold_left Metrics.apply_op ops (Metrics.reset start) in
  (Metrics.success m + Metrics.error m = Z.of_nat (length (Metrics._latencies m)))%Z
  /\ (0 <= Metrics.total m)%Z /\ (0 <= Metrics.success m)%Z /\ (0 <= Metrics.error m)%Z.
Proof.
  cbv zeta.
  assert (Hgen : forall m,
             ((Metrics.success m + Metrics.error m
               = Z.of_nat (length (Metrics._latencies m)))%Z
              /\ (0 <= Metrics.total m)%Z /\ (0 <= Metrics.success m)%Z
              /\ (0 <= Metrics.error m)%Z) ->
             let m' := fold_left Metrics.apply_op ops m in
             (Metrics.success m' + Metrics.error m'
              = Z.of_nat (length (Metrics._latencies m')))%Z
             /\ (0 <= Metrics.total m')%Z /\ (0 <= Metrics.success m')%Z
             /\ (0 <= Metrics.error m')%Z).
  { induction ops as [|op rest IH]; intros m Hm; simpl; [exact Hm |].
    apply IH. destruct Hm as [H1 [H2 [H3 H4]]].
    destruct op as [now | now_ms | st now_ms | st now_ms ok | i o | tool | err]; simpl;
      try (repeat split; assumption || lia).
    rewrite length_app. simpl. destruct ok; repeat split; lia. }
  apply Hgen. simpl. repeat split; lia.
Qed.

(** X11.  An operation other than a reset, and that records no negative
    number of tokens, lowers none of the request total, the number of
    completed requests and the two token totals. *)
Theorem metrics_counters_only_grow (m : Metrics.MetricsCollector) (op : Metrics.Op) :
  accumulates op ->
  (Metrics.total m <= Metrics.total (Metrics.apply_op m op))%Z
  /\ (Metrics.success m + Metrics.error m
      <= Metrics.success (Metrics.apply_op m op) + Metrics.error (Metrics.apply_op m op))%Z
  /\ (Metrics.total_input m <= Metrics.total_input (Metrics.apply_op m op))%Z
  /\ (Metrics.total_output m <= Metrics.total_output (Metrics.apply_op m op))%Z.
Proof.
  destruct op as [now | now_ms | st now_ms | st now_ms ok | i o | tool | err]; simpl;
    intros Hop; try contradiction; try (repeat split; lia).
  destruct ok; repeat split; lia.
Qed.

Lemma metrics_counters_only_grow_witness :
  (Metrics.total (Metrics.reset 0)
   <= Metrics.total (Metrics.apply_op (Metrics.reset 0) (Metrics.op_tokens 1200 80)))%Z
  /\ (Metrics.success (Metrics.reset 0) + Metrics.error (Metrics.reset 0)
      <= Metrics.success (Metrics.apply_op (Metrics.reset 0) (Metrics.op_tokens 1200 80))
         + Metrics.error (Metrics.apply_op (Metrics.reset 0) (Metrics.op_tokens 1200 80)))%Z
  /\ (Metrics.total_input (Metrics.reset 0)
      <= Metrics.total_input
           (Metrics.apply_op (Metrics.reset 0) (Metrics.op_tokens 1200 80)))%Z
  /\ (Metrics.total_output (Metrics.reset 0)
      <= Metrics.total_output
           (Metrics.apply_op (Metrics.reset 0) (Metrics.op_tokens 1200 80)))%Z.
Proof.
  apply (metrics_counters_only_grow (Metrics.reset 0) (Metrics.op_tokens 1200 80)).
  simpl. lia.
Defined.

Lemma count_of_bump (key name : string) (d : list (string * Z)) :
  count_of name (Metrics.bump key d)
  = (count_of name d + (if String.eqb key name then 1 else 0))%Z.
Proof.
  induction d as [|[k v] rest IH]; simpl.
  - destruct (key =? name)%string; lia.
  - destruct (k =? key)%string eqn:Hk; simpl.
    + apply String.eqb_eq in Hk. subst k.
      destruct (key =? name)%string; lia.
    + destruct (k =? name)%string eqn:Hn; [| exact IH].
      apply String.eqb_eq in Hn. subst k.
      rewrite String.eqb_sym in Hk. rewrite Hk. lia.
Qed.

Lemma keys_of_bump (key : string) (d : list (string * Z)) :
  map fst (Metrics.bump key d)
  = (map fst d ++ (if existsb (fun k => String.eqb k key) (map fst d) then [] else [key]))%list.
Proof.
  induction d as [|[k v] rest IH]; simpl; [reflexivity |].
  destruct (k =? key)%string; simpl.
  - rewrite app_nil_r. reflexivity.
  - rewrite IH. reflexivity.
Qed.

(** X12.  Recording a call of a tool raises the count kept for that tool
    by one (from 0 if it had none) and leaves every other count as it
    was; the tools stay in the order in which they were first recorded, a
    new one going last. *)
Theorem recording_a_tool_call_counts_it (m : Metrics.MetricsCollector)
    (tool_name name : string) :
  count_of name (Metrics._tool_calls (Metrics.record_tool_call m tool_name))
  = (count_of name (Metrics._tool_calls m)
     + (if String.eqb tool_name name then 1 else 0))%Z
  /\ map fst (Metrics._tool_calls (Metrics.record_tool_call m tool_name))
     = (map fst (Metrics._tool_calls m)
        ++ (if existsb (fun k => String.eqb k tool_name) (map fst (Metrics._tool_calls m))
            then [] else [tool_name]))%list.
Proof. split; [apply count_of_bump | apply keys_of_bump]. Qed.

(** ** The most called tools *)

Lemma insert_by_count_perm (x : string * Z) (l : list (string * Z)) :
  Permutation (Metrics.insert_by_count x l) (x :: l).
Proof.
  induction l as [|y rest IH]; simpl; [reflexivity |].
  destruct (snd y <? snd x)%Z; [reflexivity |].
  rewrite IH. apply perm_swap.
Qed.

Lemma insert_by_count_sorted (x : string * Z) (l : list (string * Z)) :
  StronglySorted (fun a b => (snd b <= snd a)%Z) l ->
  StronglySorted (fun a b => (snd b <= snd a)%Z) (Metrics.insert_by_count x l).
Proof.
  induction l as [|y rest IH]; simpl; intros Hs.
  - constructor; constructor.
  - inversion Hs as [|? ? Hrest Hall]; subst.
    destruct (snd y <? snd x)%Z eqn:Hlt.
    + apply Z.ltb_lt in Hlt. constructor; [exact Hs |].
      constructor; [lia |].
      eapply List.Forall_impl; [| exact Hall]. intros z Hz. simpl in Hz. lia.
    + apply Z.ltb_ge in Hlt. constructor; [apply IH; exact Hrest |].
      apply List.Forall_forall. intros z Hz.
      apply (Permutation_in _ (insert_by_count_perm x rest)) in Hz.
      destruct Hz as [<- | Hz]; [exact Hlt |].
      rewrite List.Forall_forall in Hall. apply Hall. exact Hz.
Qed.

Lemma by_count_spec (items : list (string * Z)) :
  Permutation (Metrics.by_count items) items
  /\ StronglySorted (fun a b => (snd b <= snd a)%Z) (Metrics.by_count items).
Proof.
  unfold Metrics.by_count.
  assert (Hgen : forall acc,
             StronglySorted (fun a b => (snd b <= snd a)%Z) acc ->
             Permutation
               (fold_left (fun acc x => Metrics.insert_by_count x acc) items acc)
               (acc ++ items)
             /\ StronglySorted (fun a b => (snd b <= snd a)%Z)
                  (fold_left (fun acc x => Metrics.insert_by_count x acc) items acc)).
  { induction items as [|x rest IH]; intros acc Hacc; simpl.
    - rewrite app_nil_r. split; [reflexivity | exact Hacc].
    - destruct (IH (Metrics.insert_by_count x acc) (insert_by_count_sorted x acc Hacc))
        as [Hp Hs].
      split; [| exact Hs]. rewrite Hp, insert_by_count_perm.
      simpl. apply Permutation_middle. }
  destruct (Hgen [] (SSorted_nil _)) as [Hp Hs]. split; [exact Hp | exact Hs].
Qed.

Lemma strongly_sorted_app_inv {A : Type} (R : A -> A -> Prop) (l1 l2 : list A) :
  StronglySorted R (l1 ++ l2) ->
  StronglySorted R l1 /\ StronglySorted R l2
  /\ forall a b, In a l1 -> In b l2 -> R a b.
Proof.
  induction l1 as [|x rest IH]; simpl; intros Hs.
  - split; [constructor |]. split; [exact Hs |]. intros a b [].
  - inversion Hs as [|? ? Hrest Hall]; subst.
    destruct (IH Hrest) as [H1 [H2 H3]].
    rewrite List.Forall_forall in Hall.
    split.
    + constructor; [exact H1 |]. apply List.Forall_forall. intros z Hz.
      apply Hall. apply in_or_app. left. exact Hz.
    + split; [exact H2 |]. intros a b [<- | Ha] Hb.
      * apply Hall. apply in_or_app. right. exact Hb.
      * apply H3; assumption.
Qed.

(** X13.  The tool calls of a snapshot are at most ten entries of the
    collector's counters, from the largest count to the smallest; with the
    entries left out they make up the whole of the counters, and no entry
    left out has a larger count than an entry shown. *)
Theorem snapshot_shows_the_most_called_tools (m : Metrics.MetricsCollector) (now : Q) :
  let top := Metrics.tool_calls (Metrics.get_metrics m now) in
  (length top <= 10)%nat
  /\ StronglySorted (fun a b => (snd b <= snd a)%Z) top
  /\ exists others,
       Permutation (top ++ others) (Metrics._tool_calls m)
       /\ forall a b, In a top -> In b others -> (snd b <= snd a)%Z.
Proof.
  cbv zeta. cbn [Metrics.tool_calls Metrics.get_metrics].
  destruct (by_count_spec (Metrics._tool_calls m)) as [Hp Hs].
  rewrite <- (take_drop 10 (Metrics.by_count (Metrics._tool_calls m))) in Hp, Hs.
  destruct (strongly_sorted_app_inv _ _ _ Hs) as [H1 [_ H3]].
  split; [rewrite length_take; lia |].
  split; [exact H1 |].
  exists (drop 10 (Metrics.by_count (Metrics._tool_calls m))).
  split; [exact Hp | exact H3].
Qed.

(** ** Percentiles *)

Lemma insert_sorted_in (x y : Q) (l : list Q) :
  In y (Metrics.insert_sorted x l) <-> x = y \/ In y l.
Proof.
  induction l as [|z rest IH]; simpl; [tauto |].
  destruct (Qle_bool x z); simpl; [tauto |]. rewrite IH. tauto.
Qed.

Lemma insert_sorted_length (x : Q) (l : list Q) :
  length (Metrics.insert_sorted x l) = S (length l).
Proof.
  induction l as [|z rest IH]; simpl; [reflexivity |].
  destruct (Qle_bool x z); simpl; [reflexivity | rewrite IH; reflexivity].
Qed.

Lemma insert_sorted_sorted (x : Q) (l : list Q) :
  StronglySorted Qle l -> StronglySorted Qle (Metrics.insert_sorted x l).
Proof.
  induction l as [|z rest IH]; simpl; intros Hs.
  - constructor; constructor.
  - inversion Hs as [|? ? Hrest Hall]; subst.
    destruct (Qle_bool x z) eqn:Hle.
    + apply Qle_bool_iff in Hle. constructor; [exact Hs |].
      constructor; [exact Hle |].
      eapply List.Forall_impl; [| exact Hall]. intros w Hw. simpl in Hw.
      eapply Qle_trans; eassumption.
    + assert (Hzx : (z <= x)%Q).
      { apply Qlt_le_weak, Qnot_le_lt. intros H. apply Qle_bool_iff in H. congruence. }
      constructor; [apply IH; exact Hrest |].
      apply List.Forall_forall. intros w Hw. apply insert_sorted_in in Hw.
      destruct Hw as [<- | Hw]; [exact Hzx |].
      rewrite List.Forall_forall in Hall. apply Hall. exact Hw.
Qed.

Lemma sorted_spec (data : list Q) :
  StronglySorted Qle (Metrics.sorted data)
  /\ length (Metrics.sorted data) = length data
  /\ forall x, In x (Metrics.sorted data) <-> In x data.
Proof.
  unfold Metrics.sorted. induction data as [|x rest [IH1 [IH2 IH3]]]; simpl.
  - split; [constructor |]. split; [reflexivity | tauto].
  - split; [apply insert_sorted_sorted; exact IH1 |].
    split; [rewrite insert_sorted_length, IH2; reflexivity |].
    intros y. rewrite insert_sorted_in, IH3. split; intros [H | H]; auto.
Qed.

Lemma nth_of_sorted (l : list Q) (i j : nat) :
  StronglySorted Qle l -> (i <= j)%nat -> (j < length l)%nat ->
  (nth i l 0 <= nth j l 0)%Q.
Proof.
  intros Hs. revert i j. induction Hs as [|x rest Hrest IH Hall]; intros i j Hij Hj.
  - simpl in Hj. lia.
  - destruct j as [|j]; [replace i with 0%nat by lia; apply Qle_refl |].
    destruct i as [|i]; simpl in *.
    + rewrite List.Forall_forall in Hall. apply Hall. apply nth_In. lia.
    + apply IH; lia.
Qed.

Lemma minimum_spec (rest : list Q) (a : Q) :
  (Metrics.minimum a rest <= a)%Q
  /\ forall y, In y rest -> (Metrics.minimum a rest <= y)%Q.
Proof.
  unfold Metrics.minimum. revert a.
  induction rest as [|b rest IH]; intros a; simpl.
  - split; [apply Qle_refl | intros y []].
  - destruct (Qle_bool b a) eqn:Hba.
    + apply Qle_bool_iff in Hba. destruct (IH b) as [H1 H2]. split.
      * eapply Qle_trans; eassumption.
      * intros y [<- | Hy]; [exact H1 | apply H2; exact Hy].
    + assert (Hab : (a <= b)%Q).
      { apply Qlt_le_weak, Qnot_le_lt. intros H. apply Qle_bool_iff in H. congruence. }
      destruct (IH a) as [H1 H2]. split; [exact H1 |].
      intros y [<- | Hy]; [eapply Qle_trans; eassumption | apply H2; exact Hy].
Qed.

Lemma maximum_spec (rest : list Q) (a : Q) :
  (a <= Metrics.maximum a rest)%Q
  /\ forall y, In y rest -> (y <= Metrics.maximum a rest)%Q.
Proof.
  unfold Metrics.maximum. revert a.
  induction rest as [|b rest IH]; intros a; simpl.
  - split; [apply Qle_refl | intros y []].
  - destruct (Qle_bool a b) eqn:Hab.
    + apply Qle_bool_iff in Hab. destruct (IH b) as [H1 H2]. split.
      * eapply Qle_trans; eassumption.
      * intros y [<- | Hy]; [exact H1 | apply H2; exact Hy].
    + assert (Hba : (b <= a)%Q).
      { apply Qlt_le_weak, Qnot_le_lt. intros H. apply Qle_bool_iff in H. congruence. }
      destruct (IH a) as [H1 H2]. split; [exact H1 |].
      intros y [<- | Hy]; [eapply Qle_trans; eassumption | apply H2; exact Hy].
Qed.

Lemma extremes_bound (data : list Q) (x : Q) :
  In x data -> (Metrics.lowest data <= x <= Metrics.highest data)%Q.
Proof.
  destruct data as [|a rest]; [intros [] |]. simpl.
  destruct (minimum_spec rest a) as [L1 L2]. destruct (maximum_spec rest a) as [M1 M2].
  intros [<- | Hx]; split; auto.
Qed.

Lemma interpolation_bounds (a b t : Q) :
  (a <= b)%Q -> (0 <= t)%Q -> (t <= 1)%Q ->
  (a <= a + (b - a) * t <= b)%Q.
Proof. intros. split; nra. Qed.

(** X14. With exact arithmetic, [_percentile] of a non-empty list of samples
    and a rank [p] between 0 and 100 lies between the smallest and the
    largest sample: the interpolation between two neighbours of the sorted
    list never leaves the range of the data. *)
Theorem percentile_lies_between_the_extremes (data : list Q) (p : Q) :
  data <> [] -> (0 <= p)%Q -> (p <= 100)%Q ->
  (Metrics.lowest data <= Metrics._percentile data p <= Metrics.highest data)%Q.
Proof.
  intros Hne Hp0 Hp100.
  destruct (sorted_spec data) as [Hs [Hlen Hin]].
  assert (Hunfold :
            Metrics._percentile data p
            = let sorted_data := Metrics.sorted data in
              let k := (inject_Z (Z.of_nat (length sorted_data) - 1) * p / 100)%Q in
              let f := Z.to_nat (Qfloor k) in
              let c := if (f + 1 <? length sorted_data)%nat then (f + 1)%nat else f in
              (nth f sorted_data 0
               + (nth c sorted_data 0 - nth f sorted_data 0)
                 * (k - inject_Z (Z.of_nat f)))%Q)
    by (destruct data; [contradiction | reflexivity]).
  rewrite Hunfold. clear Hunfold. cbv zeta.
  set (sd := Metrics.sorted data) in *.
  assert (Hn : (1 <= length sd)%nat).
  { rewrite Hlen. destruct data; [contradiction | simpl; lia]. }
  set (a := inject_Z (Z.of_nat (length sd) - 1)%Z).
  assert (Ha : (0 <= a)%Q).
  { unfold a. rewrite <- (Zle_Qle 0). lia. }
  set (k := (a * p / 100)%Q).
  assert (Hap0 : (0 <= a * p)%Q) by (apply Qmult_le_0_compat; assumption).
  assert (Hap1 : (a * p <= a * 100)%Q).
  { rewrite (Qmult_comm a p), (Qmult_comm a 100). apply Qmult_le_compat_r; assumption. }
  assert (Hk0 : (0 <= k)%Q).
  { unfold k. apply Qle_shift_div_l; [reflexivity |]. rewrite Qmult_0_l. exact Hap0. }
  assert (Hk1 : (k <= a)%Q).
  { unfold k. apply Qle_shift_div_r; [reflexivity | exact Hap1]. }
  assert (Hfl0 : (0 <= Qfloor k)%Z).
  { change 0%Z with (Qfloor 0). apply Qfloor_resp_le. exact Hk0. }
  assert (Hfl1 : (Qfloor k <= Z.of_nat (length sd) - 1)%Z).
  { rewrite <- (Qfloor_Z (Z.of_nat (length sd) - 1)). apply Qfloor_resp_le. exact Hk1. }
  set (f := Z.to_nat (Qfloor k)).
  assert (Hf : Z.of_nat f = Qfloor k) by (unfold f; apply Z2Nat.id; exact Hfl0).
  assert (Hflt : (f < length sd)%nat) by lia.
  rewrite Hf.
  pose proof (Qfloor_le k) as Hlow. pose proof (Qlt_floor k) as Hup.
  set (c := if (f + 1 <? length sd)%nat then (f + 1)%nat else f).
  assert (Hc : (f <= c)%nat /\ (c < length sd)%nat).
  { unfold c. destruct (f + 1 <? length sd)%nat eqn:Hlt.
    - apply Nat.ltb_lt in Hlt. lia.
    - lia. }
  assert (Hfc : (nth f sd 0 <= nth c sd 0)%Q) by (apply nth_of_sorted; [exact Hs | lia | lia]).
  assert (Ht0 : (0 <= k - inject_Z (Qfloor k))%Q) by lra.
  assert (Ht1 : (k - inject_Z (Qfloor k) <= 1)%Q).
  { rewrite inject_Z_plus in Hup. change (inject_Z 1) with 1%Q in Hup. lra. }
  destruct (interpolation_bounds _ _ _ Hfc Ht0 Ht1) as [B1 B2].
  assert (Ef : In (nth f sd 0%Q) data) by (apply Hin, nth_In; lia).
  assert (Ec : In (nth c sd 0%Q) data) by (apply Hin, nth_In; lia).
  destruct (extremes_bound data _ Ef) as [L _].
  destruct (extremes_bound data _ Ec) as [_ U].
  split; eapply Qle_trans; eassumption.
Qed.

Lemma percentile_lies_between_the_extremes_witness :
  (Metrics.lowest [120%Q; 80%Q; (3501 # 10)%Q] <= Metrics._percentile [120%Q; 80%Q; (3501 # 10)%Q] 95
   <= Metrics.highest [120%Q; 80%Q; (3501 # 10)%Q])%Q.
Proof.
  apply percentile_lies_between_the_extremes; [discriminate | discriminate | discriminate].
Defined.

(** ** The turn, frame by frame *)

Section Turn.

Variable resolve : string -> option (list string).
Variable SANDBOX_ROOT : list string.
Variable re_findall : PathPattern -> string -> list string.

Lemma open_stream_invariant (I : State -> Prop) :
  (forall n d e s, I s ->
     I (sleep d (emit (TEXT_DELTA (retry_notice n d)) (trace (ev_retry n d e) s)))) ->
  forall failures retry_count last_error s,
    I s -> I (fst (open_stream retry_count last_error failures s)).
Proof.
  intros Hretry failures.
  induction failures as [|e rest IH]; intros retry_count last_error s Hs;
    cbn [open_stream].
  - destruct (negb _); exact Hs.
  - destruct (negb _); [exact Hs |].
    destruct (retryable e); [| exact Hs].
    destruct (S retry_count <=? MAX_RETRIES)%nat; [| exact Hs].
    apply IH, Hretry, Hs.
Qed.

Lemma fold_left_rel {A : Type} (R : list A -> State -> Prop) (step : State -> A -> State) :
  (forall done x s, R done s -> R (done ++ [x])%list (step s x)) ->
  forall items done s, R done s -> R (done ++ items)%list (fold_left step items s).
Proof.
  intros Hstep items. induction items as [|x rest IH]; intros done s Hs; simpl.
  - rewrite app_nil_r. exact Hs.
  - replace (done ++ x :: rest)%list with ((done ++ [x]) ++ rest)%list
      by (rewrite <- app_assoc; reflexivity).
    apply IH, Hstep, Hs.
Qed.

(** How a turn runs, for a relation between the inbound items handled so
    far and the state. *)
Lemma turn_rel (R : list (list HookCall * Message) -> State -> Prop)
    (failures : list Exn) (inbound : list (list HookCall * Message))
    (stream_error : option Exn) :
  R [] configured ->
  (forall n d e s, R [] s ->
     R [] (sleep d (emit (TEXT_DELTA (retry_notice n d)) (trace (ev_retry n d e) s)))) ->
  (forall done item s, R done s ->
     R (done ++ [item])%list (on_inbound resolve SANDBOX_ROOT re_findall s item)) ->
  let k := Nat.min MAX_RETRIES (leading_retryable failures) in
  let run := process_agent_stream resolve SANDBOX_ROOT re_findall failures inbound
               stream_error in
  exists s,
    match failures !! k with
    | Some e => R [] s /\ run = on_exception e s
    | None =>
        R inbound s
        /\ run = match stream_error with
                 | Some e => on_exception e s
                 | None => on_stream_end s
                 end
    end.
Proof.
  intros H0 Hretry Hstep. cbv zeta.
  destruct (opened failures) as [_ [_ [Ho _]]]. rewrite <- Ho.
  pose proof (open_stream_invariant (R []) Hretry failures 0%nat None configured H0) as H1.
  unfold process_agent_stream. fold configured.
  destruct (open_stream 0 None failures configured) as [s1 out]. cbn [fst snd] in *.
  destruct out as [e|].
  - exists s1. split; [exact H1 | reflexivity].
  - exists (fold_left (on_inbound resolve SANDBOX_ROOT re_findall) inbound s1).
    split; [| destruct stream_error; reflexivity].
    apply (fold_left_rel R _ Hstep inbound [] s1 H1).
Qed.

(** *** The statistics of the trace and the frames *)

Lemma agrees_same (s s' : State) :
  stats (tracer s') = stats (tracer s) -> yielded s' = yielded s ->
  current_iteration s' = current_iteration s -> agrees s -> agrees s'.
Proof.
  unfold agrees, frames. intros -> -> ->. auto.
Qed.


Lemma agrees_emit (f : Frame) (s : State) :
  is_tool_frame f = false -> is_error_frame f = false -> is_thinking_frame f = false ->
  agrees s -> agrees (emit f s).
Proof.
  intros H1 H2 H3. unfold agrees. st_simpl.
  rewrite map_app. cbn [map fst]. unfold iterations_of.
  rewrite omap_app, !List.filter_app, !length_app, map_app, list_sum_app, list_max_app.
  destruct f; try discriminate; cbn; rewrite ?Nat.add_0_r, ?Nat.max_0_r; auto.
Qed.

Lemma agrees_drain (queue : list HookEvent) (s : State) :
  agrees s -> agrees (drain queue s).
Proof.
  revert s. induction queue as [|ev rest IH]; intros s Hs; simpl.
  - eapply agrees_same; [| | | exact Hs]; reflexivity.
  - apply IH. destruct ev; [apply agrees_emit | apply agrees_emit |]; auto.
Qed.





Lemma drain_spec (queue : list HookEvent) (s : State) :
  drain queue s
  = set_hook_events_queue []
      (set_yielded
         (yielded s ++ map (fun f => (f, status (tracer s))) (omap hook_frame queue))%list s).
Proof.
  revert s. induction queue as [|ev rest IH]; intros s; simpl.
  - st_simpl. rewrite app_nil_r. reflexivity.
  - rewrite IH. destruct ev; st_simpl; cbn [omap hook_frame map];
      rewrite <- ?app_assoc; reflexivity.
Qed.


Ltac st_proj :=
  unfold frames in *;
  cbn [on_exception on_stream_end emit trace sleep
       set_current_text set_tools_used set_tokens set_tool_states
       set_current_iteration set_current_depth set_stop_reason
       set_hook_events_queue set_pending_html_files set_tracer set_yielded set_slept
       current_text tools_used total_input_tokens total_output_tokens tool_states
       current_iteration current_depth stop_reason hook_events_queue
       pending_html_files tracer yielded slept fst snd] in *.

Lemma map_fst_pair {A B : Type} (b : B) (l : list A) :
  map fst (map (fun a => (a, b)) l) = l.
Proof. induction l as [|a rest IH]; simpl; [| rewrite IH]; reflexivity. Qed.







(** *** The frames of each step *)

Lemma frames_emit (f : Frame) (s : State) : frames (emit f s) = (frames s ++ [f])%list.
Proof. st_proj. rewrite map_app. reflexivity. Qed.

Lemma frames_run_hook (call : HookCall) (s : State) :
  frames (run_hook resolve SANDBOX_ROOT re_findall call s) = frames s.
Proof.
  destruct (quiet_run_hook resolve SANDBOX_ROOT re_findall call s) as [_ _].
  destruct call as [tool_name tool_input tool_use_id | tool_name has_result tool_use_id];
    unfold run_hook, pre_tool_hook, post_tool_hook.
  - destruct (negb _); [reflexivity |].
    destruct tool_use_id as [tid|]; [| reflexivity].
    destruct (_ && _); reflexivity.
  - destruct tool_use_id as [tid|]; [| reflexivity].
    destruct (_ && _); [| reflexivity].
    st_proj. destruct (pending_html_files s !! tid); [| reflexivity].
    destruct has_result; reflexivity.
Qed.

Lemma sanitize_nil : sanitize_utf8_text [] = [].
Proof. reflexivity. Qed.

Lemma frames_on_thinking (thinking : Text) (s : State) :
  frames (on_thinking thinking s) = (frames s ++ thinking_frames thinking)%list.
Proof.
  unfold on_thinking, thinking_frames. destruct thinking as [|c rest].
  - rewrite sanitize_nil, app_nil_r. reflexivity.
  - destruct (sanitize_utf8_text (c :: rest)); [rewrite app_nil_r; reflexivity |].
    rewrite frames_emit. reflexivity.
Qed.

Lemma frames_on_text (text : Text) (s : State) :
  frames (on_text text s) = (frames s ++ text_frames (current_text s) text)%list.
Proof.
  unfold on_text, text_frames. destruct (_ && _); [| rewrite app_nil_r; reflexivity].
  destruct (sanitize_utf8_text _); [rewrite app_nil_r; reflexivity |].
  rewrite frames_emit. reflexivity.
Qed.

Lemma frames_on_tool_use (parallel_group_id : option string) (is_parallel_batch : bool)
    (tool_id tool_name : string) (tool_input : ToolInput) (s : State) :
  frames (on_tool_use parallel_group_id is_parallel_batch tool_id tool_name tool_input s)
  = (frames s
     ++ (if String.eqb tool_name "Task"
         then [AGENT_SPAWN tool_id
                 (default "unknown" (tool_input !! "subagent_type"))
                 (get tool_input "description")
                 (if new_iteration s then S (current_iteration s) else current_iteration s)
                 (S (current_depth s))]
         else omap hook_frame (hook_events_queue s)
              ++ [TOOL_START tool_id tool_name
                    (if new_iteration s then S (current_iteration s)
                     else current_iteration s)]))%list.
Proof.
  unfold on_tool_use.
  destruct (String.eqb tool_name "Task"); [| rewrite drain_spec];
    destruct (new_iteration s); st_proj;
    rewrite ?map_app, ?map_fst_pair; cbn [map fst]; rewrite <- ?app_assoc; reflexivity.
Qed.

Lemma frames_on_tool_result (tool_id : string) (is_error : bool) (s : State) :
  frames (on_tool_result tool_id is_error s)
  = (frames s
     ++ TOOL_RESULT tool_id (status_value is_error)
        :: (if String.eqb (match tool_states s !! tool_id with
                           | Some tool_info => name tool_info
                           | None => ""
                           end) "Task" && (0 <? current_depth s)%nat
            then [AGENT_COMPLETE tool_id] else []))%list.
Proof.
  unfold on_tool_result. st_proj.
  destruct (_ && _); st_proj; rewrite ?map_app; cbn [map fst];
    rewrite <- ?app_assoc; reflexivity.
Qed.

Lemma frames_on_success (result : option Text) (usage : option Usage)
    (is_error : bool) (num_turns : Z) (s : State) :
  frames (on_success result usage is_error num_turns s)
  = (frames s
     ++ match result with
        | Some result_text => text_frames (current_text s) result_text
        | None => []
        end
     ++ match usage with
        | Some u => [COST_UPDATE (input_tokens u) (output_tokens u)
                       (input_tokens u + output_tokens u)]
        | None => []
        end)%list.
Proof.
  unfold on_success.
  set (s1 := set_stop_reason _ s).
  assert (H1 : frames (match result with Some r => on_text r s1 | None => s1 end)
               = (frames s ++ match result with
                              | Some r => text_frames (current_text s) r
                              | None => []
                              end)%list).
  { destruct result; [rewrite frames_on_text | rewrite app_nil_r]; reflexivity. }
  destruct usage as [u|].
  - rewrite frames_emit. st_proj. rewrite H1, <- app_assoc. reflexivity.
  - rewrite H1, app_nil_r. reflexivity.
Qed.

Lemma frames_on_exception (e : Exn) (s : State) :
  frames (on_exception e s) = (frames s ++ [ERROR e])%list.
Proof. unfold on_exception. rewrite frames_emit. reflexivity. Qed.

Lemma frames_on_stream_end (s : State) :
  frames (on_stream_end s)
  = (frames s ++ [MESSAGE_COMPLETE (remove_dups (tools_used s))
                    (total_input_tokens s + total_output_tokens s) (stop_reason s)])%list.
Proof. unfold on_stream_end. rewrite frames_emit. reflexivity. Qed.

(** *** Quantities that the inbound items add up to *)

Lemma fold_left_measure {A X : Type} (m : State -> list X) (d : A -> list X)
    (step : State -> A -> State) :
  (forall s x, m (step s x) = (m s ++ d x)%list) ->
  forall items s, m (fold_left step items s) = (m s ++ flat_map d items)%list.
Proof.
  intros Hstep items. induction items as [|x rest IH]; intros s; simpl.
  - rewrite app_nil_r. reflexivity.
  - rewrite IH, Hstep, <- app_assoc. reflexivity.
Qed.

Lemma flat_map_app' {A B : Type} (f : A -> list B) (l1 l2 : list A) :
  flat_map f (l1 ++ l2) = (flat_map f l1 ++ flat_map f l2)%list.
Proof. induction l1 as [|x rest IH]; simpl; [reflexivity |]. rewrite IH, app_assoc. reflexivity. Qed.

(** A quantity that hook calls and content blocks add to, and that
    nothing else changes, is at the end of a turn what the calls and the
    blocks of the stream add up to. *)
Lemma turn_measure {X : Type} (m : State -> list X)
    (d_call : HookCall -> list X) (d_block : Block -> list X)
    (failures : list Exn) (inbound : list (list HookCall * Message))
    (stream_error : option Exn) :
  m configured = [] ->
  (forall n d e s,
     m (sleep d (emit (TEXT_DELTA (retry_notice n d)) (trace (ev_retry n d e) s))) = m s) ->
  (forall call s,
     m (run_hook resolve SANDBOX_ROOT re_findall call s) = (m s ++ d_call call)%list) ->
  (forall s, m (trace ev_raw_message s) = m s) ->
  (forall pg ip s b, m (on_block pg ip s b) = (m s ++ d_block b)%list) ->
  (forall r u e n s, m (on_success r u e n s) = m s) ->
  (forall e s, m (on_exception e s) = m s) ->
  (forall s, m (on_stream_end s) = m s) ->
  m (process_agent_stream resolve SANDBOX_ROOT re_findall failures inbound stream_error)
  = match failures !! Nat.min MAX_RETRIES (leading_retryable failures) with
    | Some _ => []
    | None =>
        flat_map (fun item => flat_map d_call (fst item) ++ flat_map d_block (blocks_of (snd item)))%list
          inbound
    end.
Proof.
  intros H0 Hretry Hhook Hraw Hblock Hsucc Hexc Hend.
  destruct (turn_rel
              (fun done s =>
                 m s = flat_map (fun item => flat_map d_call (fst item)
                                             ++ flat_map d_block (blocks_of (snd item)))%list
                         done)
              failures inbound stream_error) as [s Hs].
  - exact H0.
  - intros n d e s Hs. rewrite Hretry. exact Hs.
  - intros done item s Hs. rewrite flat_map_app'. cbn [flat_map]. rewrite app_nil_r, <- Hs.
    unfold on_inbound, on_message.
    pose proof (fold_left_measure m d_call
                  (fun s call => run_hook resolve SANDBOX_ROOT re_findall call s)
                  (fun s call => Hhook call s) (fst item) s) as Hh.
    destruct (snd item) as [| r u e n | group_id content |]; cbn [blocks_of flat_map];
      rewrite ?app_nil_r.
    + rewrite Hraw. exact Hh.
    + rewrite Hsucc, Hraw. exact Hh.
    + rewrite (fold_left_measure m d_block (on_block _ _) (Hblock _ _)), Hraw, Hh, app_assoc.
      reflexivity.
    + rewrite Hraw. exact Hh.
  - cbv zeta in Hs. destruct (failures !! _) as [e|].
    + destruct Hs as [Hs ->]. rewrite Hexc. exact Hs.
    + destruct Hs as [Hs ->]. destruct stream_error; rewrite ?Hexc, ?Hend; exact Hs.
Qed.

Lemma flat_map_none {A X : Type} (l : list A) : flat_map (fun _ : A => @nil X) l = [].
Proof. induction l; simpl; auto. Qed.

Lemma flat_map_option {A X : Type} (f : A -> option X) (l : list A) :
  flat_map (fun x => option_list (f x)) l = omap f l.
Proof.
  induction l as [|x rest IH]; simpl; [reflexivity |].
  rewrite IH. destruct (f x); reflexivity.
Qed.

Lemma omap_hook_frames {X : Type} (phi : Frame -> option X) (queue : list HookEvent) :
  (forall n a, phi (HOOK_PRE_TOOL n a) = None) ->
  (forall n, phi (HOOK_POST_TOOL n) = None) ->
  omap phi (omap hook_frame queue) = [].
Proof.
  intros H1 H2. induction queue as [|ev rest IH]; [reflexivity |].
  destruct ev; cbn; rewrite ?H1, ?H2; exact IH.
Qed.

Lemma omap_text_frames {X : Type} (phi : Frame -> option X) (current text : Text) :
  (forall t, phi (TEXT_DELTA t) = None) -> omap phi (text_frames current text) = [].
Proof.
  intros H. unfold text_frames. destruct (_ && _); [| reflexivity].
  destruct (sanitize_utf8_text _); [reflexivity |]. cbn. rewrite H. reflexivity.
Qed.

Lemma omap_thinking_frames {X : Type} (phi : Frame -> option X) (thinking : Text) :
  (forall t, phi (THINKING_DELTA t) = None) -> omap phi (thinking_frames thinking) = [].
Proof.
  intros H. unfold thinking_frames.
  destruct (sanitize_utf8_text _); [reflexivity |]. cbn. rewrite H. reflexivity.
Qed.

(** The frames of a kind that only content blocks give rise to. *)
Lemma turn_frames_of_blocks {X : Type} (phi : Frame -> option X) (psi : Block -> option X)
    (failures : list Exn) (inbound : list (list HookCall * Message))
    (stream_error : option Exn) :
  phi (SESSION_CONFIG MAX_TURNS) = None ->
  (forall t, phi (TEXT_DELTA t) = None) ->
  (forall i o c, phi (COST_UPDATE i o c) = None) ->
  (forall t n r, phi (MESSAGE_COMPLETE t n r) = None) ->
  (forall e, phi (ERROR e) = None) ->
  (forall pg ip s b,
     omap phi (frames (on_block pg ip s b)) = (omap phi (frames s) ++ option_list (psi b))%list) ->
  omap phi (frames (process_agent_stream resolve SANDBOX_ROOT re_findall failures inbound
                      stream_error))
  = omap psi (all_blocks (delivered failures inbound)).
Proof.
  intros P1 P2 P3 P4 P5 Hblock.
  rewrite (turn_measure (fun s => omap phi (frames s)) (fun _ => [])
             (fun b => option_list (psi b))).
  - unfold delivered, all_blocks. destruct (failures !! _); [reflexivity |].
    rewrite <- flat_map_option. induction inbound as [|item rest IH]; [reflexivity |].
    cbn [flat_map]. rewrite flat_map_none, flat_map_app'. cbn [app]. rewrite IH. reflexivity.
  - cbn. rewrite P1. reflexivity.
  - intros n d e s. unfold sleep. st_proj. rewrite map_app, omap_app.
    cbn. rewrite P2, app_nil_r. reflexivity.
  - intros call s. rewrite frames_run_hook, app_nil_r. reflexivity.
  - reflexivity.
  - exact Hblock.
  - intros r u e n s. rewrite frames_on_success, !omap_app.
    destruct r; [rewrite omap_text_frames by exact P2 |];
      destruct u; cbn; rewrite ?P3, ?app_nil_r; reflexivity.
  - intros e s. rewrite frames_on_exception, omap_app. cbn. rewrite P5, app_nil_r. reflexivity.
  - intros s. rewrite frames_on_stream_end, omap_app. cbn. rewrite P4, app_nil_r. reflexivity.
Qed.

(** X16.  Every tool-use block that the turn handles is shown by exactly one
    frame, in the order of the blocks and with the identifier of the block:
    an [agent_spawn] frame if the tool is [Task], a [tool_start] frame with
    the name of the tool otherwise.  Every tool-result block is shown by
    exactly one [tool_result] frame, in order, with status [error] if the
    block is an error and [completed] if not.  When the retry loop is left
    with an exception there is no such frame. *)
Theorem tool_frames_follow_the_blocks
    (failures : list Exn) (inbound : list (list HookCall * Message))
    (stream_error : option Exn) :
  let run := process_agent_stream resolve SANDBOX_ROOT re_findall failures inbound
               stream_error in
  omap started (frames run) = omap tool_use_of (all_blocks (delivered failures inbound))
  /\ omap reported (frames run) = omap tool_result_of (all_blocks (delivered failures inbound)).
Proof.
  cbv zeta. split.
  - apply turn_frames_of_blocks; try reflexivity.
    intros pg ip s b. destruct b as [thinking | text | id name input | id c is_error |];
      cbn [on_block tool_use_of option_list].
    + rewrite frames_on_thinking, omap_app, omap_thinking_frames by reflexivity. reflexivity.
    + rewrite frames_on_text, omap_app, omap_text_frames by reflexivity. reflexivity.
    + rewrite frames_on_tool_use, omap_app. f_equal.
      destruct (String.eqb name "Task") eqn:Hname.
      * apply String.eqb_eq in Hname. subst name. reflexivity.
      * rewrite omap_app, omap_hook_frames by reflexivity. reflexivity.
    + rewrite frames_on_tool_result, omap_app. destruct (_ && _); reflexivity.
    + rewrite app_nil_r. reflexivity.
  - apply turn_frames_of_blocks; try reflexivity.
    intros pg ip s b. destruct b as [thinking | text | id name input | id c is_error |];
      cbn [on_block tool_result_of option_list].
    + rewrite frames_on_thinking, omap_app, omap_thinking_frames by reflexivity. reflexivity.
    + rewrite frames_on_text, omap_app, omap_text_frames by reflexivity. reflexivity.
    + rewrite frames_on_tool_use, omap_app.
      destruct (String.eqb name "Task"); [reflexivity |].
      rewrite omap_app, omap_hook_frames by reflexivity. reflexivity.
    + rewrite frames_on_tool_result, omap_app. destruct (_ && _); reflexivity.
    + rewrite app_nil_r. reflexivity.
Qed.

Lemma tools_used_run_hook (call : HookCall) (s : State) :
  tools_used (run_hook resolve SANDBOX_ROOT re_findall call s) = tools_used s.
Proof.
  destruct call as [tool_name tool_input tool_use_id | tool_name has_result tool_use_id];
    unfold run_hook, pre_tool_hook, post_tool_hook.
  - destruct (negb _); [reflexivity |].
    destruct tool_use_id as [tid|]; [| reflexivity].
    destruct (_ && _); reflexivity.
  - destruct tool_use_id as [tid|]; [| reflexivity].
    destruct (_ && _); [| reflexivity].
    st_proj. destruct (pending_html_files s !! tid); [| reflexivity].
    destruct has_result; reflexivity.
Qed.

Lemma tools_used_on_text (text : Text) (s : State) :
  tools_used (on_text text s) = tools_used s.
Proof.
  unfold on_text. destruct (_ && _); [| reflexivity].
  destruct (sanitize_utf8_text _); reflexivity.
Qed.

Lemma tools_used_on_block (pg : option string) (ip : bool) (s : State) (b : Block) :
  tools_used (on_block pg ip s b) = (tools_used s ++ option_list (tool_name_of b))%list.
Proof.
  destruct b as [thinking | text | id name input | id c is_error |];
    cbn [on_block tool_name_of option_list]; rewrite ?app_nil_r.
  - unfold on_thinking. destruct thinking; [reflexivity |].
    destruct (sanitize_utf8_text _); reflexivity.
  - apply tools_used_on_text.
  - unfold on_tool_use. destruct (String.eqb name "Task"); [| rewrite drain_spec];
      destruct (new_iteration s); reflexivity.
  - unfold on_tool_result. destruct (_ && _); reflexivity.
  - reflexivity.
Qed.

Lemma tools_used_on_success (r : option Text) (u : option Usage) (e : bool) (n : Z)
    (s : State) :
  tools_used (on_success r u e n s) = tools_used s.
Proof.
  unfold on_success. destruct u; destruct r; st_proj; rewrite ?tools_used_on_text; reflexivity.
Qed.

Lemma tools_used_of_a_turn
    (failures : list Exn) (inbound : list (list HookCall * Message))
    (stream_error : option Exn) :
  tools_used (process_agent_stream resolve SANDBOX_ROOT re_findall failures inbound
                stream_error)
  = tool_names (all_blocks (delivered failures inbound)).
Proof.
  rewrite (turn_measure tools_used (fun _ => []) (fun b => option_list (tool_name_of b)));
    try reflexivity.
  - unfold delivered, all_blocks, tool_names. destruct (failures !! _); [reflexivity |].
    rewrite <- flat_map_option. induction inbound as [|item rest IH]; [reflexivity |].
    cbn [flat_map]. rewrite flat_map_none, flat_map_app'. cbn [app]. rewrite IH. reflexivity.
  - intros call s. rewrite tools_used_run_hook, app_nil_r. reflexivity.
  - apply tools_used_on_block.
  - apply tools_used_on_success.
Qed.

(** What the terminal frame of a turn is. *)
Lemma last_frame_of_a_turn
    (failures : list Exn) (inbound : list (list HookCall * Message))
    (stream_error : option Exn) :
  let run := process_agent_stream resolve SANDBOX_ROOT re_findall failures inbound
               stream_error in
  exists body,
    Forall (fun f => terminal f = false) body
    /\ ((exists e, frames run = (body ++ [ERROR e])%list)
        \/ (delivered failures inbound = inbound
            /\ frames run
               = (body ++ [MESSAGE_COMPLETE (remove_dups (tools_used run))
                             (total_input_tokens run + total_output_tokens run)
                             (stop_reason run)])%list)).
Proof.
  cbv zeta.
  destruct (run_shape resolve SANDBOX_ROOT re_findall failures inbound stream_error)
    as [s [Hst [_ [_ [_ Hend]]]]].
  exists (frames s). split.
  { unfold frames. apply List.Forall_forall. intros f Hf. apply in_map_iff in Hf.
    destruct Hf as [p [<- Hp]]. unfold streaming in Hst. rewrite Forall_forall in Hst.
    apply list_elem_of_In in Hp. apply Hst in Hp. tauto. }
  destruct Hend as [[e [_ ->]] | [Hopen [_ [_ ->]]]].
  - left. exists e. apply frames_on_exception.
  - right. split; [unfold delivered; rewrite Hopen; reflexivity |].
    rewrite frames_on_stream_end. reflexivity.
Qed.

(** X17.  The tools that a [message_complete] frame lists are the names of
    the tool-use blocks of the stream, each one once: a name is listed
    exactly when a block has it.  (The order of [list(set(tools_used))] is
    not specified, and the property does not depend on it.) *)
Theorem completion_lists_the_tools_used
    (failures : list Exn) (inbound : list (list HookCall * Message))
    (stream_error : option Exn) (tools : list string) (total : Z)
    (reason : option string) :
  In (MESSAGE_COMPLETE tools total reason)
     (frames (process_agent_stream resolve SANDBOX_ROOT re_findall failures inbound
                stream_error)) ->
  NoDup tools
  /\ forall name, In name tools <-> In name (tool_names (all_blocks inbound)).
Proof.
  intros Hin.
  destruct (last_frame_of_a_turn failures inbound stream_error)
    as [body [Hbody [[e Hf] | [Hd Hf]]]]; cbv zeta in Hf; rewrite Hf in Hin;
    apply in_app_or in Hin; rewrite List.Forall_forall in Hbody;
    (destruct Hin as [Hin | [Hin | []]]; [apply Hbody in Hin; discriminate |]);
    [discriminate |].
  injection Hin as <- _ _. rewrite tools_used_of_a_turn, Hd. split.
  - apply NoDup_remove_dups.
  - intros name. rewrite <- !list_elem_of_In. apply elem_of_remove_dups.
Qed.

(** *** Sub-agents *)

Lemma open_after_app (d : nat) (l1 l2 : list Frame) :
  open_after d (l1 ++ l2) = open_after (open_after d l1) l2.
Proof. revert d. induction l1 as [|f rest IH]; intros d; [reflexivity |]. destruct f; simpl; apply IH. Qed.

Lemma nested_app (d : nat) (l1 l2 : list Frame) :
  nested d (l1 ++ l2) <-> nested d l1 /\ nested (open_after d l1) l2.
Proof.
  revert d. induction l1 as [|f rest IH]; intros d; [simpl; tauto |].
  destruct f; simpl; rewrite ?IH; tauto.
Qed.

Lemma neutral_frames (d : nat) (l : list Frame) :
  forallb neutral l = true -> nested d l /\ open_after d l = d.
Proof.
  induction l as [|f rest IH]; [simpl; auto |].
  cbn [forallb]. intros H. apply andb_true_iff in H. destruct H as [Hf Hrest].
  destruct f; try discriminate; simpl; auto.
Qed.

Lemma nests_refl (s : State) : nests s s.
Proof. exists []. rewrite app_nil_r. simpl. auto. Qed.

Lemma nests_trans (s1 s2 s3 : State) : nests s1 s2 -> nests s2 s3 -> nests s1 s3.
Proof.
  intros [n1 [F1 [N1 O1]]] [n2 [F2 [N2 O2]]]. exists (n1 ++ n2)%list.
  rewrite F2, F1, app_assoc, nested_app, open_after_app, O1. auto.
Qed.

Lemma nests_neutral (s s' : State) (new : list Frame) :
  frames s' = (frames s ++ new)%list -> forallb neutral new = true ->
  current_depth s' = current_depth s -> nests s s'.
Proof.
  intros F N D. exists new. destruct (neutral_frames (current_depth s) new N) as [H1 H2].
  rewrite D. auto.
Qed.

Lemma neutral_hook_frames (queue : list HookEvent) :
  forallb neutral (omap hook_frame queue) = true.
Proof. induction queue as [|ev rest IH]; [reflexivity |]. destruct ev; cbn; exact IH. Qed.

Lemma neutral_text_frames (current text : Text) :
  forallb neutral (text_frames current text) = true.
Proof.
  unfold text_frames. destruct (_ && _); [| reflexivity].
  destruct (sanitize_utf8_text _); reflexivity.
Qed.

Lemma current_depth_on_text (text : Text) (s : State) :
  current_depth (on_text text s) = current_depth s.
Proof.
  unfold on_text. destruct (_ && _); [| reflexivity].
  destruct (sanitize_utf8_text _); reflexivity.
Qed.

Lemma nests_run_hook (call : HookCall) (s : State) :
  nests s (run_hook resolve SANDBOX_ROOT re_findall call s).
Proof.
  apply (nests_neutral _ _ []); [rewrite frames_run_hook, app_nil_r; reflexivity | reflexivity |].
  destruct call as [tool_name tool_input tool_use_id | tool_name has_result tool_use_id];
    unfold run_hook, pre_tool_hook, post_tool_hook.
  - destruct (negb _); [reflexivity |].
    destruct tool_use_id as [tid|]; [| reflexivity].
    destruct (_ && _); reflexivity.
  - destruct tool_use_id as [tid|]; [| reflexivity].
    destruct (_ && _); [| reflexivity].
    st_proj. destruct (pending_html_files s !! tid); [| reflexivity].
    destruct has_result; reflexivity.
Qed.

Lemma nests_on_text (text : Text) (s : State) : nests s (on_text text s).
Proof.
  eapply nests_neutral; [apply frames_on_text | apply neutral_text_frames |
                         apply current_depth_on_text].
Qed.

Lemma nests_on_block (pg : option string) (ip : bool) (s : State) (b : Block) :
  nests s (on_block pg ip s b).
Proof.
  destruct b as [thinking | text | id name input | id c is_error |]; cbn [on_block].
  - eapply nests_neutral; [apply frames_on_thinking | |].
    + unfold thinking_frames. destruct (sanitize_utf8_text _); reflexivity.
    + unfold on_thinking. destruct thinking; [reflexivity |].
      destruct (sanitize_utf8_text _); reflexivity.
  - apply nests_on_text.
  - eexists. split; [apply frames_on_tool_use |].
    unfold on_tool_use. destruct (String.eqb name "Task").
    + destruct (new_iteration s); simpl; auto.
    + rewrite drain_spec.
      assert (Hn : forallb neutral
                     (omap hook_frame (hook_events_queue s)
                      ++ [TOOL_START id name
                            (if new_iteration s then S (current_iteration s)
                             else current_iteration s)]) = true).
      { rewrite forallb_app, neutral_hook_frames. reflexivity. }
      destruct (neutral_frames (current_depth s) _ Hn) as [H1 H2].
      split; [exact H1 |]. rewrite H2. destruct (new_iteration s); reflexivity.
  - eexists. split; [apply frames_on_tool_result |].
    unfold on_tool_result. st_proj.
    destruct (String.eqb _ "Task"); cbn [andb]; [| simpl; auto].
    destruct (0 <? current_depth s)%nat eqn:Hd; [| simpl; auto].
    apply Nat.ltb_lt in Hd. simpl. auto.
  - apply nests_refl.
Qed.

Lemma nests_fold {A : Type} (step : State -> A -> State) (items : list A) (s : State) :
  (forall s x, nests s (step s x)) -> nests s (fold_left step items s).
Proof.
  intros Hstep. revert s. induction items as [|x rest IH]; intros s; simpl.
  - apply nests_refl.
  - eapply nests_trans; [apply Hstep | apply IH].
Qed.

Lemma nests_on_inbound (s : State) (item : list HookCall * Message) :
  nests s (on_inbound resolve SANDBOX_ROOT re_findall s item).
Proof.
  unfold on_inbound, on_message.
  pose proof (nests_fold (fun s call => run_hook resolve SANDBOX_ROOT re_findall call s)
                (fst item) s (fun s0 call => nests_run_hook call s0)) as Hh.
  eapply nests_trans; [exact Hh |]. clear Hh.
  set (s1 := fold_left _ (fst item) s).
  assert (H1 : nests s1 (trace ev_raw_message s1))
    by (apply (nests_neutral _ _ []); [st_proj; rewrite app_nil_r | |];
        reflexivity).
  destruct (snd item) as [| r u e n | group_id content |]; try exact H1.
  - eapply nests_trans; [exact H1 |].
    eapply nests_neutral; [apply frames_on_success | |].
    + rewrite forallb_app. destruct r; [rewrite neutral_text_frames |]; destruct u; reflexivity.
    + unfold on_success. destruct u; destruct r; st_proj;
        rewrite ?current_depth_on_text; reflexivity.
  - eapply nests_trans; [exact H1 |]. apply nests_fold. intros. apply nests_on_block.
Qed.

(** X18.  The sub-agent frames of a turn are well nested: an [agent_spawn]
    frame carries as depth one more than the number of sub-agents open
    before it, an [agent_complete] frame is only sent while a sub-agent is
    open, [current_depth] is the number of sub-agents left open, and
    completions never outnumber spawns. *)
Theorem sub_agent_frames_are_nested
    (failures : list Exn) (inbound : list (list HookCall * Message))
    (stream_error : option Exn) :
  let run := process_agent_stream resolve SANDBOX_ROOT re_findall failures inbound
               stream_error in
  nested 0 (frames run)
  /\ current_depth run = open_after 0 (frames run)
  /\ (length (List.filter (fun f => match f with AGENT_COMPLETE _ => true | _ => false end)
                (frames run))
      <= length (List.filter is_spawn_frame (frames run)))%nat.
Proof.
  cbv zeta.
  assert (Hrun : nests initial_state
                   (process_agent_stream resolve SANDBOX_ROOT re_findall failures inbound
                      stream_error)).
  { destruct (turn_rel (fun _ s => nests initial_state s) failures inbound stream_error)
      as [s Hs].
    - apply (nests_neutral _ _ [SESSION_CONFIG MAX_TURNS]); reflexivity.
    - intros n d e s Hs. eapply nests_trans; [exact Hs |].
      apply (nests_neutral _ _ [TEXT_DELTA (retry_notice n d)]); try reflexivity.
      unfold sleep. st_proj. rewrite map_app. reflexivity.
    - intros _ item s Hs. eapply nests_trans; [exact Hs | apply nests_on_inbound].
    - cbv zeta in Hs.
      assert (Hexc : forall e s0, nests s0 (on_exception e s0))
        by (intros; eapply nests_neutral; [apply frames_on_exception | |]; reflexivity).
      assert (Hend : forall s0, nests s0 (on_stream_end s0))
        by (intros; eapply nests_neutral; [apply frames_on_stream_end | |]; reflexivity).
      destruct (failures !! _) as [e|]; destruct Hs as [Hs ->].
      + eapply nests_trans; [exact Hs | apply Hexc].
      + destruct stream_error; (eapply nests_trans; [exact Hs |]); [apply Hexc | apply Hend]. }
  destruct Hrun as [new [F [N O]]]. change (frames initial_state) with (@nil Frame) in F.
  cbn [app] in F. change (current_depth initial_state) with 0%nat in N, O.
  rewrite F. split; [exact N |]. split; [symmetry; exact O |].
  clear - N.
  assert (G : forall d l, nested d l ->
              (length (List.filter (fun f => match f with AGENT_COMPLETE _ => true
                                                     | _ => false end) l)
               <= d + length (List.filter is_spawn_frame l))%nat).
  { clear. intros d l. revert d. induction l as [|f rest IH]; intros d H; [simpl; lia |].
    destruct f; simpl in *; try (apply IH; exact H).
    - destruct H as [_ H]. apply IH in H. lia.
    - destruct H as [Hd H]. apply IH in H. lia. }
  apply (G 0%nat new N).
Qed.

(** *** Hook frames *)







(** *** Text deltas *)

Lemma cumulative_app (current : Text) (l1 l2 : list (option Text)) :
  cumulative current (l1 ++ l2)
  <-> cumulative current l1 /\ cumulative (latest current l1) l2.
Proof.
  revert current. induction l1 as [|ev rest IH]; intros current; [simpl; tauto |].
  destruct ev as [text|]; cbn [app cumulative]; rewrite IH; cbn; tauto.
Qed.

Lemma latest_app (current : Text) (l1 l2 : list (option Text)) :
  latest current (l1 ++ l2) = latest (latest current l1) l2.
Proof. apply fold_left_app. Qed.

Lemma sanitize_clean (text : Text) :
  ~ In REPLACEMENT_CHAR text -> sanitize_utf8_text text = text.
Proof.
  intros H. unfold sanitize_utf8_text. destruct text as [|c rest]; [reflexivity |].
  destruct (existsb _ (c :: rest)) eqn:He; [| reflexivity].
  apply existsb_exists in He. destruct He as [y [Hy Heq]].
  apply N.eqb_eq in Heq. subst y. contradiction.
Qed.

Lemma streamed_app (fs new : list Frame) :
  streamed (fs ++ new) = fold_left display new (streamed fs).
Proof. apply fold_left_app. Qed.

Lemma in_step_on_text (text : Text) (s : State) :
  current_text s `prefix_of` text -> ~ In REPLACEMENT_CHAR text ->
  in_step s -> in_step (on_text text s) /\ current_text (on_text text s) = text.
Proof.
  intros [rest ->] Hclean Hs. unfold in_step in *.
  rewrite frames_on_text, streamed_app, Hs. unfold on_text, text_frames.
  destruct (negb (bool_decide ((current_text s ++ rest)%list = []))
            && negb (bool_decide ((current_text s ++ rest)%list = current_text s))) eqn:Hc.
  - rewrite drop_app_length.
    assert (Hr : ~ In REPLACEMENT_CHAR rest)
      by (intros Hin; apply Hclean, in_or_app; right; exact Hin).
    rewrite (sanitize_clean rest Hr).
    destruct rest as [|c rest']; [| cbn; auto].
    rewrite app_nil_r in Hc. rewrite (bool_decide_eq_true_2 _ eq_refl) in Hc.
    rewrite andb_false_r in Hc. discriminate.
  - cbn [fold_left]. split; [reflexivity |].
    apply andb_false_iff in Hc. destruct Hc as [Hc | Hc]; apply negb_false_iff in Hc;
      apply bool_decide_eq_true_1 in Hc.
    + rewrite Hc. apply app_eq_nil in Hc. destruct Hc as [-> _]. reflexivity.
    + symmetry. exact Hc.
Qed.

Lemma in_step_neutral (s s' : State) (new : list Frame) :
  frames s' = (frames s ++ new)%list ->
  Forall (fun f => forall shown, display shown f = shown) new ->
  current_text s' = current_text s ->
  in_step s -> in_step s'.
Proof.
  unfold in_step. intros F N C Hs. rewrite F, streamed_app, C, Hs.
  clear - N. induction N as [|f rest Hf _ IH]; [reflexivity |].
  cbn [fold_left]. rewrite Hf. exact IH.
Qed.

Lemma neutral_hook_display (queue : list HookEvent) :
  Forall (fun f => forall shown, display shown f = shown) (omap hook_frame queue).
Proof.
  induction queue as [|ev rest IH]; [constructor |].
  destruct ev; cbn; [constructor | constructor |]; auto.
Qed.

Lemma in_step_on_block (pg : option string) (ip : bool) (s : State) (b : Block) :
  cumulative (current_text s) (block_event b) -> in_step s ->
  in_step (on_block pg ip s b)
  /\ current_text (on_block pg ip s b) = latest (current_text s) (block_event b).
Proof.
  intros Hc Hs.
  destruct b as [thinking | text | id name input | id c is_error |];
    cbn [on_block block_event latest fold_left default].
  - split.
    + eapply in_step_neutral; [apply frames_on_thinking | | | exact Hs].
      * unfold thinking_frames. destruct (sanitize_utf8_text _); repeat constructor.
      * unfold on_thinking. destruct thinking; [reflexivity |].
        destruct (sanitize_utf8_text _); reflexivity.
    + unfold on_thinking. destruct thinking; [reflexivity |].
      destruct (sanitize_utf8_text _); reflexivity.
  - destruct Hc as [Hp [Hcl _]]. apply in_step_on_text; assumption.
  - assert (Ht : current_text (on_tool_use pg ip id name input s) = []).
    { unfold on_tool_use. destruct (new_iteration s) eqn:Hn.
      - destruct (String.eqb name "Task"); [| rewrite drain_spec]; reflexivity.
      - unfold new_iteration in Hn. apply orb_false_iff in Hn. destruct Hn as [_ Hn].
        apply negb_false_iff, bool_decide_eq_true_1 in Hn.
        destruct (String.eqb name "Task"); [| rewrite drain_spec]; st_proj; exact Hn. }
    split; [| exact Ht]. unfold in_step. rewrite Ht, frames_on_tool_use, streamed_app.
    destruct (String.eqb name "Task"); [reflexivity |].
    rewrite fold_left_app. reflexivity.
  - split.
    + eapply in_step_neutral; [apply frames_on_tool_result | | | exact Hs].
      * destruct (_ && _); repeat constructor.
      * unfold on_tool_result. destruct (_ && _); reflexivity.
    + unfold on_tool_result. destruct (_ && _); reflexivity.
  - auto.
Qed.

Lemma in_step_blocks (pg : option string) (ip : bool) (blocks : list Block) (s : State) :
  cumulative (current_text s) (flat_map block_event blocks) -> in_step s ->
  in_step (fold_left (on_block pg ip) blocks s)
  /\ current_text (fold_left (on_block pg ip) blocks s)
     = latest (current_text s) (flat_map block_event blocks).
Proof.
  revert s. induction blocks as [|b rest IH]; intros s Hc Hs; [split; [exact Hs | reflexivity] |].
  cbn [flat_map fold_left] in *. apply cumulative_app in Hc. destruct Hc as [Hb Hrest].
  destruct (in_step_on_block pg ip s b Hb Hs) as [H1 H2].
  rewrite <- H2 in Hrest. destruct (IH _ Hrest H1) as [H3 H4].
  split; [exact H3 |]. rewrite H4, H2, latest_app. reflexivity.
Qed.

Lemma current_text_run_hook (call : HookCall) (s : State) :
  current_text (run_hook resolve SANDBOX_ROOT re_findall call s) = current_text s.
Proof.
  destruct call as [tool_name tool_input tool_use_id | tool_name has_result tool_use_id];
    unfold run_hook, pre_tool_hook, post_tool_hook.
  - destruct (negb _); [reflexivity |].
    destruct tool_use_id as [tid|]; [| reflexivity].
    destruct (_ && _); reflexivity.
  - destruct tool_use_id as [tid|]; [| reflexivity].
    destruct (_ && _); [| reflexivity].
    st_proj. destruct (pending_html_files s !! tid); [| reflexivity].
    destruct has_result; reflexivity.
Qed.

Lemma turn_without_failures
    (inbound : list (list HookCall * Message)) (stream_error : option Exn) :
  process_agent_stream resolve SANDBOX_ROOT re_findall [] inbound stream_error
  = match stream_error with
    | Some e =>
        on_exception e (fold_left (on_inbound resolve SANDBOX_ROOT re_findall) inbound
                          configured)
    | None =>
        on_stream_end (fold_left (on_inbound resolve SANDBOX_ROOT re_findall) inbound
                         configured)
    end.
Proof. reflexivity. Qed.

Lemma in_step_on_inbound (s : State) (item : list HookCall * Message) :
  cumulative (current_text s) (text_events [item]) -> in_step s ->
  in_step (on_inbound resolve SANDBOX_ROOT re_findall s item)
  /\ current_text (on_inbound resolve SANDBOX_ROOT re_findall s item)
     = latest (current_text s) (text_events [item]).
Proof.
  unfold text_events. cbn [flat_map]. rewrite app_nil_r. intros Hc Hs.
  unfold on_inbound, on_message.
  assert (H0 : forall calls s0,
             in_step s0 ->
             in_step (fold_left (fun s call => run_hook resolve SANDBOX_ROOT re_findall call s)
                        calls s0)
             /\ current_text
                  (fold_left (fun s call => run_hook resolve SANDBOX_ROOT re_findall call s)
                     calls s0)
                = current_text s0).
  { clear. intros calls. induction calls as [|call calls IH]; intros s Hs;
      [split; [exact Hs | reflexivity] |].
    cbn [fold_left].
    assert (Hh : in_step (run_hook resolve SANDBOX_ROOT re_findall call s)).
    { apply (in_step_neutral s _ []); [rewrite frames_run_hook, app_nil_r; reflexivity
                                      | constructor | apply current_text_run_hook | exact Hs]. }
    destruct (IH _ Hh) as [H1 H2]. split; [exact H1 |].
    rewrite H2. apply current_text_run_hook. }
  destruct (H0 (fst item) s Hs) as [H1 H2]. clear H0.
  set (s1 := fold_left _ (fst item) s) in *.
  rewrite <- H2 in Hc |- *. clearbody s1. clear H2 s Hs.
  assert (H3 : in_step (trace ev_raw_message s1))
    by (apply (in_step_neutral s1 _ []); [st_proj; rewrite app_nil_r; reflexivity
                                         | constructor | reflexivity | exact H1]).
  destruct (snd item) as [| r u e n | group_id content |]; try (split; [exact H3 | reflexivity]).
  - unfold on_success.
    set (s2 := set_stop_reason _ (trace ev_raw_message s1)).
    assert (H4 : in_step s2)
      by (apply (in_step_neutral (trace ev_raw_message s1) _ []);
          [st_proj; rewrite app_nil_r; reflexivity | constructor | reflexivity | exact H3]).
    assert (H5 : in_step (match r with Some t => on_text t s2 | None => s2 end)
                 /\ current_text (match r with Some t => on_text t s2 | None => s2 end)
                    = latest (current_text s1)
                        (match r with Some t => [Some t] | None => [] end)).
    { destruct r as [t|]; [| split; [exact H4 | reflexivity]].
      destruct Hc as [Hp [Hcl _]]. apply in_step_on_text; assumption. }
    destruct H5 as [H5 H6]. destruct u as [u|]; [| split; assumption].
    split; [| exact H6].
    eapply (in_step_neutral _ _ [COST_UPDATE (input_tokens u) (output_tokens u)
                                   (input_tokens u + output_tokens u)]);
      [| repeat constructor | | exact H5]; [rewrite frames_emit | ]; reflexivity.
  - apply (in_step_blocks _ _ content (trace ev_raw_message s1)); assumption.
Qed.

(** X20.  When a stream opens at the first attempt and its texts are
    cumulative, the text deltas rebuild the text: what a client has on
    display for the current iteration, adding the deltas and starting
    afresh at each tool, is [current_text] at the end of the turn, which is
    the last text of the stream (empty after a tool that no text
    follows). *)
Theorem text_deltas_rebuild_the_text
    (inbound : list (list HookCall * Message)) (stream_error : option Exn) :
  cumulative [] (text_events inbound) ->
  let run := process_agent_stream resolve SANDBOX_ROOT re_findall [] inbound stream_error in
  streamed (frames run) = current_text run
  /\ current_text run = latest [] (text_events inbound).
Proof.
  intros Hc. cbv zeta. rewrite turn_without_failures.
  assert (H : forall items s,
             cumulative (current_text s) (text_events items) -> in_step s ->
             in_step (fold_left (on_inbound resolve SANDBOX_ROOT re_findall) items s)
             /\ current_text (fold_left (on_inbound resolve SANDBOX_ROOT re_findall) items s)
                = latest (current_text s) (text_events items)).
  { clear. intros items. induction items as [|item rest IH]; intros s Hc Hs;
      [split; [exact Hs | reflexivity] |].
    assert (Hcons : text_events (item :: rest) = (text_events [item] ++ text_events rest)%list)
      by (unfold text_events; cbn [flat_map]; rewrite app_nil_r; reflexivity).
    rewrite Hcons in *. clear Hcons.
    apply cumulative_app in Hc. destruct Hc as [Hi Hrest].
    destruct (in_step_on_inbound s item Hi Hs) as [H1 H2].
    rewrite <- H2 in Hrest. destruct (IH _ Hrest H1) as [H3 H4].
    cbn [fold_left]. split; [exact H3 |]. rewrite H4, H2, latest_app. reflexivity. }
  destruct (H inbound configured Hc eq_refl) as [H1 H2].
  change (current_text configured) with (@nil N) in H2.
  destruct stream_error as [e|].
  - split; [| exact H2]. rewrite frames_on_exception, streamed_app. exact H1.
  - split; [| exact H2]. rewrite frames_on_stream_end, streamed_app. exact H1.
Qed.

(** *** Tokens *)

Lemma tokens_run_hook (call : HookCall) (s : State) :
  tokens (run_hook resolve SANDBOX_ROOT re_findall call s) = tokens s.
Proof.
  destruct call as [tool_name tool_input tool_use_id | tool_name has_result tool_use_id];
    unfold run_hook, pre_tool_hook, post_tool_hook.
  - destruct (negb _); [reflexivity |].
    destruct tool_use_id as [tid|]; [| reflexivity].
    destruct (_ && _); reflexivity.
  - destruct tool_use_id as [tid|]; [| reflexivity].
    destruct (_ && _); [| reflexivity].
    st_proj. destruct (pending_html_files s !! tid); [| reflexivity].
    destruct has_result; reflexivity.
Qed.

Lemma tokens_on_text (text : Text) (s : State) : tokens (on_text text s) = tokens s.
Proof.
  unfold on_text. destruct (_ && _); [| reflexivity].
  destruct (sanitize_utf8_text _); reflexivity.
Qed.

Lemma tokens_on_block (pg : option string) (ip : bool) (s : State) (b : Block) :
  tokens (on_block pg ip s b) = tokens s.
Proof.
  destruct b as [thinking | text | id name input | id c is_error |]; cbn [on_block].
  - unfold on_thinking. destruct thinking; [reflexivity |].
    destruct (sanitize_utf8_text _); reflexivity.
  - apply tokens_on_text.
  - unfold on_tool_use. destruct (String.eqb name "Task"); [| rewrite drain_spec];
      destruct (new_iteration s); reflexivity.
  - unfold on_tool_result. destruct (_ && _); reflexivity.
  - reflexivity.
Qed.

Lemma tokens_on_inbound (s : State) (item : list HookCall * Message) :
  tokens (on_inbound resolve SANDBOX_ROOT re_findall s item)
  = match usage_of item with
    | Some u => (input_tokens u, output_tokens u)
    | None => tokens s
    end.
Proof.
  unfold on_inbound, on_message, usage_of.
  assert (Hh : tokens (fold_left (fun s call => run_hook resolve SANDBOX_ROOT re_findall call s)
                         (fst item) s) = tokens s)
    by (apply (fold_left_preserves tokens); intros; apply tokens_run_hook).
  destruct (snd item) as [| r u e n | group_id content |]; try exact Hh.
  - unfold on_success. destruct u as [u|]; [reflexivity |].
    destruct r; [rewrite tokens_on_text |]; exact Hh.
  - rewrite (fold_left_preserves tokens); [exact Hh |]. intros. apply tokens_on_block.
Qed.

Lemma tokens_of_a_turn
    (failures : list Exn) (inbound : list (list HookCall * Message))
    (stream_error : option Exn) :
  tokens (process_agent_stream resolve SANDBOX_ROOT re_findall failures inbound stream_error)
  = (input_tokens (last_usage (delivered failures inbound)),
     output_tokens (last_usage (delivered failures inbound))).
Proof.
  destruct (turn_rel
              (fun done s => tokens s = (input_tokens (last_usage done),
                                         output_tokens (last_usage done)))
              failures inbound stream_error) as [s Hs].
  - reflexivity.
  - intros n d e s Hs. exact Hs.
  - intros done item s Hs. rewrite tokens_on_inbound. unfold last_usage.
    rewrite omap_app. cbn [omap list_omap]. destruct (usage_of item) as [u|].
    + rewrite last_snoc. reflexivity.
    + rewrite app_nil_r. exact Hs.
  - cbv zeta in Hs. unfold delivered. destruct (failures !! _) as [e|]; destruct Hs as [Hs ->].
    + exact Hs.
    + destruct stream_error; exact Hs.
Qed.

(** X21.  The [total_tokens] of a [message_complete] frame is the sum of
    the input and output tokens of the last completion message that
    reports a usage, and 0 if none does: the usage of a turn is replaced by
    each report, not added up. *)
Theorem completion_carries_the_last_usage
    (failures : list Exn) (inbound : list (list HookCall * Message))
    (stream_error : option Exn) (tools : list string) (total : Z)
    (reason : option string) :
  In (MESSAGE_COMPLETE tools total reason)
     (frames (process_agent_stream resolve SANDBOX_ROOT re_findall failures inbound
                stream_error)) ->
  total = (input_tokens (last_usage inbound) + output_tokens (last_usage inbound))%Z.
Proof.
  intros Hin.
  destruct (last_frame_of_a_turn failures inbound stream_error)
    as [body [Hbody [[e Hf] | [Hd Hf]]]]; cbv zeta in Hf; rewrite Hf in Hin;
    apply in_app_or in Hin; rewrite List.Forall_forall in Hbody;
    (destruct Hin as [Hin | [Hin | []]]; [apply Hbody in Hin; discriminate |]);
    [discriminate |].
  injection Hin as _ <- _.
  pose proof (tokens_of_a_turn failures inbound stream_error) as Ht.
  rewrite Hd in Ht. unfold tokens in Ht. injection Ht as -> ->. reflexivity.
Qed.

(** *** Hook calls in the trace *)

Lemma hook_counts_run_hook (call : HookCall) (s : State) :
  hook_counts (run_hook resolve SANDBOX_ROOT re_findall call s)
  = (if denied resolve SANDBOX_ROOT re_findall call then S (fst (hook_counts s)) else fst (hook_counts s),
     if denied resolve SANDBOX_ROOT re_findall call then snd (hook_counts s) else S (snd (hook_counts s))).
Proof.
  destruct call as [tool_name tool_input tool_use_id | tool_name has_result tool_use_id];
    unfold run_hook, pre_tool_hook, post_tool_hook, denied.
  - destruct (negb _); [reflexivity |].
    destruct tool_use_id as [tid|]; [| reflexivity].
    destruct (_ && _); reflexivity.
  - destruct tool_use_id as [tid|]; [| reflexivity].
    destruct (_ && _); [| reflexivity].
    st_proj. destruct (pending_html_files s !! tid); [| reflexivity].
    destruct has_result; reflexivity.
Qed.

Lemma hook_counts_on_text (text : Text) (s : State) :
  hook_counts (on_text text s) = hook_counts s.
Proof.
  unfold on_text. destruct (_ && _); [| reflexivity].
  destruct (sanitize_utf8_text _); reflexivity.
Qed.

Lemma hook_counts_on_block (pg : option string) (ip : bool) (s : State) (b : Block) :
  hook_counts (on_block pg ip s b) = hook_counts s.
Proof.
  destruct b as [thinking | text | id name input | id c is_error |]; cbn [on_block].
  - unfold on_thinking. destruct thinking; [reflexivity |].
    destruct (sanitize_utf8_text _); reflexivity.
  - apply hook_counts_on_text.
  - unfold on_tool_use. destruct (String.eqb name "Task"); [| rewrite drain_spec];
      destruct (new_iteration s); reflexivity.
  - unfold on_tool_result. destruct (_ && _); reflexivity.
  - reflexivity.
Qed.

Lemma hook_counts_on_message (s : State) (msg : Message) :
  hook_counts (on_message s msg) = hook_counts s.
Proof.
  unfold on_message. destruct msg as [| r u e n | group_id content |]; try reflexivity.
  - unfold on_success. destruct u; destruct r; st_proj; unfold hook_counts; st_proj;
      try reflexivity;
      match goal with
      | |- context [on_text ?t ?s0] =>
          pose proof (hook_counts_on_text t s0) as H; unfold hook_counts in H;
          injection H as H1 H2; cbn [log stats update_stats sandbox_blocks hooks_triggered];
          rewrite ?H1, ?H2; reflexivity
      end.
  - rewrite (fold_left_preserves hook_counts); [reflexivity |].
    intros. apply hook_counts_on_block.
Qed.

(** X22.  At the end of a turn the trace has counted every call of the
    hooks that the turn handled: [sandbox_blocks] is the number of
    [PreToolUse] calls that the sandbox check refuses, [hooks_triggered]
    the number of the other calls (the [keep_stream] hook is not
    counted). *)
Theorem trace_counts_the_hook_calls
    (failures : list Exn) (inbound : list (list HookCall * Message))
    (stream_error : option Exn) :
  let run := process_agent_stream resolve SANDBOX_ROOT re_findall failures inbound
               stream_error in
  let calls := all_calls (delivered failures inbound) in
  sandbox_blocks (stats (tracer run)) = length (List.filter (denied resolve SANDBOX_ROOT re_findall) calls)
  /\ hooks_triggered (stats (tracer run))
     = length (List.filter (fun call => negb (denied resolve SANDBOX_ROOT re_findall call)) calls).
Proof.
  cbv zeta.
  assert (H : hook_counts (process_agent_stream resolve SANDBOX_ROOT re_findall failures
                             inbound stream_error)
              = (length (List.filter (denied resolve SANDBOX_ROOT re_findall) (all_calls (delivered failures inbound))),
                 length (List.filter (fun call => negb (denied resolve SANDBOX_ROOT re_findall call))
                           (all_calls (delivered failures inbound))))).
  { destruct (turn_rel
                (fun done s =>
                   hook_counts s
                   = (length (List.filter (denied resolve SANDBOX_ROOT re_findall) (all_calls done)),
                      length (List.filter (fun call => negb (denied resolve SANDBOX_ROOT re_findall call)) (all_calls done))))
                failures inbound stream_error) as [s Hs].
    - reflexivity.
    - intros n d e s Hs. exact Hs.
    - intros done item s Hs. unfold on_inbound. rewrite hook_counts_on_message.
      unfold all_calls. rewrite flat_map_app'. cbn [flat_map]. rewrite app_nil_r.
      fold (all_calls done). revert s Hs. generalize (all_calls done).
      induction (fst item) as [|call calls IH]; intros before s Hs;
        [rewrite app_nil_r; exact Hs |].
      cbn [fold_left].
      replace (before ++ call :: calls)%list with ((before ++ [call]) ++ calls)%list
        by (rewrite <- app_assoc; reflexivity).
      apply IH. rewrite hook_counts_run_hook, Hs, !List.filter_app, !length_app.
      cbn [List.filter fst snd]. destruct (denied resolve SANDBOX_ROOT re_findall call); cbn [negb length];
        f_equal; lia.
    - cbv zeta in Hs. unfold delivered.
      destruct (failures !! _) as [e|]; destruct Hs as [Hs ->].
      + exact Hs.
      + destruct stream_error; exact Hs. }
  unfold hook_counts in H. injection H as H1 H2. split; assumption.
Qed.

End Turn.

Lemma completion_lists_the_tools_used_witness :
  NoDup ["Task"; "Read"]
  /\ forall name,
       In name ["Task"; "Read"]
       <-> In name
             (tool_names
                (all_blocks
                   [([], ContentMessage "group"
                           [ToolUseBlock "toolu_1" "Read" {[ "file_path" := "README.md" ]};
                            ToolUseBlock "toolu_2" "Task" ∅;
                            ToolUseBlock "toolu_3" "Read" {[ "file_path" := "a.md" ]}])])).
Proof.
  apply (completion_lists_the_tools_used
           (LexicalFS.resolve LexicalFS.project_root) LexicalFS.sandbox_root
           LexicalFS.no_paths [] _ None ["Task"; "Read"] 0%Z None).
  vm_compute. right. right. right. right. left. reflexivity.
Defined.

Lemma text_deltas_rebuild_the_text_witness :
  streamed (frames (demo_turn [] cumulative_stream None))
  = current_text (demo_turn [] cumulative_stream None)
  /\ current_text (demo_turn [] cumulative_stream None)
     = latest [] (text_events cumulative_stream).
Proof.
  apply (text_deltas_rebuild_the_text
           (LexicalFS.resolve LexicalFS.project_root) LexicalFS.sandbox_root
           LexicalFS.no_paths cumulative_stream None).
  cbn [cumulative_stream text_events flat_map block_event app snd cumulative].
  repeat split; try (apply prefix_nil); try (eexists; reflexivity);
    intros H; vm_compute in H; intuition discriminate.
Defined.

Example cumulative_stream_frames :
  frames (demo_turn [] cumulative_stream None)
  = [SESSION_CONFIG 30; TEXT_DELTA (text_of "Let me"); TEXT_DELTA (text_of " look.");
     TOOL_START "toolu_1" "Read" 1; TOOL_RESULT "toolu_1" "completed";
     TEXT_DELTA (text_of "Done");
     MESSAGE_COMPLETE ["Read"] 0 (Some "end_turn")].
Proof. vm_compute. reflexivity. Qed.

Lemma completion_carries_the_last_usage_witness :
  320%Z
  = (input_tokens (last_usage stream_with_two_completions)
     + output_tokens (last_usage stream_with_two_completions))%Z.
Proof.
  apply (completion_carries_the_last_usage
           (LexicalFS.resolve LexicalFS.project_root) LexicalFS.sandbox_root
           LexicalFS.no_paths [] stream_with_two_completions None [] 320%Z
           (Some "end_turn")).
  vm_compute. do 4 right. left. reflexivity.
Defined.

Example hook_after_the_last_tool_is_not_shown :
  frames (demo_turn [] stream_with_hooks None)
  = [SESSION_CONFIG 30; HOOK_PRE_TOOL "Read" "allow";
     TOOL_START "toolu_1" "Read" 1; TOOL_RESULT "toolu_1" "completed";
     MESSAGE_COMPLETE ["Read"] 0 (Some "end_turn")]
  /\ hook_events_queue (demo_turn [] stream_with_hooks None) = [post_tool "Read"].
Proof. split; vm_compute; reflexivity. Qed.

(** ** Extended thinking *)

Section ThinkingFacts.

Variable resolve : string -> option (list string).
Variable SANDBOX_ROOT : list string.
Variable re_findall : PathPattern -> string -> list string.
Variable reason_text : Reason -> string.

Lemma on_events_spec (events : list ThinkingMode.StreamEvent) :
  forall (started : bool) (s : ThinkingMode.State),
    let s' := snd (fold_left ThinkingMode.on_event events (started, s)) in
    ThinkingMode.yielded s'
    = (ThinkingMode.yielded s
       ++ omap delta_frame (if started then events else after_first_start events))%list
    /\ ThinkingMode.tools_used s' = ThinkingMode.tools_used s
    /\ ThinkingMode.total_input_tokens s' = ThinkingMode.total_input_tokens s
    /\ ThinkingMode.total_output_tokens s' = ThinkingMode.total_output_tokens s
    /\ ThinkingMode.iteration s' = ThinkingMode.iteration s.
Proof.
  induction events as [|event rest IH]; intros started s; cbv zeta.
  - cbn. destruct started; rewrite app_nil_r; auto.
  - cbn [fold_left].
    destruct event as [[| | |] | [thinking | text |] | |]; cbn [ThinkingMode.on_event];
      try (destruct started);
      match goal with
      | |- context [fold_left _ rest (?b, ?s1)] =>
          destruct (IH b s1) as [H1 [H2 [H3 [H4 H5]]]]; rewrite H1, H2, H3, H4, H5
      end;
      cbn; rewrite <- ?app_assoc; auto.
Qed.

Lemma sandbox_error_is_an_error (text : string) :
  ThinkingMode.is_error ("[SANDBOX ERROR] " ++ text) = true.
Proof. reflexivity. Qed.

Lemma run_tools_spec (blocks : list ThinkingMode.ContentBlock) :
  forall s : ThinkingMode.State,
    let s' := fold_left (ThinkingMode.run_tool resolve SANDBOX_ROOT re_findall reason_text)
                blocks s in
    ThinkingMode.yielded s'
    = (ThinkingMode.yielded s
       ++ flat_map (tool_frames resolve SANDBOX_ROOT re_findall (ThinkingMode.iteration s))
            blocks)%list
    /\ ThinkingMode.tools_used s'
       = (ThinkingMode.tools_used s ++ omap tool_name_of_use blocks)%list
    /\ ThinkingMode.total_input_tokens s' = ThinkingMode.total_input_tokens s
    /\ ThinkingMode.total_output_tokens s' = ThinkingMode.total_output_tokens s
    /\ ThinkingMode.iteration s' = ThinkingMode.iteration s.
Proof.
  induction blocks as [|b rest IH]; intros s; cbv zeta.
  - cbn. rewrite !app_nil_r. auto.
  - cbn [fold_left].
    destruct (IH (ThinkingMode.run_tool resolve SANDBOX_ROOT re_findall reason_text s b))
      as [H1 [H2 [H3 [H4 H5]]]].
    rewrite H1, H2, H3, H4, H5. clear IH H1 H2 H3 H4 H5.
    destruct b as [thinking | text | id name input output |];
      cbn [ThinkingMode.run_tool flat_map tool_frames omap list_omap tool_name_of_use app];
      auto.
    unfold ThinkingMode.execute_thinking_tool.
    destruct (fst (sandbox_check_tool resolve SANDBOX_ROOT re_findall name input));
      cbn [negb orb]; rewrite ?sandbox_error_is_an_error; cbn;
      rewrite <- ?app_assoc; auto.
Qed.

Lemma round_spec (s : ThinkingMode.State) (r : ThinkingMode.Round) :
  let p := ThinkingMode.round resolve SANDBOX_ROOT re_findall reason_text s r in
  ThinkingMode.yielded (fst p)
  = (ThinkingMode.yielded s
     ++ round_frames resolve SANDBOX_ROOT re_findall (ThinkingMode.iteration s) r)%list
  /\ ThinkingMode.tools_used (fst p)
     = (ThinkingMode.tools_used s ++ omap tool_name_of_use (tool_uses r))%list
  /\ ThinkingMode.total_input_tokens (fst p)
     = (ThinkingMode.total_input_tokens s + fst (round_usage r))%Z
  /\ ThinkingMode.total_output_tokens (fst p)
     = (ThinkingMode.total_output_tokens s + snd (round_usage r))%Z
  /\ ThinkingMode.iteration (fst p) = ThinkingMode.iteration s
  /\ snd p = match ThinkingMode.outcome r with
             | inl e => ThinkingMode.raised e
             | inr _ =>
                 if asks_for_tools r then ThinkingMode.continues else ThinkingMode.finished
             end.
Proof.
  cbv zeta. unfold ThinkingMode.round, round_frames, round_usage, asks_for_tools, tool_uses.
  destruct (on_events_spec (ThinkingMode.events r) false s) as [E1 [E2 [E3 [E4 E5]]]].
  set (s1 := snd (fold_left ThinkingMode.on_event (ThinkingMode.events r) (false, s))) in *.
  destruct (ThinkingMode.outcome r) as [e | response]; cbn [fst snd].
  - rewrite E1, E2, E3, E4, E5. cbn. rewrite !app_nil_r, !Z.add_0_r. repeat split; reflexivity.
  - set (s2 := match ThinkingMode.usage response with
               | Some u => ThinkingMode.set_tokens _ _ s1
               | None => s1
               end).
    assert (H2 : ThinkingMode.yielded s2 = ThinkingMode.yielded s1
                 /\ ThinkingMode.tools_used s2 = ThinkingMode.tools_used s1
                 /\ ThinkingMode.total_input_tokens s2
                    = (ThinkingMode.total_input_tokens s1
                       + fst match ThinkingMode.usage response with
                             | Some u => (input_tokens u, output_tokens u)
                             | None => (0, 0)%Z
                             end)%Z
                 /\ ThinkingMode.total_output_tokens s2
                    = (ThinkingMode.total_output_tokens s1
                       + snd match ThinkingMode.usage response with
                             | Some u => (input_tokens u, output_tokens u)
                             | None => (0, 0)%Z
                             end)%Z
                 /\ ThinkingMode.iteration s2 = ThinkingMode.iteration s1).
    { unfold s2. destruct (ThinkingMode.usage response); cbn; rewrite ?Z.add_0_r; repeat split; reflexivity. }
    destruct H2 as [F1 [F2 [F3 [F4 F5]]]]. clearbody s2.
    destruct (List.filter ThinkingMode.is_tool_use (ThinkingMode.content response))
      as [|b rest] eqn:Hf; cbn [fst snd].
    + rewrite F1, F2, F3, F4, F5, E1, E2, E3, E4, E5. cbn. rewrite !app_nil_r. repeat split; reflexivity.
    + destruct (run_tools_spec (b :: rest) s2) as [G1 [G2 [G3 [G4 G5]]]].
      cbv zeta in G1, G2, G3, G4, G5.
      rewrite G1, G2, G3, G4, G5, F1, F2, F3, F4, F5, E1, E2, E3, E4, E5.
      rewrite <- !app_assoc. repeat split; reflexivity.
Qed.

(** The loop from a state [s] with [remaining] rounds left: it makes [m]
    calls, the ones numbered from [iteration s + 1] on. *)
Lemma loop_spec (api : nat -> ThinkingMode.Round) (remaining : nat) :
  forall s : ThinkingMode.State,
    let p := ThinkingMode.loop resolve SANDBOX_ROOT re_findall reason_text api remaining s in
    let k0 := ThinkingMode.iteration s in
    exists m,
      (m <= remaining)%nat /\ ((0 < remaining)%nat -> (0 < m)%nat)
      /\ ThinkingMode.iteration (fst p) = (k0 + m)%nat
      /\ (forall k, (k0 < k < k0 + m)%nat -> asks_for_tools (api k) = true)
      /\ ((0 < m < remaining)%nat -> asks_for_tools (api (k0 + m)%nat) = false)
      /\ snd p = (if (0 <? m)%nat
                  then match ThinkingMode.outcome (api (k0 + m)%nat) with
                       | inl e => Some e
                       | inr _ => None
                       end
                  else None)
      /\ ThinkingMode.yielded (fst p)
         = (ThinkingMode.yielded s
            ++ flat_map (fun k => round_frames resolve SANDBOX_ROOT re_findall k (api k))
                 (seq (S k0) m))%list
      /\ ThinkingMode.tools_used (fst p)
         = (ThinkingMode.tools_used s
            ++ flat_map (fun k => omap tool_name_of_use (tool_uses (api k))) (seq (S k0) m))%list
      /\ ThinkingMode.total_input_tokens (fst p)
         = (ThinkingMode.total_input_tokens s
            + total_of (fun k => fst (round_usage (api k))) (seq (S k0) m))%Z
      /\ ThinkingMode.total_output_tokens (fst p)
         = (ThinkingMode.total_output_tokens s
            + total_of (fun k => snd (round_usage (api k))) (seq (S k0) m))%Z.
Proof.
  induction remaining as [|remaining IH]; intros s; cbv zeta.
  - exists 0%nat. cbn. rewrite !app_nil_r, !Z.add_0_r, Nat.add_0_r.
    repeat split; auto; lia.
  - cbn [ThinkingMode.loop].
    set (s0 := ThinkingMode.set_iteration (S (ThinkingMode.iteration s)) s).
    destruct (round_spec s0 (api (ThinkingMode.iteration s0))) as [R1 [R2 [R3 [R4 [R5 R6]]]]].
    cbv zeta in R1, R2, R3, R4, R5, R6.
    change (ThinkingMode.iteration s0) with (S (ThinkingMode.iteration s)) in *.
    change (ThinkingMode.yielded s0) with (ThinkingMode.yielded s) in *.
    change (ThinkingMode.tools_used s0) with (ThinkingMode.tools_used s) in *.
    change (ThinkingMode.total_input_tokens s0) with (ThinkingMode.total_input_tokens s) in *.
    change (ThinkingMode.total_output_tokens s0) with (ThinkingMode.total_output_tokens s) in *.
    destruct (ThinkingMode.round resolve SANDBOX_ROOT re_findall reason_text s0
                (api (S (ThinkingMode.iteration s)))) as [s1 exit] eqn:Hround.
    cbn [fst snd] in *.
    set (k1 := S (ThinkingMode.iteration s)) in *.
    assert (Hone :
      forall out : option Exn,
        out = match ThinkingMode.outcome (api k1) with inl e => Some e | inr _ => None end ->
        asks_for_tools (api k1) = false ->
        exists m,
          (m <= S remaining)%nat /\ ((0 < S remaining)%nat -> (0 < m)%nat)
          /\ ThinkingMode.iteration s1 = (ThinkingMode.iteration s + m)%nat
          /\ (forall k, (ThinkingMode.iteration s < k < ThinkingMode.iteration s + m)%nat ->
                        asks_for_tools (api k) = true)
          /\ ((0 < m < S remaining)%nat ->
              asks_for_tools (api (ThinkingMode.iteration s + m)%nat) = false)
          /\ out = (if (0 <? m)%nat
                    then match ThinkingMode.outcome (api (ThinkingMode.iteration s + m)%nat) with
                         | inl e => Some e
                         | inr _ => None
                         end
                    else None)
          /\ ThinkingMode.yielded s1
             = (ThinkingMode.yielded s
                ++ flat_map (fun k => round_frames resolve SANDBOX_ROOT re_findall k (api k))
                     (seq k1 m))%list
          /\ ThinkingMode.tools_used s1
             = (ThinkingMode.tools_used s
                ++ flat_map (fun k => omap tool_name_of_use (tool_uses (api k))) (seq k1 m))%list
          /\ ThinkingMode.total_input_tokens s1
             = (ThinkingMode.total_input_tokens s
                + total_of (fun k => fst (round_usage (api k))) (seq k1 m))%Z
          /\ ThinkingMode.total_output_tokens s1
             = (ThinkingMode.total_output_tokens s
                + total_of (fun k => snd (round_usage (api k))) (seq k1 m))%Z).
    { intros out Hout Hno. exists 1%nat.
      replace (ThinkingMode.iteration s + 1)%nat with k1 by (unfold k1; lia).
      cbn [seq flat_map total_of fold_right Nat.ltb Nat.leb].
      rewrite !app_nil_r, !Z.add_0_r.
      repeat split; auto; try lia. }
    assert (Hexit :
      match exit with
      | ThinkingMode.raised e =>
          ThinkingMode.outcome (api k1) = inl e /\ asks_for_tools (api k1) = false
      | ThinkingMode.finished =>
          (exists response, ThinkingMode.outcome (api k1) = inr response)
          /\ asks_for_tools (api k1) = false
      | ThinkingMode.continues =>
          (exists response, ThinkingMode.outcome (api k1) = inr response)
          /\ asks_for_tools (api k1) = true
      end).
    { rewrite R6. unfold asks_for_tools, tool_uses.
      destruct (ThinkingMode.outcome (api k1)) as [e | response]; [split; reflexivity |].
      destruct (List.filter ThinkingMode.is_tool_use (ThinkingMode.content response));
        split; eauto. }
    clear R6.
    destruct exit as [e | |].
    + destruct Hexit as [Ho Hno]. apply Hone; [rewrite Ho; reflexivity | exact Hno].
    + destruct Hexit as [[response Ho] Hno].
      apply Hone; [rewrite Ho; reflexivity | exact Hno].
    + destruct Hexit as [[response Ho] Hasks].
      destruct (IH s1) as [m [M1 [M2 [M3 [M4 [M5 [M6 [M7 [M8 [M9 M10]]]]]]]]]].
      cbv zeta in M3, M4, M5, M6, M7, M8, M9, M10. rewrite R5 in *.
      exists (S m).
      replace (ThinkingMode.iteration s + S m)%nat with (k1 + m)%nat by (unfold k1; lia).
      split; [lia |]. split; [lia |]. split; [exact M3 |].
      split.
      { intros k Hk. destruct (Nat.eq_dec k k1) as [-> | Hne]; [exact Hasks |].
        apply M4. unfold k1 in *. lia. }
      split.
      { intros Hm. destruct m as [|m'].
        - exfalso. destruct remaining; [lia |]. specialize (M2 ltac:(lia)). lia.
        - apply M5. lia. }
      split.
      { rewrite M6. destruct m as [|m'].
        - destruct remaining; [| specialize (M2 ltac:(lia)); lia].
          cbn [Nat.ltb Nat.leb]. rewrite Nat.add_0_r, Ho. reflexivity.
        - reflexivity. }
      cbn [seq flat_map total_of fold_right].
      fold (total_of (fun k => fst (round_usage (api k))) (seq (S k1) m)).
      fold (total_of (fun k => snd (round_usage (api k))) (seq (S k1) m)).
      rewrite M7, M8, M9, M10, R1, R2, R3, R4, <- !app_assoc.
      repeat split; try reflexivity; lia.
Qed.

(** What a turn of the endpoint comes to. *)
Lemma thinking_run_spec (api : nat -> ThinkingMode.Round) :
  let run := ThinkingMode.process_thinking_stream resolve SANDBOX_ROOT re_findall
               reason_text api in
  let n := ThinkingMode.iteration run in
  (1 <= n <= ThinkingMode.max_iterations)%nat
  /\ (forall k, (1 <= k < n)%nat -> asks_for_tools (api k) = true)
  /\ ((n < ThinkingMode.max_iterations)%nat -> asks_for_tools (api n) = false)
  /\ ThinkingMode.tools_used run
     = flat_map (fun k => omap tool_name_of_use (tool_uses (api k))) (seq 1 n)
  /\ ThinkingMode.total_input_tokens run
     = total_of (fun k => fst (round_usage (api k))) (seq 1 n)
  /\ ThinkingMode.total_output_tokens run
     = total_of (fun k => snd (round_usage (api k))) (seq 1 n)
  /\ ThinkingMode.yielded run
     = (ThinkingMode.SESSION_CONFIG ThinkingMode.max_iterations
        :: flat_map (fun k => round_frames resolve SANDBOX_ROOT re_findall k (api k)) (seq 1 n)
        ++ match ThinkingMode.outcome (api n) with
           | inl e => [ThinkingMode.ERROR e]
           | inr _ =>
               [ThinkingMode.COST_UPDATE (ThinkingMode.total_input_tokens run)
                  (ThinkingMode.total_output_tokens run);
                ThinkingMode.MESSAGE_COMPLETE (remove_dups (ThinkingMode.tools_used run))
                  (ThinkingMode.total_input_tokens run + ThinkingMode.total_output_tokens run)
                  "end_turn" n]
           end)%list.
Proof.
  cbv zeta. unfold ThinkingMode.process_thinking_stream.
  set (s0 := ThinkingMode.emit (ThinkingMode.SESSION_CONFIG ThinkingMode.max_iterations)
               ThinkingMode.initial_state).
  destruct (loop_spec api ThinkingMode.max_iterations s0)
    as [m [M1 [M2 [M3 [M4 [M5 [M6 [M7 [M8 [M9 M10]]]]]]]]]].
  cbv zeta in M3, M4, M5, M6, M7, M8, M9, M10.
  change (ThinkingMode.iteration s0) with 0%nat in *.
  change (ThinkingMode.tools_used s0) with (@nil string) in *.
  change (ThinkingMode.total_input_tokens s0) with 0%Z in *.
  change (ThinkingMode.total_output_tokens s0) with 0%Z in *.
  change (ThinkingMode.yielded s0)
    with [ThinkingMode.SESSION_CONFIG ThinkingMode.max_iterations] in *.
  cbn [Nat.add app] in *. rewrite Z.add_0_l in M9, M10.
  assert (Hm : (0 < m)%nat) by (apply M2; unfold ThinkingMode.max_iterations; lia).
  assert (Hb : (0 <? m)%nat = true) by (apply Nat.ltb_lt; exact Hm). rewrite Hb in M6.
  destruct (ThinkingMode.loop resolve SANDBOX_ROOT re_findall reason_text api
              ThinkingMode.max_iterations s0) as [s1 out].
  cbn [fst snd] in *. subst out.
  destruct (ThinkingMode.outcome (api m)) as [e | response] eqn:Ho;
    cbn [ThinkingMode.emit ThinkingMode.iteration ThinkingMode.tools_used
         ThinkingMode.total_input_tokens ThinkingMode.total_output_tokens
         ThinkingMode.yielded];
    rewrite M3, ?Ho, M7, M8, M9, M10;
    (split; [lia |]); (split; [intros k Hk; apply M4; lia |]);
    (split; [intros Hn; apply M5; lia |]);
    repeat split; rewrite <- ?app_assoc; reflexivity.
Qed.


(** X24.  The thinking and text deltas that the endpoint sends are, round
    by round and in order, the deltas that the stream of the round delivers
    after its first thinking, text or tool-use block has started, with
    their text as it is: this endpoint does not sanitize them.  Its tool
    frames are, for every tool-use block of the final message of every
    round, a [tool_start] frame with the number of the round followed by
    the [tool_result] frame of the same tool, whose status is [error]
    exactly when the sandbox check refuses the call or the output of the
    tool starts with an error mark. *)
Theorem thinking_frames_round_by_round (api : nat -> ThinkingMode.Round) :
  let run := ThinkingMode.process_thinking_stream resolve SANDBOX_ROOT re_findall
               reason_text api in
  let n := ThinkingMode.iteration run in
  List.filter is_delta_frame (ThinkingMode.yielded run)
  = flat_map (fun k => omap delta_frame (after_first_start (ThinkingMode.events (api k))))
      (seq 1 n)
  /\ List.filter is_tool_frame_of_thinking (ThinkingMode.yielded run)
     = flat_map (fun k => flat_map (tool_frames resolve SANDBOX_ROOT re_findall k)
                            (tool_uses (api k))) (seq 1 n).
Proof.
  cbv zeta. destruct (thinking_run_spec api) as [_ [_ [_ [_ [_ [_ H7]]]]]].
  cbv zeta in H7. rewrite H7.
  set (n := ThinkingMode.iteration _).
  assert (Hd : forall evs,
             List.filter is_delta_frame (omap delta_frame evs) = omap delta_frame evs
             /\ List.filter is_tool_frame_of_thinking (omap delta_frame evs) = []).
  { intros evs. induction evs as [|ev rest [IH1 IH2]]; [split; reflexivity |].
    destruct ev as [| [| |] | |]; cbn; rewrite ?IH1, ?IH2; split; reflexivity. }
  assert (Ht : forall k blocks,
             List.filter is_delta_frame
               (flat_map (tool_frames resolve SANDBOX_ROOT re_findall k) blocks) = []
             /\ List.filter is_tool_frame_of_thinking
                  (flat_map (tool_frames resolve SANDBOX_ROOT re_findall k) blocks)
                = flat_map (tool_frames resolve SANDBOX_ROOT re_findall k) blocks).
  { intros k. induction blocks as [|b rest [IH1 IH2]]; [split; reflexivity |].
    destruct b; cbn; rewrite ?IH1, ?IH2; split; reflexivity. }
  assert (Hr : forall ks,
             List.filter is_delta_frame
               (flat_map (fun k => round_frames resolve SANDBOX_ROOT re_findall k (api k)) ks)
             = flat_map (fun k => omap delta_frame
                                    (after_first_start (ThinkingMode.events (api k)))) ks
             /\ List.filter is_tool_frame_of_thinking
                  (flat_map (fun k => round_frames resolve SANDBOX_ROOT re_findall k (api k)) ks)
                = flat_map (fun k => flat_map (tool_frames resolve SANDBOX_ROOT re_findall k)
                                       (tool_uses (api k))) ks).
  { induction ks as [|k rest [IH1 IH2]]; [split; reflexivity |].
    cbn [flat_map]. unfold round_frames at 1 3.
    rewrite !List.filter_app, IH1, IH2.
    destruct (Hd (after_first_start (ThinkingMode.events (api k)))) as [D1 D2].
    destruct (Ht k (tool_uses (api k))) as [T1 T2].
    rewrite D1, D2, T1, T2, app_nil_r. split; reflexivity. }
  destruct (Hr (seq 1 n)) as [R1 R2].
  cbn [List.filter is_delta_frame is_tool_frame_of_thinking].
  rewrite !List.filter_app, R1, R2.
  destruct (ThinkingMode.outcome (api n)); cbn; rewrite !app_nil_r; split; reflexivity.
Qed.

(** X25.  The token totals of the endpoint are the sums of the usages that
    the final messages of its rounds report: they add up over the rounds.
    The tools used are those of the tool-use blocks of the rounds, in
    order, and a [message_complete] frame carries the sum of the two
    totals, the stop reason [end_turn] and the number of rounds. *)
Theorem thinking_totals_add_up (api : nat -> ThinkingMode.Round) :
  let run := ThinkingMode.process_thinking_stream resolve SANDBOX_ROOT re_findall
               reason_text api in
  let n := ThinkingMode.iteration run in
  ThinkingMode.total_input_tokens run
  = total_of (fun k => fst (round_usage (api k))) (seq 1 n)
  /\ ThinkingMode.total_output_tokens run
     = total_of (fun k => snd (round_usage (api k))) (seq 1 n)
  /\ ThinkingMode.tools_used run
     = flat_map (fun k => omap tool_name_of_use (tool_uses (api k))) (seq 1 n)
  /\ forall tools total reason iterations,
       In (ThinkingMode.MESSAGE_COMPLETE tools total reason iterations)
          (ThinkingMode.yielded run) ->
       total = (total_of (fun k => fst (round_usage (api k))) (seq 1 n)
                + total_of (fun k => snd (round_usage (api k))) (seq 1 n))%Z
       /\ reason = "end_turn" /\ iterations = n.
Proof.
  cbv zeta. destruct (thinking_run_spec api) as [_ [_ [_ [H4 [H5 [H6 H7]]]]]].
  cbv zeta in H4, H5, H6, H7.
  split; [exact H5 |]. split; [exact H6 |]. split; [exact H4 |].
  intros tools total reason iterations Hin. rewrite H7 in Hin.
  destruct Hin as [Hin | Hin]; [discriminate |].
  apply in_app_or in Hin. destruct Hin as [Hin | Hin].
  - exfalso. apply in_flat_map in Hin. destruct Hin as [k [_ Hf]].
    unfold round_frames in Hf. apply in_app_or in Hf. destruct Hf as [Hf | Hf].
    + apply list_elem_of_In, list_elem_of_omap in Hf. destruct Hf as [ev [_ Hev]].
      destruct ev as [| [| |] | |]; discriminate.
    + apply in_flat_map in Hf. destruct Hf as [b [_ Hf]].
      destruct b; cbn in Hf; try contradiction.
      destruct Hf as [Hf | [Hf | []]]; discriminate.
  - destruct (ThinkingMode.outcome (api _)).
    + destruct Hin as [Hin | []]. discriminate.
    + destruct Hin as [Hin | [Hin | []]]; [discriminate |].
      injection Hin as _ <- <- <-. rewrite H5, H6. auto.
Qed.

(** X26.  In extended thinking a tool call that the sandbox check refuses
    is answered by a [tool_result] frame with status [error], and what
    [execute_thinking_tool] returns for it is the sandbox error with the
    reason of the check, whatever running the tool would have returned:
    the tool is not run. *)
Theorem refused_tool_is_reported_as_an_error
    (api : nat -> ThinkingMode.Round) (k : nat) (id name : string) (input : ToolInput)
    (output : string) :
  let run := ThinkingMode.process_thinking_stream resolve SANDBOX_ROOT re_findall
               reason_text api in
  (1 <= k <= ThinkingMode.iteration run)%nat ->
  In (ThinkingMode.tool_use_content id name input output) (tool_uses (api k)) ->
  fst (sandbox_check_tool resolve SANDBOX_ROOT re_findall name input) = false ->
  In (ThinkingMode.TOOL_RESULT id "error") (ThinkingMode.yielded run)
  /\ ThinkingMode.execute_thinking_tool resolve SANDBOX_ROOT re_findall reason_text
       name input output
     = "[SANDBOX ERROR] "
       ++ reason_text (snd (sandbox_check_tool resolve SANDBOX_ROOT re_findall name input)).
Proof.
  cbv zeta. intros Hk Hin Hdenied.
  destruct (thinking_run_spec api) as [_ [_ [_ [_ [_ [_ H7]]]]]]. cbv zeta in H7.
  split.
  - rewrite H7. right. apply in_or_app. left. apply in_flat_map. exists k. split.
    + apply in_seq. lia.
    + unfold round_frames. apply in_or_app. right. apply in_flat_map.
      exists (ThinkingMode.tool_use_content id name input output).
      split; [exact Hin |]. cbn. rewrite Hdenied. cbn. auto.
  - unfold ThinkingMode.execute_thinking_tool. rewrite Hdenied. reflexivity.
Qed.

End ThinkingFacts.

Lemma refused_tool_is_reported_as_an_error_witness :
  In (ThinkingMode.TOOL_RESULT "toolu_1" "error")
     (ThinkingMode.yielded (demo_thinking_turn two_rounds))
  /\ ThinkingMode.execute_thinking_tool (LexicalFS.resolve LexicalFS.project_root)
       LexicalFS.sandbox_root LexicalFS.no_paths (fun _ => "denied")
       "Write" {[ "file_path" := "/etc/passwd"; "content" := "x" ]}
       "Successfully wrote 1 characters to /etc/passwd"
     = "[SANDBOX ERROR] "
       ++ (fun _ : Reason => "denied")
            (snd (sandbox_check_tool (LexicalFS.resolve LexicalFS.project_root)
                    LexicalFS.sandbox_root LexicalFS.no_paths
                    "Write" {[ "file_path" := "/etc/passwd"; "content" := "x" ]})).
Proof.
  apply (refused_tool_is_reported_as_an_error
           (LexicalFS.resolve LexicalFS.project_root) LexicalFS.sandbox_root
           LexicalFS.no_paths (fun _ => "denied") two_rounds 1 "toolu_1" "Write"
           {[ "file_path" := "/etc/passwd"; "content" := "x" ]}
           "Successfully wrote 1 characters to /etc/passwd").
  - vm_compute. split; repeat constructor.
  - vm_compute. left. reflexivity.
  - vm_compute. reflexivity.
Defined.

Example frames_of_two_rounds :
  ThinkingMode.yielded (demo_thinking_turn two_rounds)
  = [ThinkingMode.SESSION_CONFIG 10;
     ThinkingMode.THINKING_DELTA (text_of "try " ++ [REPLACEMENT_CHAR])%list;
     ThinkingMode.TOOL_START "toolu_1" "Write" 1;
     ThinkingMode.TOOL_RESULT "toolu_1" "error";
     ThinkingMode.TEXT_DELTA (text_of "I cannot.");
     ThinkingMode.COST_UPDATE 250 25;
     ThinkingMode.MESSAGE_COMPLETE ["Write"] 275 "end_turn" 2].
Proof. vm_compute. reflexivity. Qed.

Example a_turn_that_always_asks_for_tools_ends_after_ten_rounds :
  ThinkingMode.iteration (demo_thinking_turn (fun _ => two_rounds 1)) = 10%nat
  /\ last (ThinkingMode.yielded (demo_thinking_turn (fun _ => two_rounds 1)))
     = Some (ThinkingMode.MESSAGE_COMPLETE ["Write"] 1200 "end_turn" 10).
Proof. split; vm_compute; reflexivity. Qed.

(** ** The verdict of the guard *)

Lemma check_path_fields_passes
    (cp : string -> SafeSandbox.Outcome) (fields : list string) (tool_input : ToolInput) :
  SafeSandbox.check_path_fields cp fields tool_input = None
  <-> forall field path,
        In field fields -> tool_input !! field = Some path ->
        SafeSandbox.allowed (cp path) = true.
Proof.
  induction fields as [|f rest IH]; cbn [SafeSandbox.check_path_fields].
  - split; [intros _ field path [] | reflexivity].
  - destruct (tool_input !! f) as [p|] eqn:Hf.
    + destruct (SafeSandbox.allowed (cp p)) eqn:Hp.
      * rewrite IH. split.
        -- intros H field path [<- | Hin] Hl; [congruence | eapply H; eassumption].
        -- intros H field path Hin Hl. apply (H field path); [right; exact Hin | exact Hl].
      * split; [discriminate |]. intros H.
        rewrite (H f p (or_introl eq_refl) Hf) in Hp. discriminate.
    + rewrite IH. split.
      * intros H field path [<- | Hin] Hl; [congruence | eapply H; eassumption].
      * intros H field path Hin Hl. apply (H field path); [right; exact Hin | exact Hl].
Qed.

(** X27.  The guard allows an operation exactly when, once the instants
    that are 60 seconds old are pruned, no window that counts the
    operation has reached its cap, every path given in [file_path] or
    [path] passes the path check, the command passes the command check if
    the tool is [Bash], and the content passes the content check if the
    tool is [Write].  So the content of an [Edit] is not checked, and a
    command is checked for [Bash] only. *)
Theorem guard_allows_exactly_when_every_check_passes
    (cp cc ct : string -> SafeSandbox.Outcome) (g : SafeSandbox.SecurityGuard)
    (tool_name : string) (tool_input : ToolInput) (now : Q) :
  let g1 := SafeSandbox._cleanup_old_times g now in
  SafeSandbox.allowed (snd (SafeSandbox.check_operation cp cc ct g tool_name tool_input now))
  = true
  <-> (forall k, counted_in k tool_name = true ->
         SafeSandbox.reached (SafeSandbox.window k g1)
           (SafeSandbox.cap k (SafeSandbox.policy g1)) = false)
      /\ (forall field path,
            In field ["file_path"; "path"] -> tool_input !! field = Some path ->
            SafeSandbox.allowed (cp path) = true)
      /\ (tool_name = "Bash" -> SafeSandbox.allowed (cc (get tool_input "command")) = true)
      /\ (tool_name = "Write" -> SafeSandbox.allowed (ct (get tool_input "content")) = true).
Proof.
  cbv zeta. unfold SafeSandbox.check_operation.
  set (g1 := SafeSandbox._cleanup_old_times g now).
  rewrite <- (check_path_fields_passes cp ["file_path"; "path"] tool_input).
  destruct (SafeSandbox.reached (SafeSandbox._operation_times g1) _) eqn:Hall.
  { split; [discriminate |]. intros [H _].
    specialize (H SafeSandbox.AllOps eq_refl). cbn [SafeSandbox.window SafeSandbox.cap counted_in] in H. congruence. }
  destruct (String.eqb tool_name "Write") eqn:Ew; destruct (String.eqb tool_name "Bash") eqn:Eb;
    cbn [andb].
  - apply String.eqb_eq in Ew, Eb. congruence.
  - pose proof (proj1 (String.eqb_eq _ _) Ew) as Hw.
    pose proof (proj1 (String.eqb_neq _ _) Eb) as Hb.
    destruct (SafeSandbox.reached (SafeSandbox._write_times g1) _) eqn:Hwr.
    { split; [discriminate |]. intros [H _].
      specialize (H SafeSandbox.Writes Ew).
      cbn [SafeSandbox.window SafeSandbox.cap] in H. congruence. }
    destruct (SafeSandbox.check_path_fields cp _ tool_input) as [o|] eqn:Hp.
    { pose proof (check_path_fields_refuses cp _ _ _ Hp) as Ho. cbn [snd].
      split; [congruence | intros [_ [H _]]; discriminate]. }
    change (SafeSandbox.allowed SafeSandbox.ok) with true. cbn [negb].
    destruct (SafeSandbox.allowed (ct (get tool_input "content"))) eqn:Hc; cbn [negb snd].
    + split; [| reflexivity]. intros _. split.
      * intros [| |] Hk; cbn [SafeSandbox.window SafeSandbox.cap counted_in] in *;
          [exact Hall | exact Hwr | congruence].
      * split; [reflexivity |]. split; [intros E; congruence | intros _; reflexivity].
    + split; [congruence |]. intros [_ [_ [_ H]]]. specialize (H Hw). congruence.
  - pose proof (proj1 (String.eqb_neq _ _) Ew) as Hw.
    pose proof (proj1 (String.eqb_eq _ _) Eb) as Hb.
    destruct (SafeSandbox.reached (SafeSandbox._bash_times g1) _) eqn:Hbr.
    { split; [discriminate |]. intros [H _].
      specialize (H SafeSandbox.Shell Eb).
      cbn [SafeSandbox.window SafeSandbox.cap] in H. congruence. }
    destruct (SafeSandbox.check_path_fields cp _ tool_input) as [o|] eqn:Hp.
    { pose proof (check_path_fields_refuses cp _ _ _ Hp) as Ho. cbn [snd].
      split; [congruence | intros [_ [H _]]; discriminate]. }
    change (SafeSandbox.allowed SafeSandbox.ok) with true.
    destruct (SafeSandbox.allowed (cc (get tool_input "command"))) eqn:Hc; cbn [negb snd].
    + split; [| reflexivity]. intros _. split.
      * intros [| |] Hk; cbn [SafeSandbox.window SafeSandbox.cap counted_in] in *;
          [exact Hall | congruence | exact Hbr].
      * split; [reflexivity |]. split; [intros _; reflexivity | intros E; congruence].
    + split; [congruence |]. intros [_ [_ [H _]]]. specialize (H Hb). congruence.
  - pose proof (proj1 (String.eqb_neq _ _) Ew) as Hw.
    pose proof (proj1 (String.eqb_neq _ _) Eb) as Hb.
    destruct (SafeSandbox.check_path_fields cp _ tool_input) as [o|] eqn:Hp.
    { pose proof (check_path_fields_refuses cp _ _ _ Hp) as Ho. cbn [snd].
      split; [congruence | intros [_ [H _]]; discriminate]. }
    change (SafeSandbox.allowed SafeSandbox.ok) with true. cbn [negb snd].
    split; [| reflexivity]. intros _. split.
    + intros [| |] Hk; cbn [SafeSandbox.window SafeSandbox.cap counted_in] in *;
        [exact Hall | congruence | congruence].
    + split; [reflexivity |]. split; intros E; contradiction.
Qed.

(** ** The success rate *)

Lemma round2_of_a_percentage (v : Q) :
  (0 <= v)%Q -> (v <= 100)%Q -> (0 <= Metrics.round2 v <= 100)%Q.
Proof.
  intros H0 H100. unfold Metrics.round2.
  set (scaled := (v * 100)%Q).
  assert (Hs0 : (0 <= scaled)%Q) by (unfold scaled; nra).
  assert (Hs1 : (scaled <= 10000)%Q) by (unfold scaled; nra).
  set (low := Qfloor scaled).
  assert (Hl0 : (0 <= low)%Z).
  { change 0%Z with (Qfloor 0). apply Qfloor_resp_le. exact Hs0. }
  assert (Hl1 : (low <= 10000)%Z).
  { rewrite <- (Qfloor_Z 10000). apply Qfloor_resp_le. exact Hs1. }
  set (n := match (scaled - inject_Z low ?= 1 # 2)%Q with
            | Lt => low
            | Gt => (low + 1)%Z
            | Eq => if Z.even low then low else (low + 1)%Z
            end).
  assert (Hn : (0 <= n <= 10000)%Z).
  { destruct (Z.eq_dec low 10000%Z) as [E | E].
    - assert (Hlt : (scaled - inject_Z low < 1 # 2)%Q).
      { rewrite E. change (inject_Z 10000) with 10000%Q. lra. }
      assert (Hcmp : (scaled - inject_Z low ?= 1 # 2)%Q = Lt)
        by (apply (proj1 (Qlt_alt _ _)); exact Hlt).
      unfold n. rewrite Hcmp. lia.
    - unfold n. destruct (scaled - inject_Z low ?= 1 # 2)%Q; [destruct (Z.even low) | |]; lia. }
  rewrite Qred_correct.
  destruct Hn as [Hn0 Hn1]. rewrite Zle_Qle in Hn0, Hn1.
  change (inject_Z 0) with 0%Q in Hn0. change (inject_Z 10000) with 10000%Q in Hn1.
  split.
  - apply Qle_shift_div_l; [reflexivity |]. lra.
  - apply Qle_shift_div_r; [reflexivity |]. lra.
Qed.

Lemma counters_without_reset (ops : list Metrics.Op) :
  forall m : Metrics.MetricsCollector,
    Forall (fun op => is_reset_op op = false) ops ->
    let m' := fold_left Metrics.apply_op ops m in
    Metrics.total m' = (Metrics.total m + Z.of_nat (length (List.filter is_start_op ops)))%Z
    /\ (Metrics.success m' + Metrics.error m'
        = Metrics.success m + Metrics.error m
          + Z.of_nat (length (List.filter is_complete_op ops)))%Z
    /\ (Metrics.success m <= Metrics.success m')%Z
    /\ (Metrics.error m <= Metrics.error m')%Z.
Proof.
  induction ops as [|op rest IH]; intros m Hall; cbv zeta.
  - cbn. lia.
  - inversion Hall as [|? ? Hop Hrest]; subst. cbn [fold_left].
    destruct (IH (Metrics.apply_op m op) Hrest) as [I1 [I2 [I3 I4]]].
    cbv zeta in I1, I2, I3, I4. rewrite I1, I2.
    destruct op as [now | now_ms | st now_ms | st now_ms ok | i o | tool_name | error_type];
      try discriminate; cbn -[Z.add Z.of_nat] in *; try (destruct ok); cbn -[Z.add Z.of_nat] in *;
      lia.
Qed.

(** X28.  On a collector that was reset and then used without another
    reset, and on which no more requests were completed than started, the
    success rate of a snapshot is between 0 and 100.  (A reset between the
    start and the completion of a request breaks this, as
    [success_rate_after_a_reset_under_way] shows.) *)
Theorem success_rate_is_a_percentage (start now : Q) (ops : list Metrics.Op) :
  Forall (fun op => is_reset_op op = false) ops ->
  (length (List.filter is_complete_op ops) <= length (List.filter is_start_op ops))%nat ->
  (0 <= Metrics.success_rate
          (Metrics.get_metrics (fold_left Metrics.apply_op ops (Metrics.reset start)) now)
   <= 100)%Q.
Proof.
  intros Hall Hle.
  destruct (counters_without_reset ops (Metrics.reset start) Hall) as [H1 [H2 [H3 H4]]].
  cbv zeta in H1, H2, H3, H4. cbn [Metrics.reset Metrics.total Metrics.success Metrics.error] in *.
  set (m := fold_left Metrics.apply_op ops (Metrics.reset start)) in *.
  cbn [Metrics.get_metrics Metrics.success_rate].
  apply round2_of_a_percentage.
  - destruct (0 <? Metrics.total m)%Z eqn:Ht; [| discriminate].
    apply Z.ltb_lt in Ht.
    apply Qmult_le_0_compat; [| discriminate].
    apply Qle_shift_div_l; [rewrite <- (Zlt_Qlt 0); exact Ht |].
    rewrite Qmult_0_l. rewrite <- (Zle_Qle 0). exact H3.
  - destruct (0 <? Metrics.total m)%Z eqn:Ht; [| apply Qle_refl].
    apply Z.ltb_lt in Ht.
    assert (Hst : (Metrics.success m <= Metrics.total m)%Z) by lia.
    assert (Hq : (inject_Z (Metrics.success m) / inject_Z (Metrics.total m) <= 1)%Q).
    { apply Qle_shift_div_r; [rewrite <- (Zlt_Qlt 0); exact Ht |].
      rewrite Qmult_1_l. rewrite <- Zle_Qle. exact Hst. }
    nra.
Qed.

Lemma success_rate_is_a_percentage_witness :
  (0 <= Metrics.success_rate
          (Metrics.get_metrics (fold_left Metrics.apply_op three_requests (Metrics.reset 0)) 60)
   <= 100)%Q.
Proof.
  apply (success_rate_is_a_percentage 0 60 three_requests).
  - repeat constructor.
  - vm_compute. lia.
Defined.

Example success_rate_of_three_requests :
  Metrics.success_rate
    (Metrics.get_metrics (fold_left Metrics.apply_op three_requests (Metrics.reset 0)) 60)
  = (3333 # 100)%Q.
Proof. vm_compute. reflexivity. Qed.

Example success_rate_after_a_reset_under_way :
  Metrics.success_rate
    (Metrics.get_metrics
       (fold_left Metrics.apply_op
          [Metrics.op_request_start 1000; Metrics.op_request_start 1100;
           Metrics.op_reset 2; Metrics.op_request_complete 1000 2500 true;
           Metrics.op_request_start 3000; Metrics.op_request_complete 1100 3200 true]
          (Metrics.reset 0)) 60)
  = 200%Q.
Proof. vm_compute. reflexivity. Qed.
